(** * Verification of [scripts/publish_content.py]

    A shallow embedding of the content publisher: parsed YAML documents and
    Python values, [json.dumps], SHA-256, the directory tree, the two stores
    (an S3 bucket and a DynamoDB table) and the publish loop, followed by the
    properties of the publish pipeline.

    Python [str] values are modelled by their UTF-8 byte strings, Python
    [int] by [Z], a Python [dict] by an association list in insertion order
    (keys are distinct), the DynamoDB table by a finite map from the
    composite key (PK, SK) to the stored item. *)

From Stdlib Require Import ZArith List Ascii String Bool Permutation Sorted DecimalString.
From stdpp Require Import base option gmap strings sorting.

Local Open Scope list_scope.
Local Open Scope string_scope.
Local Open Scope Z_scope.

Set Default Proof Using "Type".

(* ===================================================================== *)
(** ** Python values                                                      *)
(* ===================================================================== *)

(** What [yaml.safe_load] hands back and what the script builds from it:
    [None], booleans, integers, strings, lists and string-keyed dicts
    (floating-point numbers are left out). *)
#[warnings="-register-all"]
Inductive pyval : Type :=
| PNone
| PBool (b : bool)
| PInt (z : Z)
| PStr (s : string)
| PList (l : list pyval)
| PDict (d : list (string * pyval)).

Abbreviation pydict := (list (string * pyval)).

(** [k in d] and [d[k]] / [d.get(k)]. *)
Fixpoint dict_lookup (k : string) (d : pydict) : option pyval :=
  match d with
  | [] => None
  | (k', v) :: d' => if String.eqb k k' then Some v else dict_lookup k d'
  end.

(** [d.get(k, dflt)]. *)
Definition dict_get (d : pydict) (k : string) (dflt : pyval) : pyval :=
  match dict_lookup k d with
  | Some v => v
  | None => dflt
  end.

(** Python truthiness, as used by [x or y]. *)
Definition truthy (v : pyval) : bool :=
  match v with
  | PNone => false
  | PBool b => b
  | PInt z => negb (z =? 0)
  | PStr s => negb (String.eqb s EmptyString)
  | PList l => match l with [] => false | _ => true end
  | PDict d => match d with [] => false | _ => true end
  end.

Definition py_or (a b : pyval) : pyval := if truthy a then a else b.

(* ===================================================================== *)
(** ** Text helpers                                                       *)
(* ===================================================================== *)

Definition string_of_Z (z : Z) : string := NilZero.string_of_int (Z.to_int z).

Definition hex_digit (n : Z) : ascii :=
  ascii_of_nat (Z.to_nat (if n <? 10 then 48 + n else 87 + n)).

(** [n] lowercase hexadecimal digits of [v], most significant first. *)
Fixpoint hex_fixed (n : nat) (v : Z) : string :=
  match n with
  | O => EmptyString
  | S n' => hex_fixed n' (v / 16) ++ String (hex_digit (v mod 16)) EmptyString
  end.

Fixpoint join (sep : string) (l : list string) : string :=
  match l with
  | [] => EmptyString
  | [x] => x
  | x :: l' => x ++ sep ++ join sep l'
  end.

Fixpoint string_take (n : nat) (s : string) : string :=
  match n, s with
  | S n', String c s' => String c (string_take n' s')
  | _, _ => EmptyString
  end.

Definition starts_with (p s : string) : bool := String.prefix p s.

Definition ends_with (p s : string) : bool :=
  let lp := String.length p in
  let ls := String.length s in
  (lp <=? ls)%nat && String.eqb (String.substring (ls - lp) lp s) p.

(* ===================================================================== *)
(** ** [json.dumps]                                                       *)
(* ===================================================================== *)

(** String escaping of [json.dumps(..., ensure_ascii=False)]: the quote,
    the backslash and the control characters below 0x20 are escaped, every
    other byte is emitted as it is. *)
Definition dquote : ascii := ascii_of_nat 34.
Definition bslash : ascii := ascii_of_nat 92.

Definition json_escape_char (c : ascii) : string :=
  let n := Z.of_nat (nat_of_ascii c) in
  if n =? 34 then String bslash (String dquote EmptyString) else
  if n =? 92 then "\\" else
  if n =? 8 then "\b" else
  if n =? 9 then "\t" else
  if n =? 10 then "\n" else
  if n =? 12 then "\f" else
  if n =? 13 then "\r" else
  if n <? 32 then "\u" ++ hex_fixed 4 n else
  String c EmptyString.

Fixpoint json_escape (s : string) : string :=
  match s with
  | EmptyString => EmptyString
  | String c s' => json_escape_char c ++ json_escape s'
  end.

Definition json_string (s : string) : string :=
  String dquote (json_escape s ++ String dquote EmptyString).

(** [sorted(d.items())] for [sort_keys=True]: keys are distinct, so the
    order is the order of the keys (code points, that is bytes of UTF-8). *)
Fixpoint insert_by_key {A : Type} (x : string * A) (l : list (string * A)) : list (string * A) :=
  match l with
  | [] => [x]
  | y :: l' => if String.leb (fst x) (fst y) then x :: l else y :: insert_by_key x l'
  end.

Fixpoint sort_by_key {A : Type} (l : list (string * A)) : list (string * A) :=
  match l with
  | [] => []
  | x :: l' => insert_by_key x (sort_by_key l')
  end.

Section Dumps.
(** [sort_keys], [item_separator] and [key_separator] of the encoder. *)
Variable sort_keys : bool.
Variable item_sep key_sep : string.

Definition json_member (kv : string * string) : string :=
  json_string (fst kv) ++ key_sep ++ snd kv.

Fixpoint json_encode (v : pyval) : string :=
  match v with
  | PNone => "null"
  | PBool true => "true"
  | PBool false => "false"
  | PInt z => string_of_Z z
  | PStr s => json_string s
  | PList l => "[" ++ join item_sep (map json_encode l) ++ "]"
  | PDict d =>
      let members := map (fun kv => (fst kv, json_encode (snd kv))) d in
      let members := if sort_keys then sort_by_key members else members in
      "{" ++ join item_sep (map json_member members) ++ "}"
  end.
End Dumps.

(** [json.dumps(obj, ensure_ascii=False)] *)
Definition json_dumps (obj : pyval) : string := json_encode false ", " ": " obj.

(** [json.dumps(obj, ensure_ascii=False, separators=(",", ":"), sort_keys=True)] *)
Definition json_dumps_canonical (obj : pyval) : string := json_encode true "," ":" obj.

(* ===================================================================== *)
(** ** SHA-256 ([hashlib.sha256])                                         *)
(* ===================================================================== *)

Module SHA256.

Definition w32 (x : Z) : Z := x mod 4294967296.
Definition add32 (x y : Z) : Z := w32 (x + y).
Definition rotr (n x : Z) : Z := Z.lor (Z.shiftr x n) (w32 (Z.shiftl x (32 - n))).
Definition not32 (x : Z) : Z := 4294967295 - x.

Definition Ch (x y z : Z) : Z := Z.lxor (Z.land x y) (Z.land (not32 x) z).
Definition Maj (x y z : Z) : Z :=
  Z.lxor (Z.lxor (Z.land x y) (Z.land x z)) (Z.land y z).
Definition Sigma0 (x : Z) : Z := Z.lxor (Z.lxor (rotr 2 x) (rotr 13 x)) (rotr 22 x).
Definition Sigma1 (x : Z) : Z := Z.lxor (Z.lxor (rotr 6 x) (rotr 11 x)) (rotr 25 x).
Definition sigma0 (x : Z) : Z := Z.lxor (Z.lxor (rotr 7 x) (rotr 18 x)) (Z.shiftr x 3).
Definition sigma1 (x : Z) : Z := Z.lxor (Z.lxor (rotr 17 x) (rotr 19 x)) (Z.shiftr x 10).

(** The constants are defined as the standard defines them: the first
    thirty-two bits of the fractional parts of the cube roots (for [K]) and
    of the square roots (for [H0]) of the first primes. *)
Definition is_prime (n : Z) : bool :=
  (1 <? n) && forallb (fun d => negb (n mod Z.of_nat d =? 0)) (seq 2 (Z.to_nat n - 2)).

Definition first_primes (count : nat) : list Z :=
  firstn count (List.filter is_prime (map Z.of_nat (seq 2 400))).

(** The largest [r] between [lo] and [hi] with [r * r * r <= n]. *)
Fixpoint cube_root (fuel : nat) (lo hi n : Z) : Z :=
  match fuel with
  | O => lo
  | S fuel' =>
      let mid := (lo + hi + 1) / 2 in
      if mid * mid * mid <=? n then cube_root fuel' mid hi n
      else cube_root fuel' lo (mid - 1) n
  end.

Definition K : list Z :=
  Eval vm_compute in
    map (fun p => w32 (cube_root 40 0 (2 ^ 36) (p * 2 ^ 96))) (first_primes 64).

Definition H0 : list Z :=
  Eval vm_compute in
    map (fun p => w32 (Z.sqrt (p * 2 ^ 64))) (first_primes 8).

Definition bytes_of_string (s : string) : list Z :=
  map (fun c => Z.of_nat (nat_of_ascii c)) (list_ascii_of_string s).

(** Big-endian bytes of [v], [n] of them. *)
Fixpoint be_bytes (n : nat) (v : Z) : list Z :=
  match n with
  | O => []
  | S n' => be_bytes n' (v / 256) ++ [v mod 256]
  end.

(** The message followed by 0x80, zero bytes up to 56 modulo 64, and the
    bit length on eight bytes. *)
Definition pad (msg : list Z) : list Z :=
  let len := Z.of_nat (List.length msg) in
  let zeros := Z.to_nat ((55 - len) mod 64) in
  msg ++ [128] ++ repeat 0 zeros ++ be_bytes 8 (8 * len).

Fixpoint words_of_bytes (fuel : nat) (bs : list Z) : list Z :=
  match fuel, bs with
  | S f, a :: b :: c :: d :: bs' =>
      (((a * 256 + b) * 256 + c) * 256 + d) :: words_of_bytes f bs'
  | _, _ => []
  end.

(** Extends the sixteen words of a block to the sixty-four of the
    message schedule; [rev_w] holds the words computed so far, last
    first. *)
Fixpoint schedule (n : nat) (rev_w : list Z) : list Z :=
  match n with
  | O => rev rev_w
  | S n' =>
      let w2 := nth 1 rev_w 0 in
      let w7 := nth 6 rev_w 0 in
      let w15 := nth 14 rev_w 0 in
      let w16 := nth 15 rev_w 0 in
      schedule n' (add32 (add32 (sigma1 w2) w7) (add32 (sigma0 w15) w16) :: rev_w)
  end.

Definition round (st : list Z) (kw : Z * Z) : list Z :=
  match st with
  | [a; b; c; d; e; f; g; h] =>
      let t1 := add32 (add32 (add32 h (Sigma1 e)) (add32 (Ch e f g) (fst kw))) (snd kw) in
      let t2 := add32 (Sigma0 a) (Maj a b c) in
      [add32 t1 t2; a; b; c; add32 d t1; e; f; g]
  | _ => st
  end.

Fixpoint zip_add (x y : list Z) : list Z :=
  match x, y with
  | a :: x', b :: y' => add32 a b :: zip_add x' y'
  | _, _ => []
  end.

Definition compress (h : list Z) (block : list Z) : list Z :=
  let w := schedule 48 (rev block) in
  zip_add h (fold_left round (combine K w) h).

Fixpoint blocks (fuel : nat) (ws : list Z) : list (list Z) :=
  match fuel, ws with
  | O, _ => []
  | _, [] => []
  | S f, _ => firstn 16 ws :: blocks f (skipn 16 ws)
  end.

Definition digest_words (msg : list Z) : list Z :=
  let bs := pad msg in
  let ws := words_of_bytes (List.length bs) bs in
  fold_left compress (blocks (List.length ws) ws) H0.

(** [hashlib.sha256(b).hexdigest()] *)
Definition hexdigest (b : string) : string :=
  String.concat EmptyString (map (hex_fixed 8) (digest_words (bytes_of_string b))).

End SHA256.

(** [_sha256_short] *)
Definition _sha256_short (obj : pyval) : string :=
  string_take 16 (SHA256.hexdigest (json_dumps_canonical obj)).


(* ===================================================================== *)
(** ** Built-ins: [str()], [repr()], [int()], [len()]                     *)
(* ===================================================================== *)

Definition squote : ascii := ascii_of_nat 39.

Fixpoint string_mem (c : ascii) (s : string) : bool :=
  match s with
  | EmptyString => false
  | String c' s' => Ascii.eqb c c' || string_mem c s'
  end.

(** [repr] of a [str]: double quotes only when the text holds a single
    quote and no double quote. Bytes above 0x7f stand for printable
    characters and are kept. *)
Definition repr_char (q c : ascii) : string :=
  let n := Z.of_nat (nat_of_ascii c) in
  if Ascii.eqb c q || Ascii.eqb c bslash then String bslash (String c EmptyString) else
  if n =? 9 then "\t" else
  if n =? 10 then "\n" else
  if n =? 13 then "\r" else
  if (n <? 32) || (n =? 127) then "\x" ++ hex_fixed 2 n else
  String c EmptyString.

Definition repr_str (s : string) : string :=
  let q := if string_mem squote s && negb (string_mem dquote s) then dquote else squote in
  String q (String.concat EmptyString (map (repr_char q) (list_ascii_of_string s))
            ++ String q EmptyString).

Fixpoint py_repr (v : pyval) : string :=
  match v with
  | PNone => "None"
  | PBool true => "True"
  | PBool false => "False"
  | PInt z => string_of_Z z
  | PStr s => repr_str s
  | PList l => "[" ++ join ", " (map py_repr l) ++ "]"
  | PDict d => "{" ++ join ", " (map (fun kv => repr_str (fst kv) ++ ": " ++ py_repr (snd kv)) d) ++ "}"
  end.

(** What an f-string field [{v}] renders. *)
Definition py_str (v : pyval) : string :=
  match v with
  | PStr s => s
  | _ => py_repr v
  end.

(** Exceptions: the store clients' [ClientError] with its error code, and
    any other Python exception by the name of its class. *)
Inductive exn : Type :=
| ClientError (code : string)
| PyError (cls : string).

Definition is_space (c : ascii) : bool :=
  let n := nat_of_ascii c in
  ((9 <=? n) && (n <=? 13) || (n =? 32))%nat.

Definition digit_val (c : ascii) : option Z :=
  let n := Z.of_nat (nat_of_ascii c) in
  if (48 <=? n) && (n <=? 57) then Some (n - 48) else None.

Fixpoint lstrip (s : list ascii) : list ascii :=
  match s with
  | c :: s' => if is_space c then lstrip s' else s
  | [] => []
  end.

(** Decimal digits, single underscores allowed between digits. *)
Fixpoint parse_digits (acc : Z) (prev_digit : bool) (s : list ascii) : option Z :=
  match s with
  | [] => if prev_digit then Some acc else None
  | c :: s' =>
      match digit_val c with
      | Some d => parse_digits (10 * acc + d) true s'
      | None =>
          if Ascii.eqb c (ascii_of_nat 95) && prev_digit
          then match s' with
               | c' :: _ => match digit_val c' with
                            | Some _ => parse_digits acc false s'
                            | None => None
                            end
               | [] => None
               end
          else None
      end
  end.

(** [int(s)] for a string: surrounding ASCII white space, an optional
    sign, decimal digits. *)
Definition int_of_string (s : string) : option Z :=
  let body := lstrip (rev (lstrip (rev (list_ascii_of_string s)))) in
  match body with
  | c :: rest =>
      if Ascii.eqb c (ascii_of_nat 45) then Z.opp <$> parse_digits 0 false rest
      else if Ascii.eqb c (ascii_of_nat 43) then parse_digits 0 false rest
      else parse_digits 0 false body
  | [] => None
  end.

(** [int(v)] *)
Definition py_int (v : pyval) : exn + Z :=
  match v with
  | PInt z => inr z
  | PBool b => inr (if b then 1 else 0)
  | PStr s => match int_of_string s with
              | Some z => inr z
              | None => inl (PyError "ValueError")
              end
  | _ => inl (PyError "TypeError")
  end.

(** Number of characters of a UTF-8 text: the bytes that are not
    continuation bytes. *)
Definition char_count (s : string) : Z :=
  Z.of_nat (List.length (List.filter (fun c => negb ((128 <=? nat_of_ascii c) && (nat_of_ascii c <? 192))%nat)
                                (list_ascii_of_string s))).

(** [len(v)] *)
Definition py_len (v : pyval) : exn + Z :=
  match v with
  | PStr s => inr (char_count s)
  | PList l => inr (Z.of_nat (List.length l))
  | PDict d => inr (Z.of_nat (List.length d))
  | _ => inl (PyError "TypeError")
  end.


(* ===================================================================== *)
(** ** The outside world: stores, clock, output                           *)
(* ===================================================================== *)

Record s3_object : Type := S3Object {
  Body : string;
  ContentType : string;
  CacheControl : string
}.

(** The keyword arguments of [table.put_item]: the item and, when the
    version guard is on, the value bound to [:newv] in the condition
    [attribute_not_exists(#v) OR #v <= :newv] with [#v] naming [version]. *)
Record put_item_args : Type := PutItemArgs {
  Item : pydict;
  Newv : option pyval
}.

(** The table of live records keyed by (PK, SK), the bucket's objects
    keyed by (bucket, key), and the number of calls made to the outside so
    far. *)
Record world : Type := World {
  ddb : gmap (string * string) pydict;
  s3 : gmap (string * string) s3_object;
  ticks : nat
}.

(** What the outside answers at each call: the clock reading
    [int(time.time())] and whether a store call fails on its own
    (permissions, network, throttling, a limit of the service or of its
    client), with the exception it then raises. *)
Record env : Type := Env {
  now : nat → Z;
  fault : nat → option exn
}.

Inductive event : Type :=
| Stdout (line : string)
| Stderr (line : string)
| CallPutItem (kwargs : put_item_args)
| CallPutObject (bucket key : string) (obj : s3_object).

(** How a computation ends: with a value, by [sys.exit(code)], or with an
    exception travelling up. *)
Inductive res (A : Type) : Type :=
| Ret (a : A)
| Exit (code : Z)
| Raise (x : exn).
Arguments Ret {A} a.
Arguments Exit {A} code.
Arguments Raise {A} x.

Definition M (A : Type) : Type := world → res A * world * list event.

Definition ret {A : Type} (a : A) : M A := fun w => (Ret a, w, []).

Definition bind {A B : Type} (m : M A) (f : A → M B) : M B := fun w =>
  match m w with
  | (Ret a, w1, ev1) =>
      match f a w1 with
      | (r, w2, ev2) => (r, w2, (ev1 ++ ev2)%list)
      end
  | (Exit c, w1, ev1) => (Exit c, w1, ev1)
  | (Raise x, w1, ev1) => (Raise x, w1, ev1)
  end.

Notation "x <- m ;; k" := (bind m (fun x => k))
  (at level 100, m at next level, right associativity).
Notation "m ;;; k" := (bind m (fun _ => k))
  (at level 100, right associativity).

Definition raise {A : Type} (x : exn) : M A := fun w => (Raise x, w, []).

Definition lift {A : Type} (r : exn + A) : M A :=
  match r with
  | inl x => raise x
  | inr a => ret a
  end.

(** [try: m except ClientError as e: h e]; other exceptions and exits pass. *)
Definition try_client_error {A : Type} (m : M A) (h : string → M A) : M A := fun w =>
  match m w with
  | (Raise (ClientError code), w1, ev1) =>
      match h code w1 with
      | (r, w2, ev2) => (r, w2, (ev1 ++ ev2)%list)
      end
  | other => other
  end.

Fixpoint for_each {A : Type} (l : list A) (body : A → M unit) : M unit :=
  match l with
  | [] => ret tt
  | x :: l' => body x ;;; for_each l' body
  end.

Definition print (line : string) : M unit := fun w => (Ret tt, w, [Stdout line]).

(** [_die]: the message on the error stream, then [sys.exit(1)]. *)
Definition _die {A : Type} (msg : string) : M A := fun w =>
  (Exit 1, w, [Stderr ("[ERROR] " ++ msg)]).

Definition tick (w : world) : world :=
  {| ddb := ddb w; s3 := s3 w; ticks := S (ticks w) |}.

(** [int(time.time())] *)
Definition time_now (e : env) : M Z := fun w => (Ret (now e (ticks w)), tick w, []).

(** [d[k]], a [KeyError] when the key is absent. *)
Definition getitem (d : pydict) (k : string) : M pyval :=
  match dict_lookup k d with
  | Some v => ret v
  | None => raise (PyError "KeyError")
  end.

(** *** The DynamoDB table *)

(** The store's [<=] on attribute values: numbers with numbers, strings
    with strings; operands of different or other types do not compare. *)
Definition ddb_le (a b : pyval) : bool :=
  match a, b with
  | PInt x, PInt y => x <=? y
  | PStr x, PStr y => String.leb x y
  | _, _ => false
  end.

(** [attribute_not_exists(version) OR version <= :newv], against the item
    stored under the key, if any. *)
Definition condition_holds (existing : option pydict) (newv : pyval) : bool :=
  match existing with
  | None => true
  | Some old =>
      match dict_lookup "version" old with
      | None => true
      | Some v => ddb_le v newv
      end
  end.

(** The primary key of an item: string attributes PK and SK. *)
Definition item_key (item : pydict) : option (string * string) :=
  match dict_lookup "PK" item, dict_lookup "SK" item with
  | Some (PStr pk), Some (PStr sk) => Some (pk, sk)
  | _, _ => None
  end.

(** [table.put_item] with these keyword arguments: replaces the item under the key, unless
    the call fails on its own, the key is malformed, or the condition does
    not hold. *)
Definition put_item (e : env) (kwargs : put_item_args) : M unit := fun w =>
  match fault e (ticks w) with
  | Some x => (Raise x, tick w, [CallPutItem kwargs])
  | None =>
      match item_key (Item kwargs) with
      | None => (Raise (ClientError "ValidationException"), tick w, [CallPutItem kwargs])
      | Some k =>
          let ok := match Newv kwargs with
                    | Some newv => condition_holds (ddb w !! k) newv
                    | None => true
                    end in
          if ok
          then (Ret tt, {| ddb := <[k := Item kwargs]> (ddb w); s3 := s3 w; ticks := S (ticks w) |},
                [CallPutItem kwargs])
          else (Raise (ClientError "ConditionalCheckFailedException"), tick w, [CallPutItem kwargs])
      end
  end.

(** *** The S3 bucket *)

(** [s3.put_object(Bucket=..., Key=..., Body=..., ContentType=..., CacheControl=...)] *)
Definition put_object (e : env) (bucket key : string) (obj : s3_object) : M unit := fun w =>
  match fault e (ticks w) with
  | Some x => (Raise x, tick w, [CallPutObject bucket key obj])
  | None =>
      (Ret tt, {| ddb := ddb w; s3 := <[(bucket, key) := obj]> (s3 w); ticks := S (ticks w) |},
       [CallPutObject bucket key obj])
  end.

(* ===================================================================== *)
(** ** The two store clients of the script                                *)
(* ===================================================================== *)

Definition byte_length (s : string) : Z := Z.of_nat (String.length s).

(** [_s3_put_json] *)
Definition _s3_put_json (e : env) (bucket key : string) (obj : pyval) (dry : bool) : M unit :=
  let body := json_dumps obj in
  if dry then
    print ("[DRY] S3 PUT s3://" ++ bucket ++ "/" ++ key ++ " (" ++ string_of_Z (byte_length body) ++ " bytes)")
  else
    put_object e bucket key
      {| Body := body; ContentType := "application/json";
         CacheControl := "max-age=0,no-cache,no-store" |} ;;;
    print ("[OK ] S3 PUT s3://" ++ bucket ++ "/" ++ key).

(** [_ddb_put_live] *)
Definition _ddb_put_live (e : env) (item : pydict) (guard_version dry : bool) : M unit :=
  if dry then
    pk <- getitem item "PK" ;;
    sk <- getitem item "SK" ;;
    print ("[DRY] DDB PUT " ++ py_str pk ++ " " ++ py_str sk ++ " -> " ++ json_dumps (PDict item))
  else
    let kwargs := {| Item := item;
                     Newv := if guard_version then dict_lookup "version" item else None |} in
    try_client_error
      (put_item e kwargs ;;;
       pk <- getitem item "PK" ;;
       sk <- getitem item "SK" ;;
       print ("[OK ] DDB PUT " ++ py_str pk ++ " " ++ py_str sk))
      (fun code =>
         if String.eqb code "ConditionalCheckFailedException" then
           pk <- getitem item "PK" ;;
           sk <- getitem item "SK" ;;
           print ("[SKIP] Newer/equal version exists for " ++ py_str pk ++ " " ++ py_str sk)
         else raise (ClientError code)).

(* ===================================================================== *)
(** ** The content tree on disk                                           *)
(* ===================================================================== *)

(** A file holds what [yaml.safe_load] returns for it; a directory lists
    its entries by name. *)
#[warnings="-register-all"]
Inductive fsnode : Type :=
| FFile (content : pyval)
| FDir (entries : list (string * fsnode)).

Abbreviation dirlist := (list (string * fsnode)).

(** [(dir / name)], if it exists. *)
Fixpoint child (name : string) (es : dirlist) : option fsnode :=
  match es with
  | [] => None
  | (n, x) :: es' => if String.eqb name n then Some x else child name es'
  end.

Definition is_dir (x : fsnode) : bool :=
  match x with FDir _ => true | FFile _ => false end.

Definition is_file (x : fsnode) : bool :=
  match x with FFile _ => true | FDir _ => false end.

Definition entries_of (x : fsnode) : dirlist :=
  match x with FDir es => es | FFile _ => [] end.

(** [p.iterdir()] *)
Definition iterdir (x : fsnode) : M dirlist :=
  match x with
  | FDir es => ret es
  | FFile _ => raise (PyError "NotADirectoryError")
  end.

(** [sorted(p for p in d.iterdir() if p.is_dir() and p.name.startswith(pre))]:
    siblings are ordered by name. *)
Definition sorted_subdirs (pre : string) (es : dirlist) : dirlist :=
  sort_by_key (List.filter (fun x => is_dir (snd x) && starts_with pre (fst x)) es).

(** [str(parent / name)] for a path already in [pathlib]'s normal form. *)
Definition path_child (parent name : string) : string :=
  if String.eqb parent "." then name
  else if ends_with "/" parent then parent ++ name
  else parent ++ "/" ++ name.

(** [p.stem] of a name that matches [a_*.yaml]: the script takes the stem
    of the activity files [_list_activity_yaml] returns and of nothing
    else, and for them it is the name without its last five characters. *)
Definition stem (name : string) : string :=
  String.substring 0 (String.length name - 5) name.

(** [_load_yaml]. The document is a mapping: anything else that is truthy
    fails with [AttributeError] at the first [.get], which follows the load
    at once at each of the three places that load. *)
Definition _load_yaml (f : fsnode) : M pydict :=
  match f with
  | FDir _ => raise (PyError "IsADirectoryError")
  | FFile v =>
      match py_or v (PDict []) with
      | PDict d => ret d
      | _ => raise (PyError "AttributeError")
      end
  end.

(** [_discover_unit_yaml]: [parent] lists the directory that holds the unit
    directory. *)
Definition _discover_unit_yaml (parent : dirlist) (name : string) (unit_dir : dirlist) : M fsnode :=
  match child (name ++ ".yaml") unit_dir with
  | Some in_dir => ret in_dir
  | None =>
      match child (name ++ ".yaml") parent with
      | Some sibling => ret sibling
      | None => _die ("Unit YAML not found for " ++ name)
      end
  end.

(** [_discover_episode_yaml]: [path] is [str(ep_dir)]. *)
Definition _discover_episode_yaml (path name : string) (ep_dir : dirlist) : M fsnode :=
  match child (name ++ ".yaml") ep_dir with
  | Some p => ret p
  | None => _die ("Episode YAML not found: " ++ path_child path (name ++ ".yaml"))
  end.

(** The pattern [a_*.yaml]. *)
Definition matches_activity (name : string) : bool :=
  starts_with "a_" name && ends_with ".yaml" name && (7 <=? String.length name)%nat.

(** [_list_activity_yaml] *)
Definition _list_activity_yaml (ep_dir : dirlist) : dirlist :=
  match child "activities" ep_dir with
  | None => []
  | Some act_dir =>
      sort_by_key (List.filter (fun x => matches_activity (fst x) && is_file (snd x))
                          (entries_of act_dir))
  end.

(* ===================================================================== *)
(** ** Building the manifest and publishing                               *)
(* ===================================================================== *)

Definition SEP : string := "#".

(** [_build_manifest] *)
Definition _build_manifest (unit_id episode_id : pyval) (a_yaml : pydict) : M pydict :=
  let aid := dict_get a_yaml "id" PNone in
  let title := dict_get a_yaml "title" aid in
  version <- lift (py_int (dict_get a_yaml "version" (PInt 1))) ;;
  let locale := dict_get a_yaml "locale" (PStr "en-US") in
  let questions := dict_get a_yaml "questions" (PList []) in
  total <- lift (py_len questions) ;;
  ret [ ("unitId", unit_id);
        ("episodeId", episode_id);
        ("activityId", aid);
        ("activityFqId", PStr (py_str unit_id ++ "/" ++ py_str episode_id ++ "/" ++ py_str aid));
        ("title", title);
        ("version", PInt version);
        ("locale", locale);
        ("total", PInt total);
        ("questions", questions) ].

(** The three dict literals of [_publish], with the clock reading taken
    apart: the Unit live record (lines 106 to 115), the Episode live record
    (lines 132 to 142) and the Activity live record (lines 158 to 172). *)
Definition unit_live_item (unit_id unit_title unit_content : pyval)
    (ep_names : list string) (updated_at : Z) : pydict :=
  let local_ep_ids := map PStr ep_names in
  let fq_ep_ids := map (fun n => PStr (py_str unit_id ++ SEP ++ n)) ep_names in
  [ ("PK", PStr ("UNIT#" ++ py_str unit_id));
    ("SK", PStr "LIVE");
    ("entityType", PStr "UNIT_LIVE");
    ("title", unit_title);
    ("content", unit_content);
    ("episodeIds", PList local_ep_ids);
    ("episodeFqIds", PList fq_ep_ids);
    ("updatedAt", PInt updated_at) ].

Definition episode_live_item (unit_id episode_id episode_title : pyval)
    (act_stems : list string) (updated_at : Z) : pydict :=
  let local_act_ids := map PStr act_stems in
  let fq_act_ids :=
    map (fun a => PStr (py_str unit_id ++ SEP ++ py_str episode_id ++ SEP ++ a)) act_stems in
  [ ("PK", PStr ("EPISODE#" ++ py_str unit_id ++ SEP ++ py_str episode_id));
    ("SK", PStr "LIVE");
    ("entityType", PStr "EPISODE_LIVE");
    ("unitId", unit_id);
    ("episodeId", episode_id);
    ("title", episode_title);
    ("activityIds", PList local_act_ids);
    ("activityFqIds", PList fq_act_ids);
    ("updatedAt", PInt updated_at) ].

Definition activity_live_item (bucket s3_key : string)
    (unit_id episode_id activity_id activity_title locale total : pyval)
    (version updated_at : Z) : pydict :=
  [ ("PK", PStr ("ACTIVITY#" ++ py_str unit_id ++ SEP ++ py_str episode_id ++ SEP ++ py_str activity_id));
    ("SK", PStr "LIVE");
    ("entityType", PStr "ACTIVITY_LIVE");
    ("unitId", unit_id);
    ("episodeId", episode_id);
    ("activityId", activity_id);
    ("activityFqid", PStr (py_str unit_id ++ SEP ++ py_str episode_id ++ SEP ++ py_str activity_id));
    ("title", activity_title);
    ("locale", locale);
    ("manifestS3Key", PStr ("s3://" ++ bucket ++ "/" ++ s3_key));
    ("totalQuestions", total);
    ("version", PInt version);
    ("updatedAt", PInt updated_at) ].

Section Publish.
Variable e : env.
Variables bucket s3_prefix : string.
Variable dry : bool.

(** The body of the loop over the activity files of an episode
    (lines 146 to 173 of the script). *)
Definition publish_activity (unit_id episode_id : pyval) (a_path : string * fsnode) : M unit :=
  a_yaml <- _load_yaml (snd a_path) ;;
  let activity_id := py_or (dict_get a_yaml "id" PNone) (PStr (stem (fst a_path))) in
  let activity_title := dict_get a_yaml "title" activity_id in
  version <- lift (py_int (dict_get a_yaml "version" (PInt 1))) ;;
  manifest <- _build_manifest unit_id episode_id a_yaml ;;
  let mhash := _sha256_short (PDict manifest) in
  mversion <- getitem manifest "version" ;;
  let s3_key := s3_prefix ++ "/" ++ py_str unit_id ++ "/" ++ py_str episode_id ++ "/"
                ++ py_str activity_id ++ "/v" ++ py_str mversion
                ++ "/manifest-" ++ mhash ++ ".json" in
  _s3_put_json e bucket s3_key (PDict manifest) dry ;;;
  total <- getitem manifest "total" ;;
  updated_at <- time_now e ;;
  let activity_item :=
    activity_live_item bucket s3_key unit_id episode_id activity_id activity_title
      (dict_get manifest "locale" (PStr "en-US")) total version updated_at in
  _ddb_put_live e activity_item true dry.

(** The body of the loop over the episode directories of a unit (lines
    122 to 173); [path] is [str(episodes_root)]. *)
Definition publish_episode (path : string) (unit_id : pyval) (ep_dir : string * fsnode) : M unit :=
  let name := fst ep_dir in
  let dir := entries_of (snd ep_dir) in
  doc <- _discover_episode_yaml (path_child path name) name dir ;;
  ep_yaml <- _load_yaml doc ;;
  let episode_id := py_or (dict_get ep_yaml "id" PNone) (PStr name) in
  let episode_title := dict_get ep_yaml "title" episode_id in
  let acts := _list_activity_yaml dir in
  updated_at <- time_now e ;;
  let episode_item :=
    episode_live_item unit_id episode_id episode_title (map (fun p => stem (fst p)) acts) updated_at in
  _ddb_put_live e episode_item false dry ;;;
  for_each acts (publish_activity unit_id episode_id).

(** The body of the loop over the unit directories (lines 90 to 173);
    [root_path] is [str(root)] and [root] lists the root directory. *)
Definition publish_unit (root_path : string) (root : dirlist) (unit_dir : string * fsnode) : M unit :=
  let name := fst unit_dir in
  let dir := entries_of (snd unit_dir) in
  doc <- _discover_unit_yaml root name dir ;;
  unit_yaml <- _load_yaml doc ;;
  let unit_id := py_or (dict_get unit_yaml "id" PNone) (PStr name) in
  let unit_title := dict_get unit_yaml "title" unit_id in
  let unit_content := dict_get unit_yaml "content" (PStr EmptyString) in
  let episodes_root := child "episodes" dir in
  ep_dirs <- match episodes_root with
             | Some d => es <- iterdir d ;; ret (sorted_subdirs "e_" es)
             | None => ret []
             end ;;
  updated_at <- time_now e ;;
  let unit_item := unit_live_item unit_id unit_title unit_content (map fst ep_dirs) updated_at in
  _ddb_put_live e unit_item false dry ;;;
  match episodes_root with
  | None => print ("[WARN] No episodes folder for unit " ++ py_str unit_id)
  | Some d =>
      es <- iterdir d ;;
      for_each (sorted_subdirs "e_" es)
               (publish_episode (path_child (path_child root_path name) "episodes") unit_id)
  end.

(** [_publish], from the test of the root at line 88 on: [root] is what
    lies at [root_path], if anything. The session, the two clients and the
    table object of lines 83 to 86 are taken as made; the world stands for
    the table and the bucket they give access to. *)
Definition _publish (root_path : string) (root : option fsnode) : M unit :=
  match root with
  | None => _die ("Root not found: " ++ root_path)
  | Some d =>
      es <- iterdir d ;;
      for_each (sorted_subdirs "u_" es) (publish_unit root_path es) ;;;
      print "[DONE] publish complete."
  end.

End Publish.

(** The exit status of the process for a run of [_publish]: 0 at a normal
    end, the code given to [sys.exit], 1 for an exception nobody caught. *)
Definition exit_status {A : Type} (r : res A) : Z :=
  match r with
  | Ret _ => 0
  | Exit c => c
  | Raise _ => 1
  end.


(** The three parts of the outcome of running a computation. *)
Definition result_of {A : Type} (o : res A * world * list event) : res A := o.1.1.
Definition world_of {A : Type} (o : res A * world * list event) : world := o.1.2.
Definition events_of {A : Type} (o : res A * world * list event) : list event := o.2.


(* ===================================================================== *)
(** ** Vocabulary of the properties                                       *)
(* ===================================================================== *)

(** How a run ended, without its value. *)
Inductive ending : Type :=
| Returned
| Exited (code : Z)
| Raised (x : exn).

Definition ending_of {A : Type} (r : res A) : ending :=
  match r with
  | Ret _ => Returned
  | Exit c => Exited c
  | Raise x => Raised x
  end.

(** A computation relates the world before, the way it ends, the world
    after and the events emitted as [Q] says. *)
Definition run_spec {A : Type} (Q : world → ending → world → list event → Prop) (m : M A) : Prop :=
  ∀ w, Q w (ending_of (result_of (m w))) (world_of (m w)) (events_of (m w)).

(** A computation keeps the relation [R] between the world before and the
    world after, and emits only events in [P]. *)
Definition run_inv {A : Type} (R : world → world → Prop) (P : event → Prop) (m : M A) : Prop :=
  ∀ w, R w (world_of (m w)) ∧ Forall P (events_of (m w)).

(** The primary keys of Activity live records. *)
Definition is_activity_pk (pk : string) : bool := starts_with "ACTIVITY#" pk.

(** The [version] attribute of the record stored under a key, if any. *)
Definition live_version (t : gmap (string * string) pydict) (k : string * string) : option pyval :=
  match t !! k with
  | Some old => dict_lookup "version" old
  | None => None
  end.

(** Every record stored under an Activity key carries an integer version. *)
Definition activity_records_versioned (w : world) : Prop :=
  ∀ pk sk old, is_activity_pk pk = true →
    ddb w !! (pk, sk) = Some old →
    ∃ v, dict_lookup "version" old = Some (PInt v).

(** No integer version stored under an Activity key goes down. *)
Definition version_mono (w w' : world) : Prop :=
  ∀ pk sk v, is_activity_pk pk = true →
    live_version (ddb w) (pk, sk) = Some (PInt v) →
    ∃ v', live_version (ddb w') (pk, sk) = Some (PInt v') ∧ v ≤ v'.

(** One publish attempt: a run of [_publish] with its own outside, store
    names, mode and content tree. *)
Record attempt : Type := Attempt {
  at_env : env;
  at_bucket : string;
  at_prefix : string;
  at_dry : bool;
  at_root_path : string;
  at_root : option fsnode
}.

Definition run_attempt (w : world) (a : attempt) : world :=
  world_of (_publish (at_env a) (at_bucket a) (at_prefix a) (at_dry a)
                     (at_root_path a) (at_root a) w).

Definition run_attempts (l : list attempt) (w : world) : world :=
  fold_left run_attempt l w.

(** Both stores hold after what they held before. *)
Definition stores_untouched (w w' : world) : Prop :=
  ddb w' = ddb w ∧ s3 w' = s3 w.

(** The events that are calls to a store. *)
Definition is_store_call (ev : event) : bool :=
  match ev with
  | CallPutItem _ | CallPutObject _ _ _ => true
  | Stdout _ | Stderr _ => false
  end.

(** The diagnostics on the error stream. *)
Definition is_stderr (ev : event) : bool :=
  match ev with
  | Stderr _ => true
  | _ => false
  end.

(** A run that writes to the error stream does so once, as the last thing
    it does, and ends by [sys.exit(1)]; a run that exits has done so. *)
Definition exits_cleanly (k : ending) (ev : list event) : Prop :=
  (∀ line, In (Stderr line) ev → k = Exited 1 ∧ ∃ ev0, ev = (ev0 ++ [Stderr line])%list) ∧
  (∀ c, k = Exited c → c = 1 ∧ ∃ ev0 line, ev = (ev0 ++ [Stderr line])%list).

(** *** Comparing two runs *)

(** A live record without its time stamp. *)
Definition strip_time (item : pydict) : pydict :=
  List.filter (fun kv => negb (String.eqb (fst kv) "updatedAt")) item.

Definition strip_args (kw : put_item_args) : put_item_args :=
  {| Item := strip_time (Item kw); Newv := Newv kw |}.

(** The calls to [table.put_item] among the events, in order. *)
Fixpoint put_calls (ev : list event) : list put_item_args :=
  match ev with
  | [] => []
  | CallPutItem kw :: ev' => kw :: put_calls ev'
  | _ :: ev' => put_calls ev'
  end.

(** From here on, the outside of the first run fails a store call exactly
    when the outside of the second does. *)
Definition same_faults (e1 e2 : env) (w1 w2 : world) : Prop :=
  ∀ n, fault e1 (ticks w1 + n)%nat = fault e2 (ticks w2 + n)%nat.

(** Two computations, each under its own outside and from its own world,
    end the same way and ask the table for the same writes, time stamps
    apart. *)
Definition run_rel {A : Type} (e1 e2 : env) (m1 m2 : M A) : Prop :=
  ∀ w1 w2, same_faults e1 e2 w1 w2 →
    result_of (m1 w1) = result_of (m2 w2) ∧
    same_faults e1 e2 (world_of (m1 w1)) (world_of (m2 w2)) ∧
    map strip_args (put_calls (events_of (m1 w1)))
    = map strip_args (put_calls (events_of (m2 w2))).

(** A computation that neither reads nor changes the world and asks the
    table for nothing. *)
Definition steady {A : Type} (m : M A) : Prop :=
  ∃ r ev, put_calls ev = [] ∧ ∀ w, m w = (r, w, ev).

(** An outside where no store call fails on its own. *)
Definition fault_free (e : env) : Prop := ∀ n, fault e n = None.

(** *** Fully-qualified ids *)

(** What a store call carries as fully-qualified activity id: an Activity
    live record chains its own [unitId], [episodeId] and [activityId] with
    [SEP], in [activityFqid] and after [ACTIVITY#] in its key; a stored
    manifest chains its own three ids with a slash. *)
Definition activity_ids_composed (ev : event) : Prop :=
  match ev with
  | CallPutItem kw =>
      dict_lookup "entityType" (Item kw) = Some (PStr "ACTIVITY_LIVE") →
      ∃ u e a,
        dict_lookup "unitId" (Item kw) = Some u ∧
        dict_lookup "episodeId" (Item kw) = Some e ∧
        dict_lookup "activityId" (Item kw) = Some a ∧
        dict_lookup "activityFqid" (Item kw)
        = Some (PStr (py_str u ++ SEP ++ py_str e ++ SEP ++ py_str a)) ∧
        dict_lookup "PK" (Item kw)
        = Some (PStr ("ACTIVITY#" ++ py_str u ++ SEP ++ py_str e ++ SEP ++ py_str a))
  | CallPutObject _ _ obj =>
      ∃ manifest u e a,
        Body obj = json_dumps (PDict manifest) ∧
        dict_lookup "unitId" manifest = Some u ∧
        dict_lookup "episodeId" manifest = Some e ∧
        dict_lookup "activityId" manifest = Some a ∧
        dict_lookup "activityFqId" manifest
        = Some (PStr (py_str u ++ "/" ++ py_str e ++ "/" ++ py_str a))
  | Stdout _ | Stderr _ => True
  end.

(** *** Manifests with the same content *)

(** Two values hold the same content when they differ at most by the order
    in which the entries of their dicts, at any depth, were inserted. *)
#[warnings="-register-all"]
Inductive same_content : pyval → pyval → Prop :=
| same_none : same_content PNone PNone
| same_bool (b : bool) : same_content (PBool b) (PBool b)
| same_int (z : Z) : same_content (PInt z) (PInt z)
| same_str (s : string) : same_content (PStr s) (PStr s)
| same_list (l1 l2 : list pyval) :
    Forall2 same_content l1 l2 → same_content (PList l1) (PList l2)
| same_dict (d1 d d2 : pydict) :
    NoDup (map fst d1) →
    Permutation d1 d →
    Forall2 (fun a b => fst a = fst b ∧ same_content (snd a) (snd b)) d d2 →
    same_content (PDict d1) (PDict d2).

(** The order [sort_by_key] sorts by. *)
Definition key_le {A : Type} (a b : string * A) : Prop := String.leb (fst a) (fst b) = true.

(** The characters of [hexdigest]. *)
Definition is_hex_char (c : ascii) : bool :=
  let n := nat_of_ascii c in
  ((48 <=? n) && (n <=? 57) || (97 <=? n) && (n <=? 102))%nat.

(** *** The table as the result of the writes asked for *)

(** What the table becomes by one call of [put_item] that does not fail on
    its own. *)
Definition apply_put (t : gmap (string * string) pydict) (kw : put_item_args)
    : gmap (string * string) pydict :=
  match item_key (Item kw) with
  | Some k =>
      if match Newv kw with
         | Some newv => condition_holds (t !! k) newv
         | None => true
         end
      then <[k := Item kw]> t
      else t
  | None => t
  end.

Definition apply_puts (t : gmap (string * string) pydict) (ops : list put_item_args)
    : gmap (string * string) pydict :=
  fold_left apply_put ops t.

(** The same, seen from one key. *)
Definition step_at (k : string * string) (cur : option pydict) (kw : put_item_args)
    : option pydict :=
  if decide (item_key (Item kw) = Some k) then
    if match Newv kw with
       | Some newv => condition_holds cur newv
       | None => true
       end
    then Some (Item kw)
    else cur
  else cur.

Definition run_at (k : string * string) (ops : list put_item_args) (cur : option pydict)
    : option pydict :=
  fold_left (step_at k) ops cur.

(** A call is either unguarded or guarded by the integer version of the
    item it carries. *)
Definition guarded_by_own_version (kw : put_item_args) : Prop :=
  match Newv kw with
  | None => True
  | Some newv => ∃ n, newv = PInt n ∧ dict_lookup "version" (Item kw) = Some (PInt n)
  end.

(** A call that, if it is under the key, is guarded by the integer version
    it carries. *)
Definition guarded_at (k : string * string) (kw : put_item_args) : Prop :=
  item_key (Item kw) = Some k →
  ∃ n, Newv kw = Some (PInt n) ∧ dict_lookup "version" (Item kw) = Some (PInt n).

(** An unguarded call under the key. *)
Definition is_reset (k : string * string) (kw : put_item_args) : bool :=
  bool_decide (item_key (Item kw) = Some k) &&
  match Newv kw with None => true | Some _ => false end.

(** The table without the time stamps of its records. *)
Definition strip_table (t : gmap (string * string) pydict) : gmap (string * string) pydict :=
  strip_time <$> t.

(* ===================================================================== *)
(** ** Sample inputs                                                      *)
(* ===================================================================== *)

(** Empty stores, and an outside whose clock starts at [t] and where no
    store call fails on its own. *)
Definition world0 : world := {| ddb := ∅; s3 := ∅; ticks := 0 |}.

Definition calm (t : Z) : env :=
  {| now := fun n => t + Z.of_nat n; fault := fun _ => None |}.

(** A tree with one unit [u_1] holding the given unit document, one
    episode [e_1] and one activity file holding the given document. *)
Definition content_tree (unit_yaml : pyval) (file : string) (a_yaml : pyval) : fsnode :=
  FDir [ ("u_1", FDir [
           ("u_1.yaml", FFile unit_yaml);
           ("episodes", FDir [
              ("e_1", FDir [
                 ("e_1.yaml", FFile (PDict [("title", PStr "Basics")]));
                 ("activities", FDir [ (file, FFile a_yaml) ]) ]) ]) ]) ].

Definition one_activity_tree (file : string) (a_yaml : pyval) : fsnode :=
  content_tree (PDict [("title", PStr "Intro")]) file a_yaml.

(** A real publish of the tree whose activity declares [version]. *)
Definition publish_version (t : Z) (version : Z) : attempt :=
  {| at_env := calm t;
     at_bucket := "liwanag-content-bucket";
     at_prefix := "activities";
     at_dry := false;
     at_root_path := "../content/units";
     at_root := Some (one_activity_tree "a_1.yaml" (PDict [("version", PInt version)])) |}.

(** The spec's scenario for activity [a_2]: the file [a_2.yaml] declares a
    version and nothing else. *)
Definition bare_activity : pydict := [("version", PInt 3)].

Definition bare_run : res unit * world * list event :=
  _publish (calm 1000) "liwanag-content-bucket" "activities" false "../content/units"
           (Some (one_activity_tree "a_2.yaml" (PDict bare_activity))) world0.

(** The manifest the script builds for it. *)
Definition bare_manifest : pydict :=
  [ ("unitId", PStr "u_1");
    ("episodeId", PStr "e_1");
    ("activityId", PNone);
    ("activityFqId", PStr "u_1/e_1/None");
    ("title", PNone);
    ("version", PInt 3);
    ("locale", PStr "en-US");
    ("total", PInt 0);
    ("questions", PList []) ].

(** A tree whose unit declares an id that holds the separator. *)
Definition separator_run : res unit * world * list event :=
  _publish (calm 1000) "liwanag-content-bucket" "activities" false "../content/units"
           (Some (content_tree (PDict [("id", PStr "u#1")]) "a_1.yaml"
                               (PDict [("id", PStr "a_1")]))) world0.

(** Two activity documents that differ in their title only, and the
    manifests built from them for unit [u_1] and episode [e_1]. *)
Definition greetings_doc : pydict :=
  [("id", PStr "a_1"); ("title", PStr "Greetings"); ("version", PInt 1);
   ("questions", PList [PDict [("prompt", PStr "Kumusta?")]])].

Definition farewells_doc : pydict :=
  [("id", PStr "a_1"); ("title", PStr "Farewells"); ("version", PInt 1);
   ("questions", PList [PDict [("prompt", PStr "Kumusta?")]])].

Definition manifest_of (a_yaml : pydict) : pydict :=
  match result_of (_build_manifest (PStr "u_1") (PStr "e_1") a_yaml world0) with
  | Ret m => m
  | _ => []
  end.

(** Publishing the same tree twice in a row, the second run starting from
    the stores the first one left; the clock moves on. *)
Definition first_run : res unit * world * list event :=
  _publish (calm 1000) "liwanag-content-bucket" "activities" false "../content/units"
           (Some (one_activity_tree "a_1.yaml" (PDict [("version", PInt 1)]))) world0.

Definition second_run : res unit * world * list event :=
  _publish (calm 1000) "liwanag-content-bucket" "activities" false "../content/units"
           (Some (one_activity_tree "a_1.yaml" (PDict [("version", PInt 1)])))
           (world_of first_run).

(** An Activity live record of the given version and time stamp, and a
    table that holds version 2 of it. *)
Definition sample_record (version updated_at : Z) : pydict :=
  activity_live_item "liwanag-content-bucket" "activities/u_1/e_1/a_1/v/manifest.json"
    (PStr "u_1") (PStr "e_1") (PStr "a_1") (PStr "a_1") (PStr "en-US") (PInt 0)
    version updated_at.

Definition sample_key : string * string := ("ACTIVITY#u_1#e_1#a_1", "LIVE").

Definition sample_world : world :=
  {| ddb := {[ sample_key := sample_record 2 1000 ]}; s3 := ∅; ticks := 0 |}.

(** A unit directory that holds its document and nothing else. *)
Definition lone_unit : dirlist := [("u_9.yaml", FFile (PDict [("title", PStr "Solo")]))].

(** A unit directory that holds its document and a regular file named
    [episodes]: it has no subdirectory at all. *)
Definition unit_with_episodes_file : dirlist :=
  [ ("u_9.yaml", FFile (PDict [("title", PStr "Solo")]));
    ("episodes", FFile PNone) ].

(** A manifest and the same fields inserted in the opposite order. *)
Definition manifest_forwards : pydict := manifest_of greetings_doc.
Definition manifest_backwards : pydict := rev (manifest_of greetings_doc).

(* ===================================================================== *)
(** ** The entry point                                                    *)
(* ===================================================================== *)

(** [s.lstrip(c)] and [s.strip(c)] for a single character [c]. *)
Fixpoint lstrip_char (c : ascii) (s : string) : string :=
  match s with
  | String c' s' => if Ascii.eqb c c' then lstrip_char c s' else s
  | EmptyString => EmptyString
  end.

Definition string_rev (s : string) : string :=
  string_of_list_ascii (rev (list_ascii_of_string s)).

Definition strip_char (c : ascii) (s : string) : string :=
  string_rev (lstrip_char c (string_rev (lstrip_char c s))).

Definition slash : ascii := ascii_of_nat 47.

(** [s.split("/")] *)
Fixpoint split_slash (s : string) (cur : string) : list string :=
  match s with
  | EmptyString => [string_rev cur]
  | String c s' =>
      if Ascii.eqb c slash then string_rev cur :: split_slash s' EmptyString
      else split_slash s' (String c cur)
  end.

(** [str(Path(s))] on a POSIX system: empty and [.] components go, one
    leading slash stays (exactly two stay two), nothing left is [.]. *)
Definition path_str (s : string) : string :=
  let parts :=
    List.filter (fun x => negb (String.eqb x EmptyString) && negb (String.eqb x "."))
                (split_slash s EmptyString) in
  let leading := (String.length s - String.length (lstrip_char slash s))%nat in
  let root := if (leading =? 0)%nat then EmptyString
              else if (leading =? 2)%nat then "//" else "/" in
  let text := root ++ join "/" parts in
  if String.eqb text EmptyString then "." else text.

(** What [argparse] hands to [main]. *)
Record cli_args : Type := CliArgs {
  args_root : string;
  args_prefix : string;
  args_dry_run : bool;
  args_profile : string
}.

(** The command line without any option. *)
Definition default_args : cli_args :=
  {| args_root := "../content/units"; args_prefix := "activities";
     args_dry_run := false; args_profile := "default" |}.

(** [os.environ.get(k)] and [os.environ.get(k, dflt)]. *)
Definition environ_get (environ : gmap string string) (k : string) : pyval :=
  match environ !! k with
  | Some v => PStr v
  | None => PNone
  end.

Definition environ_get_or (environ : gmap string string) (k dflt : string) : string :=
  match environ !! k with
  | Some v => v
  | None => dflt
  end.

(** [if not value: _die(msg)] *)
Definition require (value : pyval) (msg : string) : M unit :=
  if truthy value then ret tt else _die msg.

(** [main], from the parsed command line: [root] is what lies at
    [Path(args.root)]. The region, the table name and the profile choose
    the stores, which the world stands for. *)
Definition main (e : env) (environ : gmap string string) (args : cli_args)
    (root : option fsnode) : M unit :=
  let region := py_or (py_or (environ_get environ "AWS_REGION")
                             (environ_get environ "AWS_DEFAULT_REGION"))
                      (PStr "us-west-1") in
  let table := environ_get_or environ "CONTENT_TABLE" "ContentTable" in
  let bucket := environ_get_or environ "CONTENT_BUCKET" "liwanag-content-bucket" in
  require region "Set AWS_REGION" ;;;
  require (PStr table) "Set CONTENT_TABLE" ;;;
  require (PStr bucket) "Set CONTENT_BUCKET" ;;;
  _publish e bucket (strip_char slash (args_prefix args)) (args_dry_run args)
           (path_str (args_root args)) root.

(* ===================================================================== *)
(** ** Vocabulary of the further properties                               *)
(* ===================================================================== *)

(** The object [_s3_put_json] sends for a value. *)
Definition json_object (obj : pyval) : s3_object :=
  {| Body := json_dumps obj;
     ContentType := "application/json";
     CacheControl := "max-age=0,no-cache,no-store" |}.

(** The keys of live records: [LIVE] as sort key, one of the three entity
    prefixes in the partition key. *)
Definition is_live_key (k : string * string) : bool :=
  String.eqb (snd k) "LIVE" &&
  (starts_with "UNIT#" (fst k) || starts_with "EPISODE#" (fst k)
   || starts_with "ACTIVITY#" (fst k)).

(** Nothing is removed from either store, and nothing is touched outside
    the live keys of the table and the objects of the given bucket. *)
Definition only_adds (bucket : string) (w w' : world) : Prop :=
  (∀ k, is_Some (ddb w !! k) → is_Some (ddb w' !! k)) ∧
  (∀ k, is_Some (s3 w !! k) → is_Some (s3 w' !! k)) ∧
  (∀ k, is_live_key k = false → ddb w' !! k = ddb w !! k) ∧
  (∀ b key, b ≠ bucket → s3 w' !! (b, key) = s3 w !! (b, key)).

(** The id under which an activity is published: the id its document
    declares, or else the stem of its file (line 148). *)
Definition activity_id_of (file : string) (a_yaml : pydict) : pyval :=
  py_or (dict_get a_yaml "id" PNone) (PStr (stem file)).

(** The manifest of lines 70 to 80, from the coerced version and the
    number of questions. *)
Definition manifest_for (unit_id episode_id : pyval) (a_yaml : pydict) (version total : Z)
    : pydict :=
  [ ("unitId", unit_id);
    ("episodeId", episode_id);
    ("activityId", dict_get a_yaml "id" PNone);
    ("activityFqId",
     PStr (py_str unit_id ++ "/" ++ py_str episode_id ++ "/"
           ++ py_str (dict_get a_yaml "id" PNone)));
    ("title", dict_get a_yaml "title" (dict_get a_yaml "id" PNone));
    ("version", PInt version);
    ("locale", dict_get a_yaml "locale" (PStr "en-US"));
    ("total", PInt total);
    ("questions", dict_get a_yaml "questions" (PList [])) ].

(** The storage key of line 154. *)
Definition manifest_key (s3_prefix : string) (unit_id episode_id activity_id : pyval)
    (version : Z) (manifest : pydict) : string :=
  s3_prefix ++ "/" ++ py_str unit_id ++ "/" ++ py_str episode_id ++ "/"
  ++ py_str activity_id ++ "/v" ++ py_str (PInt version)
  ++ "/manifest-" ++ _sha256_short (PDict manifest) ++ ".json".

(** Every Activity live record of the table names, in [manifestS3Key], an
    object that the bucket holds. *)
Definition pointers_resolve (bucket : string) (w : world) : Prop :=
  ∀ k item,
    ddb w !! k = Some item →
    dict_lookup "entityType" item = Some (PStr "ACTIVITY_LIVE") →
    ∃ key,
      dict_lookup "manifestS3Key" item = Some (PStr ("s3://" ++ bucket ++ "/" ++ key)) ∧
      is_Some (s3 w !! (bucket, key)).

(** The last line of a run that went through (line 175). *)
Definition done_line : event := Stdout "[DONE] publish complete.".

(** A computation that never prints the last line of a run. *)
Definition quiet {A : Type} (m : M A) : Prop :=
  ∀ w, Forall (fun ev => ev ≠ done_line) (events_of (m w)).

(** A list of characters without its leading [c]s, and a text of [n]
    slashes. *)
Fixpoint drop_leading (c : ascii) (l : list ascii) : list ascii :=
  match l with
  | x :: l' => if Ascii.eqb c x then drop_leading c l' else l
  | [] => []
  end.

Definition slashes (n : nat) : string := string_of_list_ascii (repeat slash n).

(** The command line [args] with another [--prefix]. *)
Definition with_prefix (args : cli_args) (p : string) : cli_args :=
  {| args_root := args_root args; args_prefix := p;
     args_dry_run := args_dry_run args; args_profile := args_profile args |}.

(** The record under the key [k] is the same in both worlds. *)
Definition keeps_key (k : string * string) (w w' : world) : Prop :=
  ddb w' !! k = ddb w !! k.

(* ===================================================================== *)
(** ** Further sample content                                             *)
(* ===================================================================== *)

(** A unit whose only episode directory has no document. *)
Definition unit_with_missing_episode : dirlist :=
  [ ("u_1.yaml", FFile (PDict [("title", PStr "Intro")]));
    ("episodes", FDir [ ("e_1", FDir []) ]) ].

(** An episode whose only activity writes [version:] without a value. *)
Definition null_version_doc : pydict := [("version", PNone)].

Definition episode_with_null_version : dirlist :=
  [ ("e_1.yaml", FFile (PDict [("title", PStr "Basics")]));
    ("activities", FDir [ ("a_1.yaml", FFile (PDict null_version_doc)) ]) ].

(** A unit with an empty document and an empty episodes folder. *)
Definition unit_with_empty_document : dirlist :=
  [ ("u_1.yaml", FFile PNone); ("episodes", FDir []) ].

(** A root that holds no unit directory. *)
Definition root_without_units : dirlist :=
  [ ("README.md", FFile (PStr "notes")); ("drafts", FDir []) ].

(** Two unit directories, listed out of order. *)
Definition two_units : dirlist := [ ("u_2", FDir []); ("u_1", FDir []) ].

(** An outside where [CONTENT_TABLE] is set to the empty text. *)
Definition empty_table_environ : gmap string string := {[ "CONTENT_TABLE" := EmptyString ]}.

(* ===================================================================== *)
(** ** The digest on the standard test messages                           *)
(* ===================================================================== *)

Example sha256_of_abc :
  SHA256.hexdigest "abc"
  = "ba7816bf8f01cfea414140de5dae2223b00361a396177a9cb410ff61f20015ad".
Proof. vm_compute. reflexivity. Qed.

Example sha256_of_nothing :
  SHA256.hexdigest EmptyString
  = "e3b0c44298fc1c149afbf4c8996fb92427ae41e4649b934ca495991b7852b855".
Proof. vm_compute. reflexivity. Qed.

Example sha256_of_two_blocks :
  SHA256.hexdigest "abcdbcdecdefdefgefghfghighijhijkijkljklmklmnlmnomnopnopq"
  = "248d6a61d20638b8e5c026930c3e6039a33ce45964ff2167f6ecedd419db06c1".
Proof. vm_compute. reflexivity. Qed.

(* ===================================================================== *)
(** ** Running a computation                                              *)
(* ===================================================================== *)

Lemma bind_run {A B : Type} (m : M A) (f : A → M B) (w : world) :
  bind m f w =
  match m w with
  | (Ret a, w1, ev1) => (result_of (f a w1), world_of (f a w1), (ev1 ++ events_of (f a w1))%list)
  | (Exit c, w1, ev1) => (Exit c, w1, ev1)
  | (Raise x, w1, ev1) => (Raise x, w1, ev1)
  end.
Proof.
  unfold bind, result_of, world_of, events_of.
  destruct (m w) as [[[a|c|x] w1] ev1]; try reflexivity.
  destruct (f a w1) as [[r w2] ev2]. reflexivity.
Qed.

Lemma bind_ret_l {A B : Type} (a : A) (f : A → M B) (w : world) :
  bind (ret a) f w = f a w.
Proof. unfold bind, ret. destruct (f a w) as [[r w2] ev2]. reflexivity. Qed.

Lemma bind_ret_run {A B : Type} (m : M A) (f : A → M B) (w w1 : world) (a : A) (ev1 : list event) :
  m w = (Ret a, w1, ev1) →
  bind m f w = (result_of (f a w1), world_of (f a w1), (ev1 ++ events_of (f a w1))%list).
Proof. intros H. rewrite bind_run, H. reflexivity. Qed.

Lemma bind_exit_run {A B : Type} (m : M A) (f : A → M B) (w w1 : world) (c : Z) (ev1 : list event) :
  m w = (Exit c, w1, ev1) → bind m f w = (Exit c, w1, ev1).
Proof. intros H. rewrite bind_run, H. reflexivity. Qed.

Lemma bind_raise_run {A B : Type} (m : M A) (f : A → M B) (w w1 : world) (x : exn) (ev1 : list event) :
  m w = (Raise x, w1, ev1) → bind m f w = (Raise x, w1, ev1).
Proof. intros H. rewrite bind_run, H. reflexivity. Qed.

Lemma item_key_lookups (item : pydict) (pk sk : string) :
  item_key item = Some (pk, sk) →
  dict_lookup "PK" item = Some (PStr pk) ∧ dict_lookup "SK" item = Some (PStr sk).
Proof.
  unfold item_key. intros H.
  destruct (dict_lookup "PK" item) as [[| | |p| |]|]; try discriminate.
  destruct (dict_lookup "SK" item) as [[| | |q| |]|]; try discriminate.
  injection H as -> ->. split; reflexivity.
Qed.

(* ===================================================================== *)
(** ** The guarded put of an Activity live record                         *)
(* ===================================================================== *)

Section GuardedPut.
Variable e : env.
Variable item : pydict.
Variables pk sk : string.
Variable newv : Z.
Variable w : world.
Hypothesis Hkey : item_key item = Some (pk, sk).
Hypothesis Hver : dict_lookup "version" item = Some (PInt newv).

Let kwargs : put_item_args := {| Item := item; Newv := Some (PInt newv) |}.
Let written : world :=
  {| ddb := <[(pk, sk) := item]> (ddb w); s3 := s3 w; ticks := S (ticks w) |}.

Lemma put_live_written :
  fault e (ticks w) = None →
  condition_holds (ddb w !! (pk, sk)) (PInt newv) = true →
  _ddb_put_live e item true false w
  = (Ret tt, written, [CallPutItem kwargs; Stdout ("[OK ] DDB PUT " ++ pk ++ " " ++ sk)]).
Proof using Hkey Hver.
  intros Hf Hc. destruct (item_key_lookups _ _ _ Hkey) as [Hpk Hsk].
  unfold _ddb_put_live, try_client_error, bind, put_item, getitem, print, ret. simpl.
  rewrite Hver, Hf. simpl. rewrite Hkey, Hc, Hpk, Hsk. reflexivity.
Qed.

Lemma put_live_skipped :
  fault e (ticks w) = None →
  condition_holds (ddb w !! (pk, sk)) (PInt newv) = false →
  _ddb_put_live e item true false w
  = (Ret tt, tick w,
     [CallPutItem kwargs; Stdout ("[SKIP] Newer/equal version exists for " ++ pk ++ " " ++ sk)]).
Proof using Hkey Hver.
  intros Hf Hc. destruct (item_key_lookups _ _ _ Hkey) as [Hpk Hsk].
  unfold _ddb_put_live, try_client_error, bind, put_item, getitem, print, ret. simpl.
  rewrite Hver, Hf. simpl. rewrite Hkey, Hc. simpl. rewrite Hpk, Hsk. reflexivity.
Qed.

Lemma put_live_failed (x : exn) :
  fault e (ticks w) = Some x →
  x ≠ ClientError "ConditionalCheckFailedException" →
  _ddb_put_live e item true false w = (Raise x, tick w, [CallPutItem kwargs]).
Proof using Hver.
  intros Hf Hx.
  unfold _ddb_put_live, try_client_error, bind, put_item, raise. simpl.
  rewrite Hver, Hf. destruct x as [code|cls]; [|reflexivity].
  destruct (String.eqb_spec code "ConditionalCheckFailedException") as [->|Hne].
  - congruence.
  - reflexivity.
Qed.
End GuardedPut.

Lemma condition_holds_spec (existing : option pydict) (newv : Z) :
  (∀ old, existing = Some old → ∃ v, dict_lookup "version" old = Some (PInt v)) →
  condition_holds existing (PInt newv) = true ↔
  (existing = None ∨
   ∃ old v, existing = Some old ∧ dict_lookup "version" old = Some (PInt v) ∧ v ≤ newv).
Proof.
  intros Hwf. unfold condition_holds. destruct existing as [old|].
  - destruct (Hwf old eq_refl) as [v Hv]. rewrite Hv. simpl. split.
    + intros Hle. right. exists old, v. repeat split; [assumption | lia].
    + intros [Hnone | (old' & v' & Hold & Hv' & Hle)]; [discriminate|].
      injection Hold as <-. rewrite Hv in Hv'. injection Hv' as <-. lia.
  - split; [intros _; left; reflexivity | reflexivity].
Qed.

(** C1. A guarded write of an Activity live record (an item with an integer
    version) over a table whose record at that key, if any, carries an
    integer version: when the store call does not fail on its own, the put
    goes through exactly when no record exists at the key or the existing
    version is at most the new one; when it does not go through,
    [_ddb_put_live] returns normally after a SKIP line and leaves the table
    as it was; any other failure of the store call is raised, and whatever
    follows in the run is not executed. *)
Theorem guarded_put_live_outcome
    (e : env) (item : pydict) (pk sk : string) (newv : Z) (w : world) :
  item_key item = Some (pk, sk) →
  dict_lookup "version" item = Some (PInt newv) →
  (∀ old, ddb w !! (pk, sk) = Some old → ∃ v, dict_lookup "version" old = Some (PInt v)) →
  let kwargs := {| Item := item; Newv := Some (PInt newv) |} in
  let may_write :=
    ddb w !! (pk, sk) = None ∨
    ∃ old v, ddb w !! (pk, sk) = Some old ∧ dict_lookup "version" old = Some (PInt v) ∧ v ≤ newv in
  let written := {| ddb := <[(pk, sk) := item]> (ddb w); s3 := s3 w; ticks := S (ticks w) |} in
  (fault e (ticks w) = None →
     (result_of (put_item e kwargs w) = Ret tt ↔ may_write) ∧
     (may_write →
        _ddb_put_live e item true false w
        = (Ret tt, written, [CallPutItem kwargs; Stdout ("[OK ] DDB PUT " ++ pk ++ " " ++ sk)])) ∧
     (¬ may_write →
        _ddb_put_live e item true false w
        = (Ret tt, tick w,
           [CallPutItem kwargs;
            Stdout ("[SKIP] Newer/equal version exists for " ++ pk ++ " " ++ sk)]))) ∧
  (∀ x, fault e (ticks w) = Some x →
        x ≠ ClientError "ConditionalCheckFailedException" →
        _ddb_put_live e item true false w = (Raise x, tick w, [CallPutItem kwargs]) ∧
        ∀ rest : M unit,
          (_ddb_put_live e item true false ;;; rest) w = (Raise x, tick w, [CallPutItem kwargs])).
Proof.
  intros Hkey Hver Hwf kwargs may_write written.
  pose proof (condition_holds_spec (ddb w !! (pk, sk)) newv Hwf) as Hspec.
  fold may_write in Hspec. split.
  - intros Hf. split; [|split].
    + unfold put_item, result_of. rewrite Hf. simpl. rewrite Hkey.
      destruct (condition_holds (ddb w !! (pk, sk)) (PInt newv)) eqn:Hc; simpl.
      * split; [intros _; apply Hspec; reflexivity | reflexivity].
      * split; [discriminate|]. intros Hm. apply Hspec in Hm. discriminate.
    + intros Hm. apply Hspec in Hm. apply put_live_written; assumption.
    + intros Hm. apply put_live_skipped; try assumption.
      destruct (condition_holds (ddb w !! (pk, sk)) (PInt newv)) eqn:Hc; [|reflexivity].
      exfalso. apply Hm, Hspec. reflexivity.
  - intros x Hf Hx.
    pose proof (put_live_failed e item newv w Hver x Hf Hx) as Hrun.
    split; [exact Hrun|]. intros rest. apply bind_raise_run. exact Hrun.
Qed.

(* ===================================================================== *)
(** ** Properties kept by a whole run                                     *)
(* ===================================================================== *)

Section RunSpec.
Context {Q : world → ending → world → list event → Prop}.
Hypothesis Q_ret : ∀ w, Q w Returned w [].
Hypothesis Q_raise : ∀ w x, Q w (Raised x) w [].
Hypothesis Q_seq : ∀ w1 w2 w3 ev1 ev2 k,
  Q w1 Returned w2 ev1 → Q w2 k w3 ev2 → Q w1 k w3 (ev1 ++ ev2)%list.
Hypothesis Q_tick : ∀ w, Q w Returned (tick w) [].
Hypothesis Q_print : ∀ w line, Q w Returned w [Stdout line].
Hypothesis Q_die : ∀ w msg, Q w (Exited 1) w [Stderr ("[ERROR] " ++ msg)].

Lemma spec_ret {A : Type} (a : A) : run_spec Q (ret a).
Proof using Q_ret. intros w. apply Q_ret. Qed.

Lemma spec_raise {A : Type} (x : exn) : run_spec Q (@raise A x).
Proof using Q_raise. intros w. apply Q_raise. Qed.

Lemma spec_lift {A : Type} (r : exn + A) : run_spec Q (lift r).
Proof using Q_ret Q_raise. destruct r; [apply spec_raise | apply spec_ret]. Qed.

Lemma spec_print (line : string) : run_spec Q (print line).
Proof using Q_print. intros w. apply Q_print. Qed.

Lemma spec_die {A : Type} (msg : string) : run_spec Q (@_die A msg).
Proof using Q_die. intros w. apply Q_die. Qed.

Lemma spec_time (e : env) : run_spec Q (time_now e).
Proof using Q_tick. intros w. apply Q_tick. Qed.

Lemma spec_getitem (d : pydict) (k : string) : run_spec Q (getitem d k).
Proof using Q_ret Q_raise.
  unfold getitem. destruct (dict_lookup k d); [apply spec_ret | apply spec_raise].
Qed.

Lemma spec_bind {A B : Type} (m : M A) (f : A → M B) :
  run_spec Q m → (∀ a, run_spec Q (f a)) → run_spec Q (bind m f).
Proof using Q_seq.
  intros Hm Hf w. specialize (Hm w). rewrite bind_run.
  unfold world_of, events_of, result_of in *.
  destruct (m w) as [[[a|c|x] w1] ev1]; simpl in *; try assumption.
  eapply Q_seq; [exact Hm | apply Hf].
Qed.

Lemma spec_for_each {A : Type} (l : list A) (body : A → M unit) :
  (∀ x, run_spec Q (body x)) → run_spec Q (for_each l body).
Proof using Q_ret Q_seq.
  intros Hb. induction l as [|x l IH]; simpl.
  - apply spec_ret.
  - apply spec_bind; [apply Hb | intros _; exact IH].
Qed.

Lemma spec_iterdir (x : fsnode) : run_spec Q (iterdir x).
Proof using Q_ret Q_raise. destruct x; [apply spec_raise | apply spec_ret]. Qed.

Lemma spec_load_yaml (f : fsnode) : run_spec Q (_load_yaml f).
Proof using Q_ret Q_raise.
  destruct f as [v|es]; simpl; [|apply spec_raise].
  destruct (py_or v (PDict [])); first [apply spec_raise | apply spec_ret].
Qed.

Lemma spec_discover_unit (parent : dirlist) (name : string) (dir : dirlist) :
  run_spec Q (_discover_unit_yaml parent name dir).
Proof using Q_ret Q_die.
  unfold _discover_unit_yaml.
  destruct (child (name ++ ".yaml") dir); [apply spec_ret|].
  destruct (child (name ++ ".yaml") parent); [apply spec_ret | apply spec_die].
Qed.

Lemma spec_discover_episode (path name : string) (dir : dirlist) :
  run_spec Q (_discover_episode_yaml path name dir).
Proof using Q_ret Q_die.
  unfold _discover_episode_yaml.
  destruct (child (name ++ ".yaml") dir); [apply spec_ret | apply spec_die].
Qed.

Lemma spec_build_manifest (unit_id episode_id : pyval) (a_yaml : pydict) :
  run_spec Q (_build_manifest unit_id episode_id a_yaml).
Proof using Q_ret Q_raise Q_seq.
  unfold _build_manifest.
  apply spec_bind; [apply spec_lift | intros version].
  apply spec_bind; [apply spec_lift | intros total]. apply spec_ret.
Qed.

(** The activity step keeps what its two store writes keep. *)
Section Activity.
Variable e : env.
Variables bucket s3_prefix : string.
Variable dry : bool.
Hypothesis H_s3 : ∀ key obj, run_spec Q (_s3_put_json e bucket key obj dry).
Hypothesis H_activity : ∀ key unit_id episode_id activity_id title locale total version t,
  run_spec Q (_ddb_put_live e
    (activity_live_item bucket key unit_id episode_id activity_id title locale total version t)
    true dry).

Lemma spec_publish_activity (unit_id episode_id : pyval) (a_path : string * fsnode) :
  run_spec Q (publish_activity e bucket s3_prefix dry unit_id episode_id a_path).
Proof using All.
  unfold publish_activity.
  apply spec_bind; [apply spec_load_yaml | intros a_yaml].
  apply spec_bind; [apply spec_lift | intros version].
  apply spec_bind; [apply spec_build_manifest | intros manifest].
  apply spec_bind; [apply spec_getitem | intros mversion].
  apply spec_bind; [apply H_s3 | intros _].
  apply spec_bind; [apply spec_getitem | intros total].
  apply spec_bind; [apply spec_time | intros t].
  apply H_activity.
Qed.
End Activity.

(** The run keeps what the activity step and the writes of the Unit and
    Episode live records keep. *)
Section Tree.
Variable e : env.
Variables bucket s3_prefix : string.
Variable dry : bool.
Hypothesis H_unit : ∀ unit_id title content names t,
  run_spec Q (_ddb_put_live e (unit_live_item unit_id title content names t) false dry).
Hypothesis H_episode : ∀ unit_id episode_id title stems t,
  run_spec Q (_ddb_put_live e (episode_live_item unit_id episode_id title stems t) false dry).
Hypothesis H_step : ∀ unit_id episode_id a_path,
  run_spec Q (publish_activity e bucket s3_prefix dry unit_id episode_id a_path).

Lemma spec_publish_episode (path : string) (unit_id : pyval) (ep_dir : string * fsnode) :
  run_spec Q (publish_episode e bucket s3_prefix dry path unit_id ep_dir).
Proof using All.
  unfold publish_episode.
  apply spec_bind; [apply spec_discover_episode | intros doc].
  apply spec_bind; [apply spec_load_yaml | intros ep_yaml].
  apply spec_bind; [apply spec_time | intros t].
  apply spec_bind; [apply H_episode | intros _].
  apply spec_for_each. intros a. apply H_step.
Qed.

Lemma spec_publish_unit (root_path : string) (root : dirlist) (unit_dir : string * fsnode) :
  run_spec Q (publish_unit e bucket s3_prefix dry root_path root unit_dir).
Proof using All.
  unfold publish_unit.
  apply spec_bind; [apply spec_discover_unit | intros doc].
  apply spec_bind; [apply spec_load_yaml | intros unit_yaml].
  apply spec_bind.
  { destruct (child "episodes" (entries_of unit_dir.2)); [|apply spec_ret].
    apply spec_bind; [apply spec_iterdir | intros es; apply spec_ret]. }
  intros ep_dirs.
  apply spec_bind; [apply spec_time | intros t].
  apply spec_bind; [apply H_unit | intros _].
  destruct (child "episodes" (entries_of unit_dir.2)); [|apply spec_print].
  apply spec_bind; [apply spec_iterdir | intros es].
  apply spec_for_each. intros ep. apply spec_publish_episode.
Qed.

Lemma spec_publish_tree (root_path : string) (root : option fsnode) :
  run_spec Q (_publish e bucket s3_prefix dry root_path root).
Proof using All.
  unfold _publish. destruct root as [d|]; [|apply spec_die].
  apply spec_bind; [apply spec_iterdir | intros es].
  apply spec_bind; [|intros _; apply spec_print].
  apply spec_for_each. intros u. apply spec_publish_unit.
Qed.
End Tree.

(** The run keeps what its four kinds of store writes keep. *)
Lemma spec_publish (e : env) (bucket s3_prefix : string) (dry : bool) :
  (∀ key obj, run_spec Q (_s3_put_json e bucket key obj dry)) →
  (∀ unit_id title content names t,
     run_spec Q (_ddb_put_live e (unit_live_item unit_id title content names t) false dry)) →
  (∀ unit_id episode_id title stems t,
     run_spec Q (_ddb_put_live e (episode_live_item unit_id episode_id title stems t)
                   false dry)) →
  (∀ key unit_id episode_id activity_id title locale total version t,
     run_spec Q (_ddb_put_live e
       (activity_live_item bucket key unit_id episode_id activity_id title locale total
          version t) true dry)) →
  ∀ (root_path : string) (root : option fsnode),
    run_spec Q (_publish e bucket s3_prefix dry root_path root).
Proof using All.
  intros H_s3 H_unit H_episode H_activity root_path root.
  apply spec_publish_tree; try assumption.
  intros unit_id episode_id a_path. apply spec_publish_activity; assumption.
Qed.
End RunSpec.

(** The case of a relation between the worlds before and after together
    with a property of every event. *)
Section RunInvariant.
Context {R : world → world → Prop} {P : event → Prop}.
Hypothesis R_refl : ∀ w, R w w.
Hypothesis R_trans : ∀ w1 w2 w3, R w1 w2 → R w2 w3 → R w1 w3.
Hypothesis R_tick : ∀ w, R w (tick w).
Hypothesis P_stdout : ∀ line, P (Stdout line).
Hypothesis P_stderr : ∀ line, P (Stderr line).
Variable e : env.
Variables bucket s3_prefix : string.
Variable dry : bool.
Hypothesis H_s3 : ∀ key obj, run_inv R P (_s3_put_json e bucket key obj dry).
Hypothesis H_unit : ∀ unit_id title content names t,
  run_inv R P (_ddb_put_live e (unit_live_item unit_id title content names t) false dry).
Hypothesis H_episode : ∀ unit_id episode_id title stems t,
  run_inv R P (_ddb_put_live e (episode_live_item unit_id episode_id title stems t) false dry).
Hypothesis H_activity : ∀ key unit_id episode_id activity_id title locale total version t,
  run_inv R P (_ddb_put_live e
    (activity_live_item bucket key unit_id episode_id activity_id title locale total version t)
    true dry).

Lemma inv_publish (root_path : string) (root : option fsnode) :
  run_inv R P (_publish e bucket s3_prefix dry root_path root).
Proof using All.
  intros w.
  apply (@spec_publish (fun w _ w' ev => R w w' ∧ Forall P ev)).
  - intros w0. split; [apply R_refl | constructor].
  - intros w0 x. split; [apply R_refl | constructor].
  - intros w1 w2 w3 ev1 ev2 k [HR1 HP1] [HR2 HP2]. split.
    + eapply R_trans; eassumption.
    + apply Forall_app. split; assumption.
  - intros w0. split; [apply R_tick | constructor].
  - intros w0 line. split; [apply R_refl | repeat constructor; apply P_stdout].
  - intros w0 msg. split; [apply R_refl | repeat constructor; apply P_stderr].
  - intros key obj w0. apply H_s3.
  - intros unit_id title content names t w0. apply H_unit.
  - intros unit_id episode_id title stems t w0. apply H_episode.
  - intros key unit_id episode_id activity_id title locale total version t w0. apply H_activity.
Qed.
End RunInvariant.

(* ===================================================================== *)
(** ** What one call of a store client does to the stores                 *)
(* ===================================================================== *)

Lemma put_live_effect (e : env) (item : pydict) (guard_version dry : bool) (w : world) :
  let w' := world_of (_ddb_put_live e item guard_version dry w) in
  s3 w' = s3 w ∧
  (ddb w' = ddb w ∨
   dry = false ∧
   ∃ k, item_key item = Some k ∧ ddb w' = <[k := item]> (ddb w) ∧
        (guard_version = true → ∀ newv, dict_lookup "version" item = Some newv →
           condition_holds (ddb w !! k) newv = true)).
Proof.
  unfold _ddb_put_live, try_client_error, bind, put_item, getitem, print, ret, raise, world_of.
  destruct dry; simpl.
  - destruct (dict_lookup "PK" item); simpl; [|auto].
    destruct (dict_lookup "SK" item); simpl; auto.
  - destruct (fault e (ticks w)) as [[code|cls]|]; simpl.
    + destruct (String.eqb code "ConditionalCheckFailedException"); simpl; [|auto].
      destruct (dict_lookup "PK" item); simpl; [|auto].
      destruct (dict_lookup "SK" item); simpl; auto.
    + auto.
    + destruct (item_key item) as [k|] eqn:Hk; simpl; [|auto].
      destruct guard_version; simpl.
      * destruct (dict_lookup "version" item) as [newv|] eqn:Hv; simpl.
        -- destruct (condition_holds (ddb w !! k) newv) eqn:Hc; simpl.
           ++ destruct (dict_lookup "PK" item); simpl;
                [destruct (dict_lookup "SK" item); simpl|];
                (split; [reflexivity|]; right; split; [reflexivity|];
                 exists k; repeat split; try reflexivity;
                 intros _ newv' Hn; injection Hn as <-; exact Hc).
           ++ destruct (dict_lookup "PK" item); simpl; [|auto].
              destruct (dict_lookup "SK" item); simpl; auto.
        -- destruct (dict_lookup "PK" item); simpl;
             [destruct (dict_lookup "SK" item); simpl|];
             (split; [reflexivity|]; right; split; [reflexivity|];
              exists k; repeat split; try reflexivity; intros _ newv' Hn; discriminate).
      * destruct (dict_lookup "PK" item); simpl;
          [destruct (dict_lookup "SK" item); simpl|];
          (split; [reflexivity|]; right; split; [reflexivity|];
           exists k; repeat split; try reflexivity; intros Hg; discriminate).
Qed.

Lemma s3_put_effect (e : env) (bucket key : string) (obj : pyval) (dry : bool) (w : world) :
  let w' := world_of (_s3_put_json e bucket key obj dry w) in
  ddb w' = ddb w ∧ (dry = true → s3 w' = s3 w).
Proof.
  unfold _s3_put_json, bind, put_object, print, world_of.
  destruct dry; simpl; [auto|].
  destruct (fault e (ticks w)); simpl; split; auto; discriminate.
Qed.

(* ===================================================================== *)
(** ** The live version of an Activity never goes down                    *)
(* ===================================================================== *)

Lemma version_mono_refl (w : world) : version_mono w w.
Proof. intros pk sk v _ Hv. exists v. split; [exact Hv | lia]. Qed.

Lemma version_mono_trans (w1 w2 w3 : world) :
  version_mono w1 w2 → version_mono w2 w3 → version_mono w1 w3.
Proof.
  intros H12 H23 pk sk v Hpk Hv.
  destruct (H12 pk sk v Hpk Hv) as (v2 & Hv2 & Hle2).
  destruct (H23 pk sk v2 Hpk Hv2) as (v3 & Hv3 & Hle3).
  exists v3. split; [exact Hv3 | lia].
Qed.

Lemma version_mono_same (w w' : world) : ddb w' = ddb w → version_mono w w'.
Proof. intros Heq pk sk v _ Hv. rewrite Heq. exists v. split; [exact Hv | lia]. Qed.

Lemma version_mono_tick (w : world) : version_mono w (tick w).
Proof. apply version_mono_same. reflexivity. Qed.

(** A write under a key that is not an Activity key. *)
Lemma version_mono_other_key (w w' : world) (pk sk : string) (item : pydict) :
  is_activity_pk pk = false → ddb w' = <[(pk, sk) := item]> (ddb w) → version_mono w w'.
Proof.
  intros Hpk Heq pk' sk' v Hact Hv. rewrite Heq. exists v. split; [|lia].
  unfold live_version in *. rewrite lookup_insert_ne; [exact Hv|].
  intros [= -> ->]. congruence.
Qed.

(** A guarded write of an item with an integer version. *)
Lemma version_mono_guarded (w w' : world) (k : string * string) (item : pydict) (newv : Z) :
  dict_lookup "version" item = Some (PInt newv) →
  condition_holds (ddb w !! k) (PInt newv) = true →
  ddb w' = <[k := item]> (ddb w) → version_mono w w'.
Proof.
  intros Hitem Hcond Heq pk sk v _ Hv. rewrite Heq. unfold live_version in *.
  destruct (decide (k = (pk, sk))) as [->|Hne].
  - rewrite lookup_insert_eq. exists newv. split; [exact Hitem|].
    unfold condition_holds in Hcond.
    destruct (ddb w !! (pk, sk)) as [old|]; [|discriminate].
    rewrite Hv in Hcond. simpl in Hcond. lia.
  - rewrite lookup_insert_ne by exact Hne. exists v. split; [exact Hv | lia].
Qed.

Lemma version_mono_publish (e : env) (bucket s3_prefix : string) (dry : bool)
    (root_path : string) (root : option fsnode) :
  run_inv version_mono (fun _ => True) (_publish e bucket s3_prefix dry root_path root).
Proof.
  assert (Hev : ∀ l : list event, Forall (fun _ => True) l).
  { intros l. apply Forall_forall. auto. }
  apply (inv_publish version_mono_refl version_mono_trans version_mono_tick
           (fun _ => I) (fun _ => I)).
  - intros key obj w. split; [|apply Hev].
    apply version_mono_same. apply s3_put_effect.
  - intros unit_id title content names t w. split; [|apply Hev].
    destruct (put_live_effect e (unit_live_item unit_id title content names t) false dry w)
      as [_ [Hsame | (_ & k & Hk & Hins & _)]].
    + apply version_mono_same. exact Hsame.
    + injection Hk as <-. eapply version_mono_other_key; [|exact Hins]. reflexivity.
  - intros unit_id episode_id title stems t w. split; [|apply Hev].
    destruct (put_live_effect e (episode_live_item unit_id episode_id title stems t) false dry w)
      as [_ [Hsame | (_ & k & Hk & Hins & _)]].
    + apply version_mono_same. exact Hsame.
    + injection Hk as <-. eapply version_mono_other_key; [|exact Hins]. reflexivity.
  - intros key unit_id episode_id activity_id title locale total version t w.
    split; [|apply Hev].
    destruct (put_live_effect e
                (activity_live_item bucket key unit_id episode_id activity_id title locale
                   total version t) true dry w)
      as [_ [Hsame | (_ & k & Hk & Hins & Hcond)]].
    + apply version_mono_same. exact Hsame.
    + eapply version_mono_guarded; cycle 2.
      * exact Hins.
      * reflexivity.
      * apply Hcond; reflexivity.
Qed.

Lemma version_mono_attempts (l : list attempt) (w : world) :
  version_mono w (run_attempts l w).
Proof.
  revert w. induction l as [|a l IH]; intros w; simpl.
  - apply version_mono_refl.
  - eapply version_mono_trans; [|apply IH].
    unfold run_attempt. apply version_mono_publish.
Qed.

(** C2. Across any sequence of publish attempts (any trees, real or dry,
    with or without store failures), the integer version stored under an
    Activity key never goes down; and publishing versions 2 and 1 of one
    Activity, in either order, leaves version 2 live. *)
Theorem live_version_monotone :
  (∀ (l : list attempt) (w : world) (pk sk : string) (v : Z),
     is_activity_pk pk = true →
     live_version (ddb w) (pk, sk) = Some (PInt v) →
     ∃ v', live_version (ddb (run_attempts l w)) (pk, sk) = Some (PInt v') ∧ v ≤ v') ∧
  live_version (ddb (run_attempts [publish_version 100 2; publish_version 200 1] world0))
               ("ACTIVITY#u_1#e_1#a_1", "LIVE") = Some (PInt 2) ∧
  live_version (ddb (run_attempts [publish_version 100 1; publish_version 200 2] world0))
               ("ACTIVITY#u_1#e_1#a_1", "LIVE") = Some (PInt 2).
Proof.
  split; [|split].
  - intros l w pk sk v Hpk Hv. exact (version_mono_attempts l w pk sk v Hpk Hv).
  - vm_compute. reflexivity.
  - vm_compute. reflexivity.
Qed.

(** A run keeps the table such that every record under an Activity key
    carries an integer version: this is what the guarded put finds there. *)
Lemma publish_keeps_records_versioned (e : env) (bucket s3_prefix : string) (dry : bool)
    (root_path : string) (root : option fsnode) (w : world) :
  activity_records_versioned w →
  activity_records_versioned (world_of (_publish e bucket s3_prefix dry root_path root w)).
Proof.
  set (R := fun w w' : world => activity_records_versioned w → activity_records_versioned w').
  assert (Hsame : ∀ w1 w2, ddb w2 = ddb w1 → R w1 w2).
  { intros w1 w2 Heq Hinv pk sk old Hpk Hold. rewrite Heq in Hold. eauto. }
  assert (Hput : ∀ item g w0,
             (∀ pk sk, item_key item = Some (pk, sk) → is_activity_pk pk = true →
                       ∃ v, dict_lookup "version" item = Some (PInt v)) →
             R w0 (world_of (_ddb_put_live e item g dry w0))).
  { intros item g w0 Hitem.
    destruct (put_live_effect e item g dry w0) as [_ [Heq | (_ & [pk sk] & Hk & Hins & _)]].
    - apply Hsame, Heq.
    - intros Hinv pk' sk' old Hpk Hold. rewrite Hins in Hold.
      destruct (decide ((pk, sk) = (pk', sk'))) as [[= <- <-]|Hne].
      + rewrite lookup_insert_eq in Hold. injection Hold as <-. eauto.
      + rewrite lookup_insert_ne in Hold by exact Hne. eauto. }
  assert (Hev : ∀ l : list event, Forall (fun _ => True) l).
  { intros l. apply Forall_forall. auto. }
  apply (@inv_publish R (fun _ => True)).
  - intros w0 H. exact H.
  - intros w1 w2 w3 H12 H23 H. auto.
  - intros w0. apply Hsame. reflexivity.
  - intros; exact I.
  - intros; exact I.
  - intros key obj w0. split; [|apply Hev]. apply Hsame, s3_put_effect.
  - intros unit_id title content names t w0. split; [|apply Hev].
    apply Hput. intros pk sk [= <- <-] Hpk. discriminate.
  - intros unit_id episode_id title stems t w0. split; [|apply Hev].
    apply Hput. intros pk sk [= <- <-] Hpk. discriminate.
  - intros key unit_id episode_id activity_id title locale total version t w0.
    split; [|apply Hev]. apply Hput. intros pk sk _ _. exists version. reflexivity.
Qed.

(* ===================================================================== *)
(** ** Dry runs                                                           *)
(* ===================================================================== *)

Lemma dry_s3_put (e : env) (bucket key : string) (obj : pyval) (w : world) :
  _s3_put_json e bucket key obj true w
  = (Ret tt, w,
     [Stdout ("[DRY] S3 PUT s3://" ++ bucket ++ "/" ++ key ++ " ("
              ++ string_of_Z (byte_length (json_dumps obj)) ++ " bytes)")]).
Proof. reflexivity. Qed.

Lemma dry_put_live (e : env) (item : pydict) (guard_version : bool) (pk sk : pyval) (w : world) :
  dict_lookup "PK" item = Some pk →
  dict_lookup "SK" item = Some sk →
  _ddb_put_live e item guard_version true w
  = (Ret tt, w,
     [Stdout ("[DRY] DDB PUT " ++ py_str pk ++ " " ++ py_str sk ++ " -> "
              ++ json_dumps (PDict item))]).
Proof.
  intros Hpk Hsk. unfold _ddb_put_live, bind, getitem, print, ret.
  rewrite Hpk, Hsk. reflexivity.
Qed.

Lemma dry_put_live_quiet (e : env) (item : pydict) (guard_version : bool) :
  run_inv stores_untouched (fun ev => is_store_call ev = false)
          (_ddb_put_live e item guard_version true).
Proof.
  intros w. unfold _ddb_put_live, bind, getitem, print, ret, raise, world_of, events_of,
    stores_untouched.
  destruct (dict_lookup "PK" item); simpl; [|auto].
  destruct (dict_lookup "SK" item); simpl; auto.
Qed.

Lemma dry_publish_quiet (e : env) (bucket s3_prefix root_path : string) (root : option fsnode) :
  run_inv stores_untouched (fun ev => is_store_call ev = false)
          (_publish e bucket s3_prefix true root_path root).
Proof.
  apply inv_publish.
  - intros w. split; reflexivity.
  - intros w1 w2 w3 [Hd1 Hs1] [Hd2 Hs2]. split; congruence.
  - intros w. split; reflexivity.
  - reflexivity.
  - reflexivity.
  - intros key obj w. rewrite dry_s3_put. repeat split. repeat constructor.
  - intros. apply dry_put_live_quiet.
  - intros. apply dry_put_live_quiet.
  - intros. apply dry_put_live_quiet.
Qed.

(** C8. With [dry] on, [_s3_put_json] only prints the target key and the
    size of the payload, [_ddb_put_live] only prints the key and the record
    (the same line whatever the table holds and whether or not the version
    guard is asked for, so the condition is never evaluated), and a whole
    run of [_publish] leaves both stores as they were and makes no call to
    either. *)
Theorem dry_run_makes_no_store_call :
  (∀ (e : env) (bucket key : string) (obj : pyval) (w : world),
     _s3_put_json e bucket key obj true w
     = (Ret tt, w,
        [Stdout ("[DRY] S3 PUT s3://" ++ bucket ++ "/" ++ key ++ " ("
                 ++ string_of_Z (byte_length (json_dumps obj)) ++ " bytes)")])) ∧
  (∀ (e : env) (item : pydict) (guard_version : bool) (pk sk : pyval) (w : world),
     dict_lookup "PK" item = Some pk →
     dict_lookup "SK" item = Some sk →
     _ddb_put_live e item guard_version true w
     = (Ret tt, w,
        [Stdout ("[DRY] DDB PUT " ++ py_str pk ++ " " ++ py_str sk ++ " -> "
                 ++ json_dumps (PDict item))])) ∧
  (∀ (e : env) (item : pydict) (guard_version : bool) (w : world),
     stores_untouched w (world_of (_ddb_put_live e item guard_version true w)) ∧
     Forall (fun ev => is_store_call ev = false)
            (events_of (_ddb_put_live e item guard_version true w))) ∧
  (∀ (e : env) (bucket s3_prefix root_path : string) (root : option fsnode) (w : world),
     stores_untouched w (world_of (_publish e bucket s3_prefix true root_path root w)) ∧
     Forall (fun ev => is_store_call ev = false)
            (events_of (_publish e bucket s3_prefix true root_path root w))).
Proof.
  split; [|split; [|split]].
  - exact dry_s3_put.
  - exact dry_put_live.
  - intros e item g w. apply dry_put_live_quiet.
  - intros e bucket s3_prefix root_path root w. apply dry_publish_quiet.
Qed.

(* ===================================================================== *)
(** ** Exits                                                              *)
(* ===================================================================== *)

Lemma exits_cleanly_silent (k : ending) (ev : list event) :
  (∀ c, k ≠ Exited c) → Forall (fun x => is_stderr x = false) ev → exits_cleanly k ev.
Proof.
  intros Hk Hev. split.
  - intros line Hin. rewrite List.Forall_forall in Hev. apply Hev in Hin. discriminate.
  - intros c Hc. destruct (Hk c Hc).
Qed.

Lemma exits_cleanly_seq (k : ending) (ev1 ev2 : list event) :
  exits_cleanly Returned ev1 → exits_cleanly k ev2 → exits_cleanly k (ev1 ++ ev2).
Proof.
  intros [H1 _] [H2 H2']. split.
  - intros line Hin. apply in_app_or in Hin as [Hin|Hin].
    + destruct (H1 line Hin) as [Hk _]. discriminate.
    + destruct (H2 line Hin) as [Hk [ev0 ->]]. split; [exact Hk|].
      exists (ev1 ++ ev0)%list. rewrite <- app_assoc. reflexivity.
  - intros c Hc. destruct (H2' c Hc) as [-> (ev0 & line & ->)]. split; [reflexivity|].
    exists (ev1 ++ ev0)%list, line. rewrite <- app_assoc. reflexivity.
Qed.

Lemma put_live_no_exit (e : env) (item : pydict) (guard_version dry : bool) (w : world) :
  (∀ c, ending_of (result_of (_ddb_put_live e item guard_version dry w)) ≠ Exited c) ∧
  Forall (fun x => is_stderr x = false) (events_of (_ddb_put_live e item guard_version dry w)).
Proof.
  unfold _ddb_put_live, try_client_error, bind, put_item, getitem, print, ret, raise,
    result_of, events_of.
  repeat (case_match; simpl in *; simplify_eq); split; try discriminate;
    repeat constructor.
Qed.

Lemma s3_put_no_exit (e : env) (bucket key : string) (obj : pyval) (dry : bool) (w : world) :
  (∀ c, ending_of (result_of (_s3_put_json e bucket key obj dry w)) ≠ Exited c) ∧
  Forall (fun x => is_stderr x = false) (events_of (_s3_put_json e bucket key obj dry w)).
Proof.
  unfold _s3_put_json, bind, put_object, print, result_of, events_of.
  repeat (case_match; simpl in *; simplify_eq); split; try discriminate;
    repeat constructor.
Qed.

Lemma publish_exits_cleanly (e : env) (bucket s3_prefix : string) (dry : bool)
    (root_path : string) (root : option fsnode) :
  run_spec (fun _ k _ ev => exits_cleanly k ev) (_publish e bucket s3_prefix dry root_path root).
Proof.
  apply (@spec_publish (fun _ k _ ev => exits_cleanly k ev)).
  - intros _. apply exits_cleanly_silent; [discriminate | constructor].
  - intros _ x. apply exits_cleanly_silent; [discriminate | constructor].
  - intros _ _ _ ev1 ev2 k. apply exits_cleanly_seq.
  - intros _. apply exits_cleanly_silent; [discriminate | constructor].
  - intros _ line. apply exits_cleanly_silent; [discriminate | repeat constructor].
  - intros _ msg. split.
    + intros line [<-|[]]. split; [reflexivity | exists []; reflexivity].
    + intros c [= <-]. split; [reflexivity|]. exists [], ("[ERROR] " ++ msg). reflexivity.
  - intros key obj w. apply exits_cleanly_silent; apply s3_put_no_exit.
  - intros. intros w. apply exits_cleanly_silent; apply put_live_no_exit.
  - intros. intros w. apply exits_cleanly_silent; apply put_live_no_exit.
  - intros. intros w. apply exits_cleanly_silent; apply put_live_no_exit.
Qed.

Lemma for_each_app_run {A : Type} (body : A → M unit) (pre post : list A) (w w1 : world)
    (ev1 : list event) :
  for_each pre body w = (Ret tt, w1, ev1) →
  for_each (pre ++ post) body w
  = (result_of (for_each post body w1), world_of (for_each post body w1),
     (ev1 ++ events_of (for_each post body w1))%list).
Proof.
  revert w w1 ev1. induction pre as [|x pre IH]; intros w w1 ev1 Hpre; simpl in *.
  - unfold ret in Hpre. injection Hpre as <- <-.
    unfold result_of, world_of, events_of. simpl.
    destruct (for_each post body w) as [[r w2] ev2]. reflexivity.
  - rewrite bind_run in Hpre. rewrite bind_run.
    destruct (body x w) as [[[[]|c|y] w0] ev0]; try discriminate.
    injection Hpre as Hr Hw Hev.
    destruct (for_each pre body w0) as [[r' w'] ev'] eqn:Hrun.
    unfold result_of, world_of, events_of in Hr, Hw, Hev. simpl in Hr, Hw, Hev. subst.
    rewrite (IH w0 w1 ev' Hrun).
    unfold result_of, world_of, events_of. simpl. rewrite app_assoc. reflexivity.
Qed.

Lemma for_each_stops {A : Type} (body : A → M unit) (pre post : list A) (x : A)
    (w w1 w2 : world) (ev1 ev2 : list event) (c : Z) :
  for_each pre body w = (Ret tt, w1, ev1) →
  body x w1 = (Exit c, w2, ev2) →
  for_each (pre ++ x :: post) body w = (Exit c, w2, (ev1 ++ ev2)%list).
Proof.
  intros Hpre Hx. rewrite (for_each_app_run _ _ _ _ _ _ Hpre). simpl.
  rewrite (bind_exit_run _ _ _ _ _ _ Hx). reflexivity.
Qed.

(* ===================================================================== *)
(** ** Two runs side by side                                              *)
(* ===================================================================== *)

Lemma put_calls_app (ev1 ev2 : list event) :
  put_calls (ev1 ++ ev2) = (put_calls ev1 ++ put_calls ev2)%list.
Proof.
  induction ev1 as [|[line|line|kw|b k o] ev1 IH]; simpl; try assumption; [reflexivity|].
  rewrite IH. reflexivity.
Qed.

Lemma steady_ret {A : Type} (a : A) : steady (ret a).
Proof. exists (Ret a), []. split; reflexivity. Qed.

Lemma steady_raise {A : Type} (x : exn) : steady (@raise A x).
Proof. exists (Raise x), []. split; reflexivity. Qed.

Lemma steady_lift {A : Type} (r : exn + A) : steady (lift r).
Proof. destruct r; [apply steady_raise | apply steady_ret]. Qed.

Lemma steady_print (line : string) : steady (print line).
Proof. exists (Ret tt), [Stdout line]. split; reflexivity. Qed.

Lemma steady_die {A : Type} (msg : string) : steady (@_die A msg).
Proof. exists (Exit 1), [Stderr ("[ERROR] " ++ msg)]. split; reflexivity. Qed.

Lemma steady_getitem (d : pydict) (k : string) : steady (getitem d k).
Proof. unfold getitem. destruct (dict_lookup k d); [apply steady_ret | apply steady_raise]. Qed.

Lemma steady_bind {A B : Type} (m : M A) (f : A → M B) :
  steady m → (∀ a, steady (f a)) → steady (bind m f).
Proof.
  intros (r & ev & Hev & Hm) Hf. destruct r as [a|c|x].
  - destruct (Hf a) as (r' & ev' & Hev' & Hfa).
    exists r', (ev ++ ev')%list. split.
    + rewrite put_calls_app, Hev, Hev'. reflexivity.
    + intros w. rewrite (bind_ret_run _ _ _ _ _ _ (Hm w)), Hfa. reflexivity.
  - exists (Exit c), ev. split; [exact Hev|]. intros w. apply bind_exit_run, Hm.
  - exists (Raise x), ev. split; [exact Hev|]. intros w. apply bind_raise_run, Hm.
Qed.

Lemma steady_iterdir (x : fsnode) : steady (iterdir x).
Proof. destruct x; [apply steady_raise | apply steady_ret]. Qed.

Lemma steady_load_yaml (f : fsnode) : steady (_load_yaml f).
Proof.
  destruct f as [v|es]; simpl; [|apply steady_raise].
  destruct (py_or v (PDict [])); first [apply steady_raise | apply steady_ret].
Qed.

Lemma steady_discover_unit (parent : dirlist) (name : string) (dir : dirlist) :
  steady (_discover_unit_yaml parent name dir).
Proof.
  unfold _discover_unit_yaml.
  destruct (child (name ++ ".yaml") dir); [apply steady_ret|].
  destruct (child (name ++ ".yaml") parent); [apply steady_ret | apply steady_die].
Qed.

Lemma steady_discover_episode (path name : string) (dir : dirlist) :
  steady (_discover_episode_yaml path name dir).
Proof.
  unfold _discover_episode_yaml.
  destruct (child (name ++ ".yaml") dir); [apply steady_ret | apply steady_die].
Qed.

Lemma steady_build_manifest (unit_id episode_id : pyval) (a_yaml : pydict) :
  steady (_build_manifest unit_id episode_id a_yaml).
Proof.
  unfold _build_manifest.
  apply steady_bind; [apply steady_lift | intros version].
  apply steady_bind; [apply steady_lift | intros total]. apply steady_ret.
Qed.

Lemma same_faults_tick (e1 e2 : env) (w1 w2 : world) :
  same_faults e1 e2 w1 w2 → same_faults e1 e2 (tick w1) (tick w2).
Proof.
  intros H n. specialize (H (S n)). simpl.
  replace (S (ticks w1 + n))%nat with (ticks w1 + S n)%nat by lia.
  replace (S (ticks w2 + n))%nat with (ticks w2 + S n)%nat by lia. exact H.
Qed.

Lemma same_faults_now (e1 e2 : env) (w1 w2 : world) :
  same_faults e1 e2 w1 w2 → fault e1 (ticks w1) = fault e2 (ticks w2).
Proof.
  intros H. specialize (H 0%nat). rewrite !Nat.add_0_r in H. exact H.
Qed.

Section RunRel.
Variables e1 e2 : env.

Lemma rel_steady {A : Type} (m : M A) : steady m → run_rel e1 e2 m m.
Proof.
  intros (r & ev & Hev & Hm) w1 w2 Hf. rewrite !Hm.
  unfold result_of, world_of, events_of. simpl. auto.
Qed.

Lemma rel_bind {A B : Type} (m1 m2 : M A) (f1 f2 : A → M B) :
  run_rel e1 e2 m1 m2 → (∀ a, run_rel e1 e2 (f1 a) (f2 a)) →
  run_rel e1 e2 (bind m1 f1) (bind m2 f2).
Proof.
  intros Hm Hf w1 w2 Hw. destruct (Hm w1 w2 Hw) as (Hr & Hw' & Hev).
  rewrite !bind_run. unfold result_of, world_of, events_of in *.
  destruct (m1 w1) as [[r1 w1'] ev1], (m2 w2) as [[r2 w2'] ev2]. simpl in *. subst r2.
  destruct r1 as [a|c|x]; simpl; auto.
  destruct (Hf a w1' w2' Hw') as (Hr2 & Hw2 & Hev2).
  unfold result_of, world_of, events_of in *.
  repeat split; try assumption.
  rewrite !put_calls_app, !map_app, Hev, Hev2. reflexivity.
Qed.

Lemma rel_time {B : Type} (f1 f2 : Z → M B) :
  (∀ t1 t2, run_rel e1 e2 (f1 t1) (f2 t2)) →
  run_rel e1 e2 (bind (time_now e1) f1) (bind (time_now e2) f2).
Proof.
  intros Hf w1 w2 Hw. rewrite !bind_run. unfold time_now. simpl.
  destruct (Hf (now e1 (ticks w1)) (now e2 (ticks w2)) (tick w1) (tick w2)
               (same_faults_tick _ _ _ _ Hw)) as (Hr & Hw' & Hev).
  auto.
Qed.

Lemma rel_for_each {A : Type} (l : list A) (body1 body2 : A → M unit) :
  (∀ x, run_rel e1 e2 (body1 x) (body2 x)) →
  run_rel e1 e2 (for_each l body1) (for_each l body2).
Proof.
  intros Hb. induction l as [|x l IH]; simpl.
  - apply rel_steady, steady_ret.
  - apply rel_bind; [apply Hb | intros _; exact IH].
Qed.

Lemma rel_s3_put (bucket key : string) (obj : pyval) (dry : bool) :
  run_rel e1 e2 (_s3_put_json e1 bucket key obj dry) (_s3_put_json e2 bucket key obj dry).
Proof.
  intros w1 w2 Hw. pose proof (same_faults_now _ _ _ _ Hw) as Hnow.
  pose proof (same_faults_tick _ _ _ _ Hw) as Htick.
  unfold _s3_put_json, bind, put_object, print, result_of, world_of, events_of.
  destruct dry; simpl; [auto|].
  rewrite Hnow. destruct (fault e2 (ticks w2)); simpl; auto.
Qed.
End RunRel.

Lemma strip_time_lookup (k : string) (item : pydict) :
  k ≠ "updatedAt" → dict_lookup k (strip_time item) = dict_lookup k item.
Proof.
  intros Hk. induction item as [|[k' v] item IH]; simpl; [reflexivity|].
  destruct (String.eqb_spec k' "updatedAt") as [->|Hne]; simpl.
  - destruct (String.eqb_spec k "updatedAt") as [->|_]; [congruence | exact IH].
  - rewrite IH. reflexivity.
Qed.

Lemma strip_time_item_key (item : pydict) : item_key (strip_time item) = item_key item.
Proof.
  unfold item_key. rewrite !strip_time_lookup by discriminate. reflexivity.
Qed.

Lemma same_faults_step (e1 e2 : env) (w1 w2 w1' w2' : world) :
  ticks w1' = S (ticks w1) → ticks w2' = S (ticks w2) →
  same_faults e1 e2 w1 w2 → same_faults e1 e2 w1' w2'.
Proof.
  intros H1 H2 H n. unfold same_faults in *. rewrite H1, H2. apply (same_faults_tick _ _ _ _ H).
Qed.

Section RunRelPublish.
Variables e1 e2 : env.

Lemma rel_put_live (item1 item2 : pydict) (guard_version dry : bool) :
  strip_time item1 = strip_time item2 →
  run_rel e1 e2 (_ddb_put_live e1 item1 guard_version dry)
                (_ddb_put_live e2 item2 guard_version dry).
Proof.
  intros Hs w1 w2 Hw.
  pose proof (same_faults_now _ _ _ _ Hw) as Hnow.
  assert (Hl : ∀ k, k ≠ "updatedAt" → dict_lookup k item1 = dict_lookup k item2).
  { intros k Hk. rewrite <- (strip_time_lookup k item1 Hk), Hs. apply strip_time_lookup, Hk. }
  assert (Hkey : item_key item1 = item_key item2).
  { rewrite <- (strip_time_item_key item1), Hs. apply strip_time_item_key. }
  pose proof (Hl "PK" ltac:(discriminate)) as Hpk.
  pose proof (Hl "SK" ltac:(discriminate)) as Hsk.
  pose proof (Hl "version" ltac:(discriminate)) as Hver.
  destruct dry.
  - unfold _ddb_put_live, bind, getitem, print, ret, raise, result_of, world_of, events_of.
    rewrite Hpk, Hsk.
    destruct (dict_lookup "PK" item2); simpl; [|auto].
    destruct (dict_lookup "SK" item2); simpl; auto.
  - unfold _ddb_put_live, try_client_error, bind, put_item, getitem, print, ret, raise,
      result_of, world_of, events_of. simpl.
    rewrite Hnow, Hkey, Hpk, Hsk, Hver.
    assert (Hargs : ∀ n, strip_args {| Item := item1; Newv := n |}
                         = strip_args {| Item := item2; Newv := n |}).
    { intros n. unfold strip_args. simpl. rewrite Hs. reflexivity. }
    destruct (fault e2 (ticks w2)) as [[code|cls]|]; simpl.
    + destruct (String.eqb code "ConditionalCheckFailedException"); simpl.
      * destruct (dict_lookup "PK" item2); simpl;
          [destruct (dict_lookup "SK" item2); simpl|];
          (repeat split; [eapply same_faults_step; [| |exact Hw]; reflexivity
                         | rewrite Hargs; reflexivity]).
      * repeat split; [eapply same_faults_step; [| |exact Hw]; reflexivity
                      | rewrite Hargs; reflexivity].
    + repeat split; [eapply same_faults_step; [| |exact Hw]; reflexivity
                    | rewrite Hargs; reflexivity].
    + destruct (item_key item2) as [k|] eqn:Hk; simpl.
      * unfold item_key in Hk.
        destruct (dict_lookup "PK" item2) as [[| | |pk| |]|]; try discriminate.
        destruct (dict_lookup "SK" item2) as [[| | |sk| |]|]; try discriminate.
        destruct guard_version; simpl;
          [destruct (dict_lookup "version" item2); simpl|];
          repeat (destruct (condition_holds _ _); simpl);
          (repeat split; [eapply same_faults_step; [| |exact Hw]; reflexivity
                         | rewrite Hargs; reflexivity]).
      * repeat split; [eapply same_faults_step; [| |exact Hw]; reflexivity
                      | rewrite Hargs; reflexivity].
Qed.

Section Publish.
Variables bucket s3_prefix : string.
Variable dry : bool.

Lemma rel_publish_activity (unit_id episode_id : pyval) (a_path : string * fsnode) :
  run_rel e1 e2 (publish_activity e1 bucket s3_prefix dry unit_id episode_id a_path)
                (publish_activity e2 bucket s3_prefix dry unit_id episode_id a_path).
Proof.
  unfold publish_activity.
  apply rel_bind; [apply rel_steady, steady_load_yaml | intros a_yaml].
  apply rel_bind; [apply rel_steady, steady_lift | intros version].
  apply rel_bind; [apply rel_steady, steady_build_manifest | intros manifest].
  apply rel_bind; [apply rel_steady, steady_getitem | intros mversion].
  apply rel_bind; [apply rel_s3_put | intros _].
  apply rel_bind; [apply rel_steady, steady_getitem | intros total].
  apply rel_time. intros t1 t2. apply rel_put_live. reflexivity.
Qed.

Lemma rel_publish_episode (path : string) (unit_id : pyval) (ep_dir : string * fsnode) :
  run_rel e1 e2 (publish_episode e1 bucket s3_prefix dry path unit_id ep_dir)
                (publish_episode e2 bucket s3_prefix dry path unit_id ep_dir).
Proof.
  unfold publish_episode.
  apply rel_bind; [apply rel_steady, steady_discover_episode | intros doc].
  apply rel_bind; [apply rel_steady, steady_load_yaml | intros ep_yaml].
  apply rel_time. intros t1 t2.
  apply rel_bind; [apply rel_put_live; reflexivity | intros _].
  apply rel_for_each. intros a. apply rel_publish_activity.
Qed.

Lemma rel_publish_unit (root_path : string) (root : dirlist) (unit_dir : string * fsnode) :
  run_rel e1 e2 (publish_unit e1 bucket s3_prefix dry root_path root unit_dir)
                (publish_unit e2 bucket s3_prefix dry root_path root unit_dir).
Proof.
  unfold publish_unit.
  apply rel_bind; [apply rel_steady, steady_discover_unit | intros doc].
  apply rel_bind; [apply rel_steady, steady_load_yaml | intros unit_yaml].
  apply rel_bind.
  { apply rel_steady. destruct (child "episodes" (entries_of unit_dir.2)); [|apply steady_ret].
    apply steady_bind; [apply steady_iterdir | intros es; apply steady_ret]. }
  intros ep_dirs.
  apply rel_time. intros t1 t2.
  apply rel_bind; [apply rel_put_live; reflexivity | intros _].
  destruct (child "episodes" (entries_of unit_dir.2)); [|apply rel_steady, steady_print].
  apply rel_bind; [apply rel_steady, steady_iterdir | intros es].
  apply rel_for_each. intros ep. apply rel_publish_episode.
Qed.

Lemma rel_publish (root_path : string) (root : option fsnode) :
  run_rel e1 e2 (_publish e1 bucket s3_prefix dry root_path root)
                (_publish e2 bucket s3_prefix dry root_path root).
Proof.
  unfold _publish. destruct root as [d|]; [|apply rel_steady, steady_die].
  apply rel_bind; [apply rel_steady, steady_iterdir | intros es].
  apply rel_bind; [|intros _; apply rel_steady, steady_print].
  apply rel_for_each. intros u. apply rel_publish_unit.
Qed.
End Publish.
End RunRelPublish.

(* ===================================================================== *)
(** ** Missing documents                                                  *)
(* ===================================================================== *)

Lemma same_faults_same_env (e : env) (w1 w2 : world) :
  ticks w1 = ticks w2 → same_faults e e w1 w2.
Proof. intros H n. rewrite H. reflexivity. Qed.

(** C9. A unit whose document is neither in its directory nor beside it,
    and an episode whose document is not in its directory, end the run on
    the spot: the one diagnostic on the error stream, exit code 1, the
    stores as they were when the unit or episode was reached, nothing run
    after it. In any run a line on the error stream is the last event and
    comes with exit code 1. What the stores hold, and so whether a guarded
    write is skipped, does not change the exit status of a run. *)
Theorem missing_document_aborts_run :
  (∀ (e : env) (bucket s3_prefix : string) (dry : bool) (root_path : string)
     (root : dirlist) (name : string) (dir : dirlist) (w : world),
     child (name ++ ".yaml") dir = None →
     child (name ++ ".yaml") root = None →
     publish_unit e bucket s3_prefix dry root_path root (name, FDir dir) w
     = (Exit 1, w, [Stderr ("[ERROR] Unit YAML not found for " ++ name)])) ∧
  (∀ (e : env) (bucket s3_prefix : string) (dry : bool) (path : string)
     (unit_id : pyval) (name : string) (dir : dirlist) (w : world),
     child (name ++ ".yaml") dir = None →
     publish_episode e bucket s3_prefix dry path unit_id (name, FDir dir) w
     = (Exit 1, w,
        [Stderr ("[ERROR] Episode YAML not found: "
                 ++ path_child (path_child path name) (name ++ ".yaml"))])) ∧
  (∀ (A : Type) (body : A → M unit) (pre post : list A) (x : A)
     (w w1 w2 : world) (ev1 ev2 : list event) (c : Z),
     for_each pre body w = (Ret tt, w1, ev1) →
     body x w1 = (Exit c, w2, ev2) →
     for_each (pre ++ x :: post) body w = (Exit c, w2, (ev1 ++ ev2)%list)) ∧
  (∀ (e : env) (bucket s3_prefix : string) (dry : bool) (root_path : string)
     (root : option fsnode) (w : world),
     let run := _publish e bucket s3_prefix dry root_path root w in
     (∀ line, In (Stderr line) (events_of run) →
        exit_status (result_of run) = 1 ∧ ∃ ev0, events_of run = (ev0 ++ [Stderr line])%list) ∧
     (∀ c, result_of run = Exit c → c = 1)) ∧
  (∀ (e : env) (bucket s3_prefix : string) (dry : bool) (root_path : string)
     (root : option fsnode) (w1 w2 : world),
     ticks w1 = ticks w2 →
     exit_status (result_of (_publish e bucket s3_prefix dry root_path root w1))
     = exit_status (result_of (_publish e bucket s3_prefix dry root_path root w2))).
Proof.
  split; [|split; [|split; [|split]]].
  - intros e bucket s3_prefix dry root_path root name dir w Hin Hsib.
    unfold publish_unit. apply bind_exit_run. unfold _discover_unit_yaml. simpl.
    rewrite Hin, Hsib. reflexivity.
  - intros e bucket s3_prefix dry path unit_id name dir w Hin.
    unfold publish_episode. apply bind_exit_run. unfold _discover_episode_yaml. simpl.
    rewrite Hin. reflexivity.
  - intros A body pre post x w w1 w2 ev1 ev2 c. apply for_each_stops.
  - intros e bucket s3_prefix dry root_path root w run.
    destruct (publish_exits_cleanly e bucket s3_prefix dry root_path root w) as [Herr Hexit].
    fold run in Herr, Hexit. split.
    + intros line Hin. destruct (Herr line Hin) as [Hk Hlast]. split; [|exact Hlast].
      destruct (result_of run); simpl in *; congruence.
    + intros c Hc. rewrite Hc in Hexit. destruct (Hexit c eq_refl) as [-> _]. reflexivity.
  - intros e bucket s3_prefix dry root_path root w1 w2 Hticks.
    destruct (rel_publish e e bucket s3_prefix dry root_path root w1 w2
                (same_faults_same_env e w1 w2 Hticks)) as [-> _].
    reflexivity.
Qed.

(* ===================================================================== *)
(** ** A unit without an episodes folder                                  *)
(* ===================================================================== *)

(** C7. A unit directory without an [episodes] entry, whose document is
    found and is a mapping: a real run writes the Unit live record with
    both episode id lists empty, prints the warning, ends the step
    normally, and the loop goes on with the units that follow. *)
Theorem unit_without_episodes_is_published
    (e : env) (bucket s3_prefix root_path : string) (root : dirlist)
    (name : string) (dir : dirlist) (v : pyval) (unit_yaml : pydict)
    (rest : dirlist) (w : world) :
  child "episodes" dir = None →
  _discover_unit_yaml root name dir = ret (FFile v) →
  py_or v (PDict []) = PDict unit_yaml →
  fault e (S (ticks w)) = None →
  let unit_id := py_or (dict_get unit_yaml "id" PNone) (PStr name) in
  let item :=
    unit_live_item unit_id (dict_get unit_yaml "title" unit_id)
      (dict_get unit_yaml "content" (PStr EmptyString)) [] (now e (ticks w)) in
  let w1 :=
    {| ddb := <[("UNIT#" ++ py_str unit_id, "LIVE") := item]> (ddb w);
       s3 := s3 w; ticks := S (S (ticks w)) |} in
  let ev1 :=
    [CallPutItem {| Item := item; Newv := None |};
     Stdout ("[OK ] DDB PUT UNIT#" ++ py_str unit_id ++ " LIVE");
     Stdout ("[WARN] No episodes folder for unit " ++ py_str unit_id)] in
  let body := publish_unit e bucket s3_prefix false root_path root in
  dict_lookup "episodeIds" item = Some (PList []) ∧
  dict_lookup "episodeFqIds" item = Some (PList []) ∧
  body (name, FDir dir) w = (Ret tt, w1, ev1) ∧
  for_each ((name, FDir dir) :: rest) body w
  = (result_of (for_each rest body w1), world_of (for_each rest body w1),
     (ev1 ++ events_of (for_each rest body w1))%list).
Proof.
  intros Hno Hdoc Hmap Hfault unit_id item w1 ev1 body.
  assert (Hrun : body (name, FDir dir) w = (Ret tt, w1, ev1)).
  { unfold body, publish_unit. simpl. rewrite Hdoc, Hno, bind_ret_l.
    simpl. rewrite Hmap, bind_ret_l.
    unfold _ddb_put_live, try_client_error, bind, put_item, time_now, getitem, print, ret.
    simpl. rewrite Hfault. reflexivity. }
  split; [reflexivity|]. split; [reflexivity|]. split; [exact Hrun|].
  change (for_each ((name, FDir dir) :: rest) body)
    with (body (name, FDir dir) ;;; for_each rest body).
  apply (bind_ret_run _ (fun _ => for_each rest body) _ _ _ _ Hrun).
Qed.

(** C7 as stated fails: a unit directory whose [episodes] entry is a
    regular file has no subdirectory at all, so no episode container, yet
    the step for it stops with [NotADirectoryError] when the entry is
    listed, before the Unit live record is written: no store call, no
    warning, nothing in the table, and the run over the root ends with the
    exception. *)
Lemma episodes_file_counterexample :
  Forall (fun x => is_dir (snd x) = false) unit_with_episodes_file ∧
  child "episodes" unit_with_episodes_file = Some (FFile PNone) ∧
  publish_unit (calm 0) "liwanag-content-bucket" "activities" false "../content/units"
               [("u_9", FDir unit_with_episodes_file)]
               ("u_9", FDir unit_with_episodes_file) world0
  = (Raise (PyError "NotADirectoryError"), world0, []) ∧
  _publish (calm 0) "liwanag-content-bucket" "activities" false "../content/units"
           (Some (FDir [("u_9", FDir unit_with_episodes_file)])) world0
  = (Raise (PyError "NotADirectoryError"), world0, []) ∧
  ddb world0 !! ("UNIT#u_9", "LIVE") = None.
Proof.
  split; [repeat constructor|]. split; [reflexivity|].
  split; [reflexivity|]. split; [reflexivity|]. apply lookup_empty.
Qed.

(* ===================================================================== *)
(** ** Episode ids listed by the unit and the key of the episode          *)
(* ===================================================================== *)

Arguments _ddb_put_live : simpl never.
Arguments _s3_put_json : simpl never.


Lemma put_live_first_event (e : env) (item : pydict) (guard_version : bool) (w : world) :
  ∃ r w' ev,
    _ddb_put_live e item guard_version false w
    = (r, w',
       CallPutItem {| Item := item;
                      Newv := if guard_version then dict_lookup "version" item else None |}
       :: ev).
Proof.
  unfold _ddb_put_live, try_client_error, bind, put_item, getitem, print, ret, raise.
  repeat (case_match; simpl in *; simplify_eq); eauto.
Qed.

Lemma bind_first_event {A B : Type} (m : M A) (f : A → M B) (w w1 : world)
    (r : res A) (x : event) (ev1 : list event) :
  m w = (r, w1, x :: ev1) → ∃ r' w' ev', bind m f w = (r', w', x :: ev').
Proof.
  intros Hm. rewrite bind_run, Hm. destruct r; simpl; eauto.
Qed.

Lemma bind_time_run {B : Type} (e : env) (f : Z → M B) (w : world) :
  bind (time_now e) f w = f (now e (ticks w)) (tick w).
Proof. unfold bind, time_now. destruct (f _ _) as [[r w2] ev2]. reflexivity. Qed.

Lemma put_live_then_first_event {B : Type} (e : env) (item : pydict) (guard_version : bool)
    (f : unit → M B) (w : world) :
  ∃ r w' ev,
    bind (_ddb_put_live e item guard_version false) f w
    = (r, w',
       CallPutItem {| Item := item;
                      Newv := if guard_version then dict_lookup "version" item else None |}
       :: ev).
Proof.
  destruct (put_live_first_event e item guard_version w) as (r & w' & ev & Hput).
  eapply bind_first_event. exact Hput.
Qed.


(* ===================================================================== *)
(** ** Defaults of an Activity document                                   *)
(* ===================================================================== *)

(** C6. For the activity file [a_2.yaml] that declares only a version, the
    Activity live record takes the defaults (id and title [a_2], locale
    [en-US], no questions), but the manifest stored for it has no activity
    id and no title: [activityId] and [title] are [None] and the
    fully-qualified id ends in the text [None]. *)
Theorem bare_activity_manifest_lacks_id_and_title :
  (∃ item,
     ddb (world_of bare_run) !! ("ACTIVITY#u_1#e_1#a_2", "LIVE") = Some item ∧
     dict_lookup "activityId" item = Some (PStr "a_2") ∧
     dict_lookup "title" item = Some (PStr "a_2") ∧
     dict_lookup "version" item = Some (PInt 3) ∧
     dict_lookup "locale" item = Some (PStr "en-US") ∧
     dict_lookup "totalQuestions" item = Some (PInt 0)) ∧
  _build_manifest (PStr "u_1") (PStr "e_1") bare_activity world0
  = (Ret bare_manifest, world0, []) ∧
  s3 (world_of bare_run)
    !! ("liwanag-content-bucket",
        "activities/u_1/e_1/a_2/v3/manifest-" ++ _sha256_short (PDict bare_manifest) ++ ".json")
  = Some {| Body := json_dumps (PDict bare_manifest);
            ContentType := "application/json";
            CacheControl := "max-age=0,no-cache,no-store" |} ∧
  dict_lookup "activityId" bare_manifest = Some PNone ∧
  dict_lookup "title" bare_manifest = Some PNone ∧
  dict_lookup "activityFqId" bare_manifest = Some (PStr "u_1/e_1/None").
Proof.
  split; [|split; [|split]].
  - eexists. split; [vm_compute; reflexivity|]. repeat split.
  - reflexivity.
  - vm_compute. reflexivity.
  - repeat split.
Qed.

(* ===================================================================== *)
(** ** Fully-qualified ids                                                *)
(* ===================================================================== *)

Arguments json_dumps : simpl never.
Arguments json_dumps_canonical : simpl never.
Arguments _sha256_short : simpl never.

Lemma spec_bind_ret {Q : world → ending → world → list event → Prop} {A B : Type}
    (m : M A) (f : A → M B) :
  (∀ w1 w2 w3 ev1 ev2 k,
     Q w1 Returned w2 ev1 → Q w2 k w3 ev2 → Q w1 k w3 (ev1 ++ ev2)%list) →
  run_spec Q m →
  (∀ a, (∃ w, result_of (m w) = Ret a) → run_spec Q (f a)) →
  run_spec Q (bind m f).
Proof.
  intros Q_seq Hm Hf w. specialize (Hm w). rewrite bind_run.
  assert (Hex : ∀ a, result_of (m w) = Ret a → ∃ w0, result_of (m w0) = Ret a) by eauto.
  unfold world_of, events_of, result_of in *.
  destruct (m w) as [[[a|c|x] w1] ev1]; simpl in *; try assumption.
  eapply Q_seq; [exact Hm | apply Hf, Hex; reflexivity].
Qed.

Lemma build_manifest_cases (unit_id episode_id : pyval) (a_yaml : pydict) :
  (∃ x, ∀ w, _build_manifest unit_id episode_id a_yaml w = (Raise x, w, [])) ∨
  (∃ version total,
     py_int (dict_get a_yaml "version" (PInt 1)) = inr version ∧
     py_len (dict_get a_yaml "questions" (PList [])) = inr total ∧
     ∀ w, _build_manifest unit_id episode_id a_yaml w
          = (Ret [ ("unitId", unit_id);
                   ("episodeId", episode_id);
                   ("activityId", dict_get a_yaml "id" PNone);
                   ("activityFqId",
                    PStr (py_str unit_id ++ "/" ++ py_str episode_id ++ "/"
                          ++ py_str (dict_get a_yaml "id" PNone)));
                   ("title", dict_get a_yaml "title" (dict_get a_yaml "id" PNone));
                   ("version", PInt version);
                   ("locale", dict_get a_yaml "locale" (PStr "en-US"));
                   ("total", PInt total);
                   ("questions", dict_get a_yaml "questions" (PList [])) ], w, [])).
Proof.
  unfold _build_manifest.
  destruct (py_int (dict_get a_yaml "version" (PInt 1))) as [x|version] eqn:Hv.
  - left. exists x. reflexivity.
  - destruct (py_len (dict_get a_yaml "questions" (PList []))) as [x|total] eqn:Ht.
    + left. exists x. reflexivity.
    + right. exists version, total. repeat split.
Qed.

Lemma put_live_events (e : env) (item : pydict) (guard_version dry : bool) (w : world) :
  Forall (fun ev => match ev with
                    | CallPutItem kw => Item kw = item
                    | CallPutObject _ _ _ => False
                    | _ => True
                    end)
         (events_of (_ddb_put_live e item guard_version dry w)).
Proof.
  unfold _ddb_put_live, try_client_error, bind, put_item, getitem, print, ret, raise, events_of.
  repeat (case_match; simpl in *; simplify_eq); repeat constructor.
Qed.

Lemma s3_put_events (e : env) (bucket key : string) (obj : pyval) (dry : bool) (w : world) :
  Forall (fun ev => match ev with
                    | CallPutItem _ => False
                    | CallPutObject _ _ o => Body o = json_dumps obj
                    | _ => True
                    end)
         (events_of (_s3_put_json e bucket key obj dry w)).
Proof.
  unfold _s3_put_json, bind, put_object, print, events_of.
  repeat (case_match; simpl in *; simplify_eq); repeat constructor.
Qed.

Lemma fqids_of_publish (e : env) (bucket s3_prefix : string) (dry : bool)
    (root_path : string) (root : option fsnode) (w : world) :
  Forall activity_ids_composed (events_of (_publish e bucket s3_prefix dry root_path root w)).
Proof.
  set (Q := fun (_ : world) (_ : ending) (_ : world) (ev : list event) =>
              Forall activity_ids_composed ev).
  assert (Q_seq : ∀ w1 w2 w3 ev1 ev2 k,
             Q w1 Returned w2 ev1 → Q w2 k w3 ev2 → Q w1 k w3 (ev1 ++ ev2)%list).
  { intros. apply Forall_app. split; assumption. }
  assert (Hnil : ∀ w1 k w2, Q w1 k w2 []) by (intros; constructor).
  assert (Hlive : ∀ item g, dict_lookup "entityType" item ≠ Some (PStr "ACTIVITY_LIVE") →
                            run_spec Q (_ddb_put_live e item g dry)).
  { intros item g Hne w0. unfold Q. eapply List.Forall_impl; [|apply put_live_events].
    intros [line|line|kw|b k o]; simpl; try tauto. intros -> Hty. contradiction. }
  apply (@spec_publish_tree Q); try (intros; apply Hnil); try assumption.
  - intros w0 line. repeat constructor.
  - intros w0 msg. repeat constructor.
  - intros. apply Hlive. discriminate.
  - intros. apply Hlive. discriminate.
  - intros unit_id episode_id a_path. unfold publish_activity.
    apply spec_bind; [assumption | apply spec_load_yaml; intros; apply Hnil | intros a_yaml].
    apply spec_bind; [assumption | apply spec_lift; intros; apply Hnil | intros version].
    apply spec_bind_ret; [assumption | apply spec_build_manifest; first [assumption | intros; apply Hnil] |].
    intros manifest [w0 Hres].
    destruct (build_manifest_cases unit_id episode_id a_yaml)
      as [[x Hraise] | (v & total & _ & _ & Hret)].
    { rewrite Hraise in Hres. discriminate. }
    rewrite Hret in Hres. injection Hres as <-.
    apply spec_bind; [assumption | apply spec_getitem; intros; apply Hnil | intros mversion].
    apply spec_bind; [assumption | | intros _].
    { intros w1. unfold Q. eapply List.Forall_impl; [|apply s3_put_events].
      intros [line|line|kw|b k o]; simpl; try tauto. intros Hbody.
      eexists _, unit_id, episode_id, (dict_get a_yaml "id" PNone).
      split; [exact Hbody|]. repeat split. }
    apply spec_bind; [assumption | apply spec_getitem; intros; apply Hnil | intros tot].
    apply spec_bind; [assumption | apply spec_time; intros; apply Hnil | intros t].
    intros w1. unfold Q. eapply List.Forall_impl; [|apply put_live_events].
    intros [line|line|kw|b k o]; simpl; try tauto. intros -> _.
    eexists unit_id, episode_id, _. repeat split.
Qed.

Lemma s3_put_returns (e : env) (bucket key : string) (obj : pyval) (dry : bool) (w : world) :
  fault_free e → ending_of (result_of (_s3_put_json e bucket key obj dry w)) = Returned.
Proof.
  intros Hf. unfold _s3_put_json, bind, put_object, print, result_of.
  destruct dry; simpl; [reflexivity|]. rewrite Hf. reflexivity.
Qed.

Lemma put_live_returns (e : env) (item : pydict) (guard_version dry : bool)
    (k : string * string) (w : world) :
  fault_free e → item_key item = Some k →
  ending_of (result_of (_ddb_put_live e item guard_version dry w)) = Returned.
Proof.
  intros Hf Hk. destruct k as [pk sk]. destruct (item_key_lookups _ _ _ Hk) as [Hpk Hsk].
  unfold _ddb_put_live, try_client_error, bind, put_item, getitem, print, ret, raise, result_of.
  destruct dry; simpl.
  - rewrite Hpk, Hsk. reflexivity.
  - rewrite Hf, Hk. destruct guard_version; simpl;
      [destruct (dict_lookup "version" item); simpl|];
      repeat (destruct (condition_holds _ _); simpl); rewrite Hpk, Hsk; reflexivity.
Qed.

Lemma publish_activity_returns (e : env) (bucket s3_prefix : string) (dry : bool)
    (unit_id episode_id : pyval) (file : string) (a_yaml : pydict) (version total : Z)
    (w : world) :
  fault_free e →
  py_int (dict_get a_yaml "version" (PInt 1)) = inr version →
  py_len (dict_get a_yaml "questions" (PList [])) = inr total →
  result_of (publish_activity e bucket s3_prefix dry unit_id episode_id
               (file, FFile (PDict a_yaml)) w) = Ret tt.
Proof.
  intros Hf Hv Ht.
  assert (Hend : ending_of (result_of (publish_activity e bucket s3_prefix dry unit_id
                                         episode_id (file, FFile (PDict a_yaml)) w))
                 = Returned).
  { set (Q := fun (_ : world) (k : ending) (_ : world) (_ : list event) => k = Returned).
    assert (Q_seq : ∀ w1 w2 w3 ev1 ev2 k,
               Q w1 Returned w2 ev1 → Q w2 k w3 ev2 → Q w1 k w3 (ev1 ++ ev2)%list)
      by (intros; assumption).
    assert (Hload : ∀ w0, _load_yaml (FFile (PDict a_yaml)) w0 = (Ret a_yaml, w0, [])).
    { intros w0. destruct a_yaml; reflexivity. }
    revert w. change (run_spec Q (publish_activity e bucket s3_prefix dry unit_id episode_id
                                    (file, FFile (PDict a_yaml)))).
    unfold publish_activity.
    apply spec_bind_ret; [assumption | intros w; rewrite Hload; reflexivity |].
    intros d [w0 Hd]. rewrite Hload in Hd. injection Hd as Hd. subst d.
    rewrite Hv.
    apply spec_bind_ret; [assumption | intros w; reflexivity |].
    intros ver [w1 Hver]. injection Hver as Hver. subst ver.
    destruct (build_manifest_cases unit_id episode_id a_yaml)
      as [[x Hraise] | (v & n & Hv' & Ht' & Hret)].
    { exfalso. specialize (Hraise world0). unfold _build_manifest in Hraise.
      rewrite Hv, Ht in Hraise. discriminate. }
    apply spec_bind_ret; [assumption | intros w; rewrite Hret; reflexivity |].
    intros manifest [w2 Hm]. rewrite Hret in Hm. injection Hm as Hm. subst manifest.
    apply spec_bind; [assumption | intros w; reflexivity | intros mversion].
    apply spec_bind; [assumption | intros w; apply s3_put_returns, Hf | intros _].
    apply spec_bind; [assumption | intros w; reflexivity | intros tot].
    apply spec_bind; [assumption | intros w; reflexivity | intros t].
    intros w. eapply put_live_returns; [exact Hf | reflexivity]. }
  destruct (result_of _) as [[]|c|x]; [reflexivity | discriminate | discriminate].
Qed.

(** C5, as the code has it. In every run, each Activity live record sent to
    the table chains its own unit, episode and activity ids with [SEP] (the
    sign [#]), in [activityFqid] and after [ACTIVITY#] in its key, while
    each manifest sent to the bucket chains its own three ids with a slash;
    and no id is turned down for holding the separator: where no store call
    fails on its own, the activity step ends normally for every unit id and
    episode id and every activity document whose version is an integer and
    whose questions have a length. *)
Theorem fqid_composition_without_separator_check :
  (∀ (e : env) (bucket s3_prefix : string) (dry : bool) (root_path : string)
     (root : option fsnode) (w : world),
     Forall activity_ids_composed
            (events_of (_publish e bucket s3_prefix dry root_path root w))) ∧
  (∀ (e : env) (bucket s3_prefix : string) (dry : bool) (unit_id episode_id : pyval)
     (file : string) (a_yaml : pydict) (version total : Z) (w : world),
     fault_free e →
     py_int (dict_get a_yaml "version" (PInt 1)) = inr version →
     py_len (dict_get a_yaml "questions" (PList [])) = inr total →
     result_of (publish_activity e bucket s3_prefix dry unit_id episode_id
                  (file, FFile (PDict a_yaml)) w) = Ret tt).
Proof.
  split.
  - exact fqids_of_publish.
  - exact publish_activity_returns.
Qed.

(** C5 as stated fails: the manifest of activity [a_1] of episode [e_1] of
    unit [u_1] carries [u_1/e_1/a_1], not the ids chained with [SEP]; and a
    unit id holding the separator goes through, no diagnostic, exit 0, the
    record stored under a key with four separators. *)
Lemma fqid_claim_counterexample :
  (∃ manifest,
     _build_manifest (PStr "u_1") (PStr "e_1") [("id", PStr "a_1")] world0
     = (Ret manifest, world0, []) ∧
     dict_lookup "activityFqId" manifest = Some (PStr "u_1/e_1/a_1") ∧
     PStr "u_1/e_1/a_1" ≠ PStr ("u_1" ++ SEP ++ "e_1" ++ SEP ++ "a_1")) ∧
  result_of separator_run = Ret tt ∧
  Forall (fun ev => is_stderr ev = false) (events_of separator_run) ∧
  ∃ item,
    ddb (world_of separator_run) !! ("ACTIVITY#u#1#e_1#a_1", "LIVE") = Some item ∧
    dict_lookup "unitId" item = Some (PStr "u#1").
Proof.
  split; [|split; [|split]].
  - eexists. split; [reflexivity|]. split; [reflexivity | discriminate].
  - vm_compute. reflexivity.
  - vm_compute. repeat constructor.
  - eexists. split; [vm_compute; reflexivity | reflexivity].
Qed.

(* ===================================================================== *)
(** ** The content hash of a manifest                                     *)
(* ===================================================================== *)

(** *** Sorting by key *)

Lemma ascii_compare_refl (c : ascii) : Ascii.compare c c = Eq.
Proof. unfold Ascii.compare. apply N.compare_refl. Qed.

Lemma string_leb_trans (a b c : string) :
  String.leb a b = true → String.leb b c = true → String.leb a c = true.
Proof.
  unfold String.leb. revert b c.
  induction a as [|x a IH]; intros [|y b] [|z c]; simpl; try (intros; reflexivity || discriminate).
  destruct (Ascii.compare x y) eqn:Hxy, (Ascii.compare y z) eqn:Hyz;
    try (intros; discriminate).
  - apply Ascii.compare_eq_iff in Hxy, Hyz. subst. rewrite ascii_compare_refl. apply IH.
  - apply Ascii.compare_eq_iff in Hxy. subst. rewrite Hyz. reflexivity.
  - apply Ascii.compare_eq_iff in Hyz. subst. rewrite Hxy. reflexivity.
  - unfold Ascii.compare in *. rewrite N.compare_lt_iff in Hxy, Hyz.
    assert (Hxz : (N_of_ascii x < N_of_ascii z)%N) by lia.
    rewrite <- N.compare_lt_iff in Hxz. rewrite Hxz. reflexivity.
Qed.

Section SortByKey.
Context {A : Type}.

Lemma insert_by_key_perm (x : string * A) (l : list (string * A)) :
  Permutation (insert_by_key x l) (x :: l).
Proof.
  induction l as [|y l IH]; simpl; [reflexivity|].
  destruct (String.leb (fst x) (fst y)); [reflexivity|].
  rewrite IH. apply perm_swap.
Qed.

Lemma sort_by_key_perm (l : list (string * A)) : Permutation (sort_by_key l) l.
Proof.
  induction l as [|x l IH]; simpl; [reflexivity|].
  rewrite insert_by_key_perm, IH. reflexivity.
Qed.

Lemma insert_by_key_sorted (x : string * A) (l : list (string * A)) :
  Sorted (@key_le A) l → Sorted (@key_le A) (insert_by_key x l).
Proof.
  induction 1 as [|y l Hl IH Hy]; simpl.
  - repeat constructor.
  - destruct (String.leb (fst x) (fst y)) eqn:Hxy.
    + constructor; [constructor; assumption | constructor; exact Hxy].
    + assert (Hyx : key_le y x).
      { unfold key_le. destruct (String.leb_total (fst x) (fst y)); congruence. }
      constructor; [exact IH|].
      destruct l as [|z l]; simpl.
      * constructor. exact Hyx.
      * destruct (String.leb (fst x) (fst z)); constructor; [exact Hyx|].
        inversion Hy. assumption.
Qed.

Lemma sort_by_key_sorted (l : list (string * A)) : Sorted (@key_le A) (sort_by_key l).
Proof.
  induction l as [|x l IH]; simpl; [constructor | apply insert_by_key_sorted, IH].
Qed.

(** With distinct keys, the sorted list does not depend on the order of
    the entries. *)
Lemma sort_by_key_order_free (l l' : list (string * A)) :
  NoDup (map fst l) → Permutation l l' → sort_by_key l = sort_by_key l'.
Proof.
  intros Hnd Hperm.
  assert (Htrans : Transitive (@key_le A)).
  { intros a b c. unfold key_le. apply string_leb_trans. }
  apply (Sorted_unique_strong (@key_le A)); try apply sort_by_key_sorted.
  - intros x1 x2 H1 H2 H12 H21.
    assert (Hk : fst x1 = fst x2) by (apply String.leb_antisym; assumption).
    apply list_elem_of_In in H1, H2.
    apply (Permutation_in _ (sort_by_key_perm l)) in H1.
    apply (Permutation_in _ (sort_by_key_perm l')) in H2.
    apply (Permutation_in _ (Permutation_sym Hperm)) in H2.
    clear - Hnd H1 H2 Hk. induction l as [|y l IH]; [destruct H1|].
    simpl in Hnd. apply NoDup_cons in Hnd as [Hy Hnd].
    destruct H1 as [->|H1], H2 as [->|H2].
    + reflexivity.
    + exfalso. apply Hy. rewrite Hk. apply list_elem_of_In, in_map, H2.
    + exfalso. apply Hy. rewrite <- Hk. apply list_elem_of_In, in_map, H1.
    + apply IH; assumption.
  - rewrite sort_by_key_perm, sort_by_key_perm. exact Hperm.
Qed.
End SortByKey.

(** *** Values with the same content encode alike *)

Lemma pyval_nested_ind (P : pyval → Prop) :
  P PNone → (∀ b, P (PBool b)) → (∀ z, P (PInt z)) → (∀ s, P (PStr s)) →
  (∀ l, Forall P l → P (PList l)) →
  (∀ d, Forall (fun kv => P (snd kv)) d → P (PDict d)) →
  ∀ v, P v.
Proof.
  intros Hnone Hbool Hint Hstr Hlist Hdict.
  refine (fix IH (v : pyval) : P v :=
            match v with
            | PNone => Hnone
            | PBool b => Hbool b
            | PInt z => Hint z
            | PStr s => Hstr s
            | PList l =>
                Hlist l ((fix aux (l : list pyval) : Forall P l :=
                            match l with
                            | [] => @List.Forall_nil _ P
                            | x :: l' => @List.Forall_cons _ P x l' (IH x) (aux l')
                            end) l)
            | PDict d =>
                Hdict d ((fix aux (d : pydict) : Forall (fun kv => P (snd kv)) d :=
                            match d with
                            | [] => @List.Forall_nil _ (fun kv => P (snd kv))
                            | kv :: d' => @List.Forall_cons _ (fun kv => P (snd kv)) kv d' (IH (snd kv)) (aux d')
                            end) d)
            end).
Qed.

Lemma json_encode_same_content (item_sep key_sep : string) (a : pyval) :
  ∀ a', same_content a a' →
        json_encode true item_sep key_sep a = json_encode true item_sep key_sep a'.
Proof.
  induction a as [| | | |l IH|d1 IH] using pyval_nested_ind; intros a' Hab;
    inversion Hab; subst; try reflexivity.
  - match goal with H : Forall2 same_content _ _ |- _ => rename H into Hall end.
    assert (Hmap : map (json_encode true item_sep key_sep) l
                   = map (json_encode true item_sep key_sep) l2).
    { clear Hab. induction Hall as [|x y l l' Hxy Hall IHall]; simpl; [reflexivity|].
      apply Forall_cons in IH as [Hx IH]. f_equal; [apply Hx, Hxy | apply IHall, IH]. }
    simpl. rewrite Hmap. reflexivity.
  - match goal with H : Permutation d1 ?d |- _ => rename H into Hperm; rename d into dm end.
    match goal with H : Forall2 _ dm ?d |- _ => rename H into Hall; rename d into d2 end.
    match goal with H : NoDup _ |- _ => rename H into Hnd end.
    set (enc := fun kv : string * pyval => (fst kv, json_encode true item_sep key_sep (snd kv))).
    assert (Hsort : sort_by_key (map enc d1) = sort_by_key (map enc d2)); cycle 1.
    { simpl. fold enc. rewrite Hsort. reflexivity. }
    assert (Hmid : map enc dm = map enc d2).
    { assert (IHm : Forall (fun kv => ∀ b, same_content (snd kv) b →
                              json_encode true item_sep key_sep (snd kv)
                              = json_encode true item_sep key_sep b) dm).
      { rewrite List.Forall_forall in *. intros kv Hin. apply IH.
        apply (Permutation_in _ (Permutation_sym Hperm)), Hin. }
      clear - Hall IHm. induction Hall as [|x y l l' [Hk Hxy] Hall IHall]; simpl; [reflexivity|].
      apply Forall_cons in IHm as [Hx IHm]. f_equal; [|apply IHall, IHm].
      unfold enc. rewrite Hk, (Hx _ Hxy). reflexivity. }
    rewrite <- Hmid. apply sort_by_key_order_free.
    + rewrite map_map. simpl. exact Hnd.
    + apply Permutation_map, Hperm.
Qed.

(** *** The digest is sixty-four hexadecimal characters *)

Lemma string_length_append (a b : string) :
  String.length (a ++ b) = (String.length a + String.length b)%nat.
Proof. induction a as [|c a IH]; simpl; [reflexivity | rewrite IH; reflexivity]. Qed.

Lemma hex_fixed_length (n : nat) (v : Z) : String.length (hex_fixed n v) = n.
Proof.
  revert v. induction n as [|n IH]; intros v; simpl; [reflexivity|].
  rewrite string_length_append, IH. simpl. lia.
Qed.

Lemma round_length (st : list Z) (kw : Z * Z) :
  List.length st = 8%nat → List.length (SHA256.round st kw) = 8%nat.
Proof.
  intros H. do 9 (destruct st as [|? st]; try discriminate). reflexivity.
Qed.

Lemma zip_add_length (x y : list Z) :
  List.length x = 8%nat → List.length y = 8%nat → List.length (SHA256.zip_add x y) = 8%nat.
Proof.
  intros Hx Hy.
  do 9 (destruct x as [|? x]; try discriminate).
  do 9 (destruct y as [|? y]; try discriminate). reflexivity.
Qed.

Lemma compress_length (h block : list Z) :
  List.length h = 8%nat → List.length (SHA256.compress h block) = 8%nat.
Proof.
  intros Hh. unfold SHA256.compress. apply zip_add_length; [exact Hh|].
  generalize (combine SHA256.K (SHA256.schedule 48 (rev block))). intros kws.
  revert h Hh. induction kws as [|kw kws IH]; intros h Hh; simpl; [exact Hh|].
  apply IH, round_length, Hh.
Qed.

Lemma digest_words_length (msg : list Z) : List.length (SHA256.digest_words msg) = 8%nat.
Proof.
  unfold SHA256.digest_words.
  generalize (SHA256.blocks
                (List.length (SHA256.words_of_bytes (List.length (SHA256.pad msg)) (SHA256.pad msg)))
                (SHA256.words_of_bytes (List.length (SHA256.pad msg)) (SHA256.pad msg))).
  intros bs. assert (H0 : List.length SHA256.H0 = 8%nat) by reflexivity.
  revert H0. generalize SHA256.H0. induction bs as [|b bs IH]; intros h Hh; simpl; [exact Hh|].
  apply IH, compress_length, Hh.
Qed.

Lemma hex_digit_is_hex (n : Z) : 0 <= n < 16 → is_hex_char (hex_digit n) = true.
Proof.
  intros Hn.
  assert (Hcases : n = 0 ∨ n = 1 ∨ n = 2 ∨ n = 3 ∨ n = 4 ∨ n = 5 ∨ n = 6 ∨ n = 7 ∨
                   n = 8 ∨ n = 9 ∨ n = 10 ∨ n = 11 ∨ n = 12 ∨ n = 13 ∨ n = 14 ∨ n = 15) by lia.
  repeat (destruct Hcases as [->|Hcases]; [reflexivity|]). subst. reflexivity.
Qed.

Lemma list_ascii_of_string_app (a b : string) :
  list_ascii_of_string (a ++ b) = (list_ascii_of_string a ++ list_ascii_of_string b)%list.
Proof. induction a as [|c a IH]; simpl; [reflexivity | rewrite IH; reflexivity]. Qed.

Lemma hex_fixed_is_hex (n : nat) (v : Z) :
  Forall (fun c => is_hex_char c = true) (list_ascii_of_string (hex_fixed n v)).
Proof.
  revert v. induction n as [|n IH]; intros v; simpl; [constructor|].
  rewrite list_ascii_of_string_app. apply Forall_app. split; [apply IH|].
  repeat constructor. apply hex_digit_is_hex. apply Z.mod_pos_bound. lia.
Qed.

Lemma string_take_length (n : nat) (s : string) :
  (n ≤ String.length s)%nat → String.length (string_take n s) = n.
Proof.
  revert s. induction n as [|n IH]; intros [|c s] H; simpl in *; try lia.
  rewrite IH; lia.
Qed.

Lemma string_take_forall (P : ascii → Prop) (n : nat) (s : string) :
  Forall P (list_ascii_of_string s) → Forall P (list_ascii_of_string (string_take n s)).
Proof.
  revert s. induction n as [|n IH]; intros [|c s] H; simpl; try constructor.
  - apply Forall_cons in H as [Hc _]. exact Hc.
  - apply IH. apply Forall_cons in H as [_ Hs]. exact Hs.
Qed.

Lemma hexdigest_shape (b : string) :
  String.length (SHA256.hexdigest b) = 64%nat ∧
  Forall (fun c => is_hex_char c = true) (list_ascii_of_string (SHA256.hexdigest b)).
Proof.
  unfold SHA256.hexdigest.
  pose proof (digest_words_length (SHA256.bytes_of_string b)) as Hlen.
  destruct (SHA256.digest_words (SHA256.bytes_of_string b))
    as [|a0 [|a1 [|a2 [|a3 [|a4 [|a5 [|a6 [|a7 [|a8 ws]]]]]]]]]; try discriminate.
  cbn [String.concat List.map]. split.
  - rewrite !string_length_append, !hex_fixed_length. reflexivity.
  - rewrite !list_ascii_of_string_app. repeat (apply Forall_app; split);
      first [apply hex_fixed_is_hex | constructor].
Qed.

Lemma sha256_short_shape (obj : pyval) :
  String.length (_sha256_short obj) = 16%nat ∧
  Forall (fun c => is_hex_char c = true) (list_ascii_of_string (_sha256_short obj)).
Proof.
  unfold _sha256_short.
  destruct (hexdigest_shape (json_dumps_canonical obj)) as [Hlen Hhex]. split.
  - apply string_take_length. lia.
  - apply string_take_forall, Hhex.
Qed.

Lemma build_manifest_reads_five_fields (unit_id episode_id : pyval) (d1 d2 : pydict) (w : world) :
  (∀ k, In k ["id"; "title"; "version"; "locale"; "questions"] →
        dict_lookup k d1 = dict_lookup k d2) →
  _build_manifest unit_id episode_id d1 w = _build_manifest unit_id episode_id d2 w.
Proof.
  intros H. unfold _build_manifest, dict_get.
  rewrite (H "id"), (H "title"), (H "version"), (H "locale"), (H "questions");
    simpl; auto 10.
Qed.

(** C4, as the code has it. The content hash is a function of the whole
    manifest: two manifests with the same content, whatever the order in
    which their fields (and the fields of the dicts inside them) were
    inserted, have the same hash, which is sixteen hexadecimal characters;
    and the manifest itself is determined by the unit id, the episode id and
    the document's id, title, version, locale and questions. *)
Theorem content_hash_of_whole_manifest :
  (∀ m1 m2 : pyval, same_content m1 m2 → _sha256_short m1 = _sha256_short m2) ∧
  (∀ obj : pyval,
     String.length (_sha256_short obj) = 16%nat ∧
     Forall (fun c => is_hex_char c = true) (list_ascii_of_string (_sha256_short obj))) ∧
  (∀ (unit_id episode_id : pyval) (d1 d2 : pydict) (w : world),
     (∀ k, In k ["id"; "title"; "version"; "locale"; "questions"] →
           dict_lookup k d1 = dict_lookup k d2) →
     _build_manifest unit_id episode_id d1 w = _build_manifest unit_id episode_id d2 w).
Proof.
  split; [|split].
  - intros m1 m2 Hsame. unfold _sha256_short, json_dumps_canonical.
    rewrite (json_encode_same_content "," ":" m1 m2 Hsame). reflexivity.
  - exact sha256_short_shape.
  - exact build_manifest_reads_five_fields.
Qed.

(** C4 as stated fails: the manifests of two documents that differ in
    their title only agree on unit, episode and activity ids, version and
    questions, and have different hashes. *)
Lemma content_hash_depends_on_title :
  (∀ k, In k ["unitId"; "episodeId"; "activityId"; "version"; "questions"] →
        dict_lookup k (manifest_of greetings_doc) = dict_lookup k (manifest_of farewells_doc)) ∧
  _sha256_short (PDict (manifest_of greetings_doc))
  ≠ _sha256_short (PDict (manifest_of farewells_doc)).
Proof.
  split.
  - intros k Hin. simpl in Hin.
    repeat (destruct Hin as [<-|Hin]; [reflexivity|]). destruct Hin.
  - vm_compute. discriminate.
Qed.

(* ===================================================================== *)
(** ** Publishing twice                                                   *)
(* ===================================================================== *)

(** *** The writes seen from one key *)

Lemma apply_put_lookup (t : gmap (string * string) pydict) (kw : put_item_args)
    (k : string * string) :
  apply_put t kw !! k = step_at k (t !! k) kw.
Proof.
  unfold apply_put, step_at.
  destruct (item_key (Item kw)) as [k'|] eqn:Hk.
  - destruct (decide (Some k' = Some k)) as [[= ->]|Hne].
    + destruct (match Newv kw with Some newv => condition_holds (t !! k) newv | None => true end);
        [apply lookup_insert_eq | reflexivity].
    + destruct (match Newv kw with Some newv => condition_holds (t !! k') newv | None => true end);
        [|reflexivity].
      apply lookup_insert_ne. congruence.
  - destruct (decide (None = Some k)); [discriminate | reflexivity].
Qed.

Lemma apply_puts_lookup (ops : list put_item_args) (t : gmap (string * string) pydict)
    (k : string * string) :
  apply_puts t ops !! k = run_at k ops (t !! k).
Proof.
  revert t. induction ops as [|kw ops IH]; intros t; simpl; [reflexivity|].
  unfold apply_puts, run_at in *. simpl. rewrite IH, apply_put_lookup. reflexivity.
Qed.

Lemma run_at_app (k : string * string) (ops1 ops2 : list put_item_args) (cur : option pydict) :
  run_at k (ops1 ++ ops2) cur = run_at k ops2 (run_at k ops1 cur).
Proof. unfold run_at. apply fold_left_app. Qed.

(** After an unguarded write under the key, what was there before does not
    matter. *)
Lemma run_at_reset (k : string * string) (ops : list put_item_args) (c c' : option pydict) :
  existsb (is_reset k) ops = true → run_at k ops c = run_at k ops c'.
Proof.
  revert c c'. induction ops as [|kw ops IH]; intros c c' Hex; simpl in *; [discriminate|].
  unfold run_at in *. simpl.
  destruct (is_reset k kw) eqn:Hr; simpl in Hex.
  - unfold is_reset in Hr. apply andb_true_iff in Hr as [Hk Hn].
    apply bool_decide_eq_true in Hk. unfold step_at.
    destruct (decide (item_key (Item kw) = Some k)); [|contradiction].
    destruct (Newv kw); [discriminate | reflexivity].
  - apply IH, Hex.
Qed.

(** *** Guarded writes only *)

Section GuardedOnly.
Variable k : string * string.

Lemma step_at_guarded (cur : option pydict) (kw : put_item_args) (n : Z) :
  item_key (Item kw) = Some k → Newv kw = Some (PInt n) →
  step_at k cur kw = if condition_holds cur (PInt n) then Some (Item kw) else cur.
Proof.
  intros Hk Hn. unfold step_at. rewrite Hn.
  destruct (decide (item_key (Item kw) = Some k)); [reflexivity | contradiction].
Qed.

Lemma step_at_other (cur : option pydict) (kw : put_item_args) :
  item_key (Item kw) ≠ Some k → step_at k cur kw = cur.
Proof.
  intros Hk. unfold step_at.
  destruct (decide (item_key (Item kw) = Some k)); [contradiction | reflexivity].
Qed.

Lemma condition_holds_int (old : pydict) (v n : Z) :
  dict_lookup "version" old = Some (PInt v) →
  condition_holds (Some old) (PInt n) = (v <=? n).
Proof. intros H. unfold condition_holds. rewrite H. reflexivity. Qed.

(** A state that lets version [n] in but not version [m] holds an integer
    version above [m] and at most [n]. *)
Lemma accepts_one_not_other (cur : option pydict) (n m : Z) :
  condition_holds cur (PInt n) = true → condition_holds cur (PInt m) = false → m < n.
Proof.
  unfold condition_holds. destruct cur as [old|]; [|discriminate].
  destruct (dict_lookup "version" old) as [[| |v| | |]|]; simpl; try discriminate. lia.
Qed.

(** If the state reached lets version [n] in, every call under the key
    carried a version of at most [n]. *)
Lemma accepted_bounds_versions (ops : list put_item_args) (c : option pydict) (n : Z) :
  Forall (guarded_at k) ops →
  condition_holds (run_at k ops c) (PInt n) = true →
  Forall (fun kw => item_key (Item kw) = Some k →
                    ∀ m, dict_lookup "version" (Item kw) = Some (PInt m) → m ≤ n) ops.
Proof.
  revert n. induction ops as [|kw ops IH] using rev_ind; intros n Hg Hacc; [constructor|].
  apply Forall_app in Hg as [Hg Hkw]. apply Forall_cons in Hkw as [Hkw _].
  rewrite run_at_app in Hacc. simpl in Hacc.
  apply Forall_app. destruct (decide (item_key (Item kw) = Some k)) as [Hk|Hk].
  - destruct (Hkw Hk) as (m & Hn & Hv).
    rewrite (step_at_guarded _ _ m Hk Hn) in Hacc.
    destruct (condition_holds (run_at k ops c) (PInt m)) eqn:Hm.
    + rewrite (condition_holds_int _ m n Hv) in Hacc. apply Z.leb_le in Hacc. split.
      * eapply List.Forall_impl; [|apply (IH m Hg Hm)].
        intros kw' H Hk' m' Hv'. specialize (H Hk' m' Hv'). lia.
      * repeat constructor. intros _ m' Hv'. rewrite Hv in Hv'. injection Hv' as <-. exact Hacc.
    + split; [apply IH; assumption|].
      repeat constructor. intros _ m' Hv'. rewrite Hv in Hv'. injection Hv' as <-.
      pose proof (accepts_one_not_other _ _ _ Hacc Hm). lia.
  - rewrite (step_at_other _ _ Hk) in Hacc. split; [apply IH; assumption|].
    repeat constructor. intros Hk'. contradiction.
Qed.

(** From a record of version [n], calls of versions at most [n] end on a
    record of version [n]. *)
Lemma bounded_versions_keep (ops : list put_item_args) (old : pydict) (n : Z) :
  Forall (guarded_at k) ops →
  dict_lookup "version" old = Some (PInt n) →
  Forall (fun kw => item_key (Item kw) = Some k →
                    ∀ m, dict_lookup "version" (Item kw) = Some (PInt m) → m ≤ n) ops →
  ∃ old', run_at k ops (Some old) = Some old' ∧ dict_lookup "version" old' = Some (PInt n).
Proof.
  revert old. induction ops as [|kw ops IH]; intros old Hg Hold Hb; simpl.
  - exists old. split; [reflexivity | exact Hold].
  - apply Forall_cons in Hg as [Hkw Hg]. apply Forall_cons in Hb as [Hbkw Hb].
    unfold run_at. simpl. fold (run_at k ops).
    destruct (decide (item_key (Item kw) = Some k)) as [Hk|Hk].
    + destruct (Hkw Hk) as (m & Hn & Hv). specialize (Hbkw Hk m Hv).
      rewrite (step_at_guarded _ _ m Hk Hn), (condition_holds_int _ n m Hold).
      destruct (n <=? m) eqn:Hle.
      * apply Z.leb_le in Hle. assert (m = n) by lia. subst m.
        apply IH; assumption.
      * apply IH; assumption.
    + rewrite (step_at_other _ _ Hk). apply IH; assumption.
Qed.

Lemma run_at_guarded_idempotent (ops : list put_item_args) (c : option pydict) :
  Forall (guarded_at k) ops → run_at k ops (run_at k ops c) = run_at k ops c.
Proof.
  induction ops as [|kw ops IH] using rev_ind; intros Hg; [reflexivity|].
  apply Forall_app in Hg as [Hg Hkw]. apply Forall_cons in Hkw as [Hkw _].
  rewrite !run_at_app. simpl.
  destruct (decide (item_key (Item kw) = Some k)) as [Hk|Hk].
  - destruct (Hkw Hk) as (n & Hn & Hv).
    rewrite !(step_at_guarded _ _ n Hk Hn).
    destruct (condition_holds (run_at k ops c) (PInt n)) eqn:Hacc.
    + pose proof (accepted_bounds_versions ops c n Hg Hacc) as Hb.
      destruct (bounded_versions_keep ops (Item kw) n Hg Hv Hb) as (old' & Hrun & Hv').
      rewrite Hrun, (condition_holds_int _ n n Hv'), Z.leb_refl. reflexivity.
    + rewrite (IH Hg), Hacc. reflexivity.
  - rewrite !(step_at_other _ _ Hk). apply IH, Hg.
Qed.
End GuardedOnly.

(** *** Asking for the same writes again *)

Lemma run_at_idempotent (k : string * string) (ops : list put_item_args) (c : option pydict) :
  Forall guarded_by_own_version ops → run_at k ops (run_at k ops c) = run_at k ops c.
Proof.
  intros Hwf. destruct (existsb (is_reset k) ops) eqn:Hex.
  - apply run_at_reset, Hex.
  - apply run_at_guarded_idempotent.
    rewrite List.Forall_forall in *. intros kw Hin Hk.
    assert (Hr : is_reset k kw = false).
    { destruct (is_reset k kw) eqn:Hr; [|reflexivity].
      assert (existsb (is_reset k) ops = true) by (apply existsb_exists; eauto). congruence. }
    specialize (Hwf kw Hin). unfold guarded_by_own_version in Hwf. unfold is_reset in Hr.
    rewrite (bool_decide_eq_true_2 _ Hk) in Hr. simpl in Hr.
    destruct (Newv kw) as [newv|]; [|discriminate].
    destruct Hwf as (n & -> & Hv). eauto.
Qed.

Lemma apply_puts_idempotent (ops : list put_item_args) (t : gmap (string * string) pydict) :
  Forall guarded_by_own_version ops → apply_puts (apply_puts t ops) ops = apply_puts t ops.
Proof.
  intros Hwf. apply map_eq. intros k.
  rewrite !apply_puts_lookup. apply run_at_idempotent, Hwf.
Qed.

Lemma apply_puts_app (t : gmap (string * string) pydict) (ops1 ops2 : list put_item_args) :
  apply_puts t (ops1 ++ ops2) = apply_puts (apply_puts t ops1) ops2.
Proof. unfold apply_puts. apply fold_left_app. Qed.

(** *** Time stamps apart *)

Lemma condition_holds_strip (cur : option pydict) (newv : pyval) :
  condition_holds (strip_time <$> cur) newv = condition_holds cur newv.
Proof.
  destruct cur as [old|]; simpl; [|reflexivity].
  rewrite strip_time_lookup by discriminate. reflexivity.
Qed.

Lemma apply_put_strip (t : gmap (string * string) pydict) (kw : put_item_args) :
  apply_put (strip_table t) (strip_args kw) = strip_table (apply_put t kw).
Proof.
  unfold apply_put, strip_table, strip_args. simpl. rewrite strip_time_item_key.
  destruct (item_key (Item kw)) as [k|]; [|reflexivity].
  rewrite lookup_fmap.
  destruct (Newv kw) as [newv|].
  - rewrite condition_holds_strip.
    destruct (condition_holds (t !! k) newv); [|reflexivity].
    rewrite fmap_insert. reflexivity.
  - rewrite fmap_insert. reflexivity.
Qed.

Lemma apply_puts_strip (ops : list put_item_args) (t : gmap (string * string) pydict) :
  apply_puts (strip_table t) (map strip_args ops) = strip_table (apply_puts t ops).
Proof.
  revert t. induction ops as [|kw ops IH]; intros t; simpl; [reflexivity|].
  unfold apply_puts in *. simpl. rewrite apply_put_strip. apply IH.
Qed.

Lemma guarded_by_own_version_strip (kw : put_item_args) :
  guarded_by_own_version kw → guarded_by_own_version (strip_args kw).
Proof.
  unfold guarded_by_own_version, strip_args. simpl.
  destruct (Newv kw); [|auto]. intros (n & -> & Hv). exists n. split; [reflexivity|].
  rewrite strip_time_lookup by discriminate. exact Hv.
Qed.

(** *** The table after a run is the table before with the writes applied *)

Lemma put_live_calls (e : env) (item : pydict) (guard_version dry : bool) (w : world) :
  put_calls (events_of (_ddb_put_live e item guard_version dry w))
  = if dry then []
    else [{| Item := item;
             Newv := if guard_version then dict_lookup "version" item else None |}].
Proof.
  unfold _ddb_put_live, try_client_error, bind, put_item, getitem, print, ret, raise, events_of.
  repeat (case_match; simpl in *; simplify_eq); reflexivity.
Qed.

Lemma put_live_applies (e : env) (item : pydict) (guard_version dry : bool) (w : world) :
  fault_free e →
  ddb (world_of (_ddb_put_live e item guard_version dry w))
  = apply_puts (ddb w) (put_calls (events_of (_ddb_put_live e item guard_version dry w))).
Proof.
  intros Hf. rewrite put_live_calls.
  unfold _ddb_put_live, try_client_error, bind, put_item, getitem, print, ret, raise, world_of,
    apply_puts, apply_put.
  destruct dry; simpl.
  - repeat (case_match; simpl in *; simplify_eq); reflexivity.
  - rewrite Hf. destruct (item_key item) as [k|] eqn:Hk; simpl; [|reflexivity].
    repeat (case_match; simpl in *; simplify_eq); reflexivity.
Qed.

Lemma s3_put_calls (e : env) (bucket key : string) (obj : pyval) (dry : bool) (w : world) :
  put_calls (events_of (_s3_put_json e bucket key obj dry w)) = [].
Proof.
  unfold _s3_put_json, bind, put_object, print, events_of.
  repeat (case_match; simpl in *; simplify_eq); reflexivity.
Qed.

Lemma publish_applies (e : env) (bucket s3_prefix : string) (dry : bool)
    (root_path : string) (root : option fsnode) (w : world) :
  fault_free e →
  let run := _publish e bucket s3_prefix dry root_path root w in
  ddb (world_of run) = apply_puts (ddb w) (put_calls (events_of run)).
Proof.
  intros Hf.
  apply (@spec_publish (fun w _ w' ev => ddb w' = apply_puts (ddb w) (put_calls ev)));
    try reflexivity.
  - intros w1 w2 w3 ev1 ev2 _ H1 H2. rewrite put_calls_app, apply_puts_app, <- H1. exact H2.
  - intros key obj w0. rewrite s3_put_calls. apply s3_put_effect.
  - intros. intros w0. apply put_live_applies, Hf.
  - intros. intros w0. apply put_live_applies, Hf.
  - intros. intros w0. apply put_live_applies, Hf.
Qed.

Lemma publish_calls_guarded (e : env) (bucket s3_prefix : string) (dry : bool)
    (root_path : string) (root : option fsnode) (w : world) :
  Forall guarded_by_own_version
         (put_calls (events_of (_publish e bucket s3_prefix dry root_path root w))).
Proof.
  assert (Hlive : ∀ item g,
             (g = true → ∃ n, dict_lookup "version" item = Some (PInt n)) →
             ∀ w0, Forall guarded_by_own_version
                          (put_calls (events_of (_ddb_put_live e item g dry w0)))).
  { intros item g Hg w0. rewrite put_live_calls. destruct dry; repeat constructor.
    unfold guarded_by_own_version. simpl. destruct g; [|exact I].
    destruct (Hg eq_refl) as [n Hn]. rewrite Hn. eauto. }
  apply (@spec_publish (fun _ _ _ ev => Forall guarded_by_own_version (put_calls ev)));
    try (intros; constructor).
  - intros w1 w2 w3 ev1 ev2 _ H1 H2. rewrite put_calls_app. apply Forall_app. split; assumption.
  - intros key obj w0. rewrite s3_put_calls. constructor.
  - intros. intros w0. apply Hlive. discriminate.
  - intros. intros w0. apply Hlive. discriminate.
  - intros. intros w0. apply Hlive. intros _. eexists. reflexivity.
Qed.

(** C3, as the code has it. Publishing the same tree twice, no store call
    failing on its own in either run: the table after the second run holds
    the same records as after the first, their [updatedAt] time stamps
    apart, and the second run ends the way the first did. *)
Theorem publishing_twice_keeps_live_records
    (e1 e2 : env) (bucket s3_prefix : string) (dry : bool) (root_path : string)
    (root : option fsnode) (w : world) :
  fault_free e1 → fault_free e2 →
  let run1 := _publish e1 bucket s3_prefix dry root_path root w in
  let run2 := _publish e2 bucket s3_prefix dry root_path root (world_of run1) in
  strip_table (ddb (world_of run2)) = strip_table (ddb (world_of run1)) ∧
  result_of run2 = result_of run1.
Proof.
  intros Hf1 Hf2 run1 run2.
  assert (Hsame : same_faults e1 e2 w (world_of run1)).
  { intros n. rewrite Hf1, Hf2. reflexivity. }
  destruct (rel_publish e1 e2 bucket s3_prefix dry root_path root w (world_of run1) Hsame)
    as (Hres & _ & Hcalls).
  fold run1 in Hres, Hcalls. fold run2 in Hres, Hcalls. split; [|symmetry; exact Hres].
  pose proof (publish_applies e1 bucket s3_prefix dry root_path root w Hf1) as H1.
  pose proof (publish_applies e2 bucket s3_prefix dry root_path root (world_of run1) Hf2) as H2.
  simpl in H1, H2. fold run1 in H1, H2. fold run2 in H2.
  rewrite H2, <- apply_puts_strip, <- Hcalls.
  rewrite H1 at 1. rewrite <- apply_puts_strip, apply_puts_idempotent.
  - rewrite apply_puts_strip, <- H1. reflexivity.
  - apply Forall_map. eapply List.Forall_impl; [|apply publish_calls_guarded].
    intros kw. apply guarded_by_own_version_strip.
Qed.

(** C3 as stated fails: in the second of two runs over the same tree, the
    guarded write of the Activity record goes through (its version equals
    the live one) instead of being skipped, and the record it leaves is not
    the one the first run left. *)
Lemma republish_counterexample :
  ddb (world_of second_run) !! ("ACTIVITY#u_1#e_1#a_1", "LIVE")
  ≠ ddb (world_of first_run) !! ("ACTIVITY#u_1#e_1#a_1", "LIVE") ∧
  In (Stdout "[OK ] DDB PUT ACTIVITY#u_1#e_1#a_1 LIVE") (events_of second_run) ∧
  ¬ In (Stdout "[SKIP] Newer/equal version exists for ACTIVITY#u_1#e_1#a_1 LIVE")
       (events_of second_run).
Proof.
  split; [|split].
  - vm_compute. discriminate.
  - vm_compute. tauto.
  - vm_compute. intuition discriminate.
Qed.

(* ===================================================================== *)
(** ** The statements at sample inputs                                    *)
(* ===================================================================== *)

Lemma calm_fault_free (t : Z) : fault_free (calm t).
Proof. intros n. reflexivity. Defined.

Lemma guarded_put_live_outcome_witness :
  item_key (sample_record 1 2000) = Some sample_key ∧
  dict_lookup "version" (sample_record 1 2000) = Some (PInt 1) ∧
  _ddb_put_live (calm 0) (sample_record 1 2000) true false sample_world
  = (Ret tt, tick sample_world,
     [CallPutItem {| Item := sample_record 1 2000; Newv := Some (PInt 1) |};
      Stdout "[SKIP] Newer/equal version exists for ACTIVITY#u_1#e_1#a_1 LIVE"]).
Proof.
  split; [reflexivity|]. split; [reflexivity|].
  assert (Hwf : ∀ old, ddb sample_world !! ("ACTIVITY#u_1#e_1#a_1", "LIVE") = Some old →
                       ∃ v, dict_lookup "version" old = Some (PInt v)).
  { intros old Hold. vm_compute in Hold. injection Hold as <-. exists 2. reflexivity. }
  destruct (guarded_put_live_outcome (calm 0) (sample_record 1 2000)
              "ACTIVITY#u_1#e_1#a_1" "LIVE" 1 sample_world eq_refl eq_refl Hwf)
    as [Hcalm _].
  destruct (Hcalm eq_refl) as (_ & _ & Hskip). apply Hskip.
  intros [Hnone | (old & v & Hold & Hv & Hle)].
  - vm_compute in Hnone. discriminate.
  - vm_compute in Hold. injection Hold as <-. vm_compute in Hv. injection Hv as <-. lia.
Defined.

Lemma live_version_monotone_witness :
  is_activity_pk "ACTIVITY#u_1#e_1#a_1" = true ∧
  live_version (ddb sample_world) sample_key = Some (PInt 2) ∧
  ∃ v', live_version (ddb (run_attempts [publish_version 100 1] sample_world)) sample_key
        = Some (PInt v') ∧ 2 ≤ v'.
Proof.
  split; [reflexivity|]. split; [reflexivity|].
  apply (proj1 live_version_monotone [publish_version 100 1] sample_world
           "ACTIVITY#u_1#e_1#a_1" "LIVE" 2); reflexivity.
Defined.

Lemma publishing_twice_keeps_live_records_witness :
  fault_free (calm 1000) ∧ fault_free (calm 5000) ∧
  let tree := Some (one_activity_tree "a_1.yaml" (PDict [("version", PInt 1)])) in
  let run1 := _publish (calm 1000) "liwanag-content-bucket" "activities" false
                       "../content/units" tree world0 in
  let run2 := _publish (calm 5000) "liwanag-content-bucket" "activities" false
                       "../content/units" tree (world_of run1) in
  strip_table (ddb (world_of run2)) = strip_table (ddb (world_of run1)) ∧
  result_of run2 = result_of run1.
Proof.
  split; [apply calm_fault_free|]. split; [apply calm_fault_free|].
  apply (publishing_twice_keeps_live_records (calm 1000) (calm 5000));
    apply calm_fault_free.
Defined.

Lemma same_content_refl_sample :
  Forall2 (fun a b : string * pyval => fst a = fst b ∧ same_content (snd a) (snd b))
          manifest_backwards manifest_backwards.
Proof.
  unfold manifest_backwards, manifest_of. simpl.
  repeat (apply Forall2_cons; [split; [reflexivity|]; try constructor|]); try apply Forall2_nil.
  repeat constructor.
  eapply same_dict; [| apply Permutation_refl |].
  - simpl. apply NoDup_ListNoDup. repeat constructor. intros [].
  - repeat constructor.
Defined.

Lemma content_hash_of_whole_manifest_witness :
  same_content (PDict manifest_forwards) (PDict manifest_backwards) ∧
  _sha256_short (PDict manifest_forwards) = _sha256_short (PDict manifest_backwards) ∧
  (∀ k, In k ["id"; "title"; "version"; "locale"; "questions"] →
        dict_lookup k greetings_doc = dict_lookup k (rev greetings_doc)) ∧
  _build_manifest (PStr "u_1") (PStr "e_1") greetings_doc world0
  = _build_manifest (PStr "u_1") (PStr "e_1") (rev greetings_doc) world0.
Proof.
  assert (Hsame : same_content (PDict manifest_forwards) (PDict manifest_backwards)).
  { eapply same_dict; [| apply Permutation_rev | apply same_content_refl_sample].
    apply NoDup_ListNoDup. vm_compute.
    repeat (constructor; [simpl; intuition discriminate|]). constructor. }
  assert (Hfields : ∀ k, In k ["id"; "title"; "version"; "locale"; "questions"] →
                         dict_lookup k greetings_doc = dict_lookup k (rev greetings_doc)).
  { intros k Hin. simpl in Hin.
    repeat (destruct Hin as [<-|Hin]; [reflexivity|]). destruct Hin. }
  split; [exact Hsame|]. split; [|split; [exact Hfields|]].
  - apply (proj1 content_hash_of_whole_manifest _ _ Hsame).
  - apply (proj2 (proj2 content_hash_of_whole_manifest) _ _ _ _ _ Hfields).
Defined.

Lemma fqid_composition_without_separator_check_witness :
  fault_free (calm 0) ∧
  py_int (dict_get greetings_doc "version" (PInt 1)) = inr 1 ∧
  py_len (dict_get greetings_doc "questions" (PList [])) = inr 1 ∧
  result_of (publish_activity (calm 0) "liwanag-content-bucket" "activities" false
               (PStr "u#1") (PStr "e#1") ("a_1.yaml", FFile (PDict greetings_doc)) world0)
  = Ret tt.
Proof.
  split; [apply calm_fault_free|]. split; [reflexivity|]. split; [reflexivity|].
  apply (proj2 fqid_composition_without_separator_check (calm 0) "liwanag-content-bucket"
           "activities" false (PStr "u#1") (PStr "e#1") "a_1.yaml" greetings_doc 1 1 world0
           (calm_fault_free 0) eq_refl eq_refl).
Defined.

Lemma unit_without_episodes_is_published_witness :
  child "episodes" lone_unit = None ∧
  _discover_unit_yaml [("u_9", FDir lone_unit)] "u_9" lone_unit
  = ret (FFile (PDict [("title", PStr "Solo")])) ∧
  result_of (publish_unit (calm 0) "liwanag-content-bucket" "activities" false
               "../content/units" [("u_9", FDir lone_unit)] ("u_9", FDir lone_unit) world0)
  = Ret tt.
Proof.
  split; [reflexivity|]. split; [reflexivity|].
  destruct (unit_without_episodes_is_published (calm 0) "liwanag-content-bucket" "activities"
              "../content/units" [("u_9", FDir lone_unit)] "u_9" lone_unit
              (PDict [("title", PStr "Solo")]) [("title", PStr "Solo")] [] world0
              eq_refl eq_refl eq_refl eq_refl) as (_ & _ & Hrun & _).
  rewrite Hrun. reflexivity.
Defined.

Lemma dry_run_makes_no_store_call_witness :
  dict_lookup "PK" (sample_record 1 2000) = Some (PStr "ACTIVITY#u_1#e_1#a_1") ∧
  dict_lookup "SK" (sample_record 1 2000) = Some (PStr "LIVE") ∧
  _ddb_put_live (calm 0) (sample_record 1 2000) true true sample_world
  = (Ret tt, sample_world,
     [Stdout ("[DRY] DDB PUT ACTIVITY#u_1#e_1#a_1 LIVE -> "
              ++ json_dumps (PDict (sample_record 1 2000)))]).
Proof.
  split; [reflexivity|]. split; [reflexivity|].
  apply (proj1 (proj2 dry_run_makes_no_store_call) (calm 0) (sample_record 1 2000) true
           (PStr "ACTIVITY#u_1#e_1#a_1") (PStr "LIVE") sample_world eq_refl eq_refl).
Defined.

Lemma missing_document_aborts_run_witness :
  child ("u_9" ++ ".yaml") [] = None ∧
  publish_unit (calm 0) "liwanag-content-bucket" "activities" false "../content/units"
               [("u_9", FDir [])] ("u_9", FDir []) sample_world
  = (Exit 1, sample_world, [Stderr "[ERROR] Unit YAML not found for u_9"]) ∧
  publish_episode (calm 0) "liwanag-content-bucket" "activities" false
                  "../content/units/u_1/episodes" (PStr "u_1") ("e_9", FDir []) sample_world
  = (Exit 1, sample_world,
     [Stderr "[ERROR] Episode YAML not found: ../content/units/u_1/episodes/e_9/e_9.yaml"]) ∧
  for_each ([] ++ ("u_9", FDir []) :: [("u_91", FDir lone_unit)])
           (publish_unit (calm 0) "liwanag-content-bucket" "activities" false
                         "../content/units" [("u_9", FDir [])]) sample_world
  = (Exit 1, sample_world, [Stderr "[ERROR] Unit YAML not found for u_9"]) ∧
  exit_status (result_of (_publish (calm 0) "liwanag-content-bucket" "activities" false
                                   "../content/units" None sample_world)) = 1 ∧
  ticks world0 = ticks sample_world ∧
  exit_status (result_of (_publish (calm 0) "liwanag-content-bucket" "activities" false
                 "../content/units"
                 (Some (one_activity_tree "a_1.yaml" (PDict [("version", PInt 1)]))) world0))
  = exit_status (result_of (_publish (calm 0) "liwanag-content-bucket" "activities" false
                 "../content/units"
                 (Some (one_activity_tree "a_1.yaml" (PDict [("version", PInt 1)])))
                 sample_world)).
Proof.
  destruct missing_document_aborts_run as (Hunit & Hepisode & Hloop & Hrun & Hskip).
  split; [reflexivity|]. split; [|split; [|split; [|split; [|split]]]].
  - apply (Hunit (calm 0) _ _ false _ [("u_9", FDir [])] "u_9" [] sample_world eq_refl eq_refl).
  - apply (Hepisode (calm 0) _ _ false "../content/units/u_1/episodes" (PStr "u_1") "e_9" []
             sample_world eq_refl).
  - apply (Hloop _ _ [] [("u_91", FDir lone_unit)] ("u_9", FDir []) sample_world sample_world
             sample_world [] [Stderr "[ERROR] Unit YAML not found for u_9"] 1 eq_refl).
    apply (Hunit (calm 0) _ _ false _ [("u_9", FDir [])] "u_9" [] sample_world eq_refl eq_refl).
  - destruct (Hrun (calm 0) "liwanag-content-bucket" "activities" false "../content/units" None
                sample_world) as [Herr _].
    apply (Herr "[ERROR] Root not found: ../content/units"). left. reflexivity.
  - reflexivity.
  - apply (Hskip (calm 0) _ _ false _ _ world0 sample_world eq_refl).
Defined.


(* ===================================================================== *)
(** ** Activity files and their stems                                     *)
(* ===================================================================== *)

Lemma substring_all (s : string) : String.substring 0 (String.length s) s = s.
Proof. induction s as [|c s IH]; simpl; [reflexivity | rewrite IH; reflexivity]. Qed.

(** A string is its first [n] characters followed by the rest. *)
Lemma substring_split (n : nat) (s : string) :
  (n ≤ String.length s)%nat →
  s = String.substring 0 n s ++ String.substring n (String.length s - n) s.
Proof.
  revert s. induction n as [|n IH]; intros s Hn; simpl.
  - rewrite Nat.sub_0_r, substring_all. destruct s; reflexivity.
  - destruct s as [|c s]; simpl in *; [lia|].
    rewrite (IH s) at 1 by lia. reflexivity.
Qed.

Lemma ends_with_split (p s : string) :
  ends_with p s = true →
  s = String.substring 0 (String.length s - String.length p) s ++ p.
Proof.
  unfold ends_with. intros H. apply andb_true_iff in H as [Hlen Heq].
  apply Nat.leb_le in Hlen. apply String.eqb_eq in Heq.
  rewrite (substring_split (String.length s - String.length p) s) at 1 by lia.
  replace (String.length s - (String.length s - String.length p))%nat
    with (String.length p) by lia.
  rewrite Heq. reflexivity.
Qed.

Lemma prefix_of_app (p a b : string) :
  (String.length p ≤ String.length a)%nat →
  String.prefix p (a ++ b) = true → String.prefix p a = true.
Proof.
  revert a. induction p as [|c p IH]; intros a Hlen H; simpl in *.
  - destruct a; reflexivity.
  - destruct a as [|c' a]; simpl in *; [lia|].
    destruct (ascii_dec c c'); [|discriminate]. apply IH; [lia | exact H].
Qed.

(** X1. A file name that matches [a_*.yaml] is its stem followed by
    [.yaml], and the stem begins with [a_]; so two activity files with the
    same stem have the same name: the ids an episode lists tell its
    activity files apart. *)
Theorem activity_file_name_and_stem :
  (∀ name, matches_activity name = true →
           name = stem name ++ ".yaml" ∧ starts_with "a_" (stem name) = true) ∧
  (∀ name1 name2,
     matches_activity name1 = true → matches_activity name2 = true →
     stem name1 = stem name2 → name1 = name2).
Proof.
  assert (Hname : ∀ name, matches_activity name = true →
                          name = stem name ++ ".yaml" ∧
                          starts_with "a_" (stem name) = true);
    [|split; [exact Hname|];
      intros name1 name2 H1 H2 Heq;
      rewrite (proj1 (Hname name1 H1)), (proj1 (Hname name2 H2)), Heq; reflexivity].
  intros name H. unfold matches_activity in H.
  apply andb_true_iff in H as [H Hlen]. apply andb_true_iff in H as [Hpre Hsuf].
  apply Nat.leb_le in Hlen.
  pose proof (ends_with_split _ _ Hsuf) as Hsplit. simpl in Hsplit.
  split; [exact Hsplit|].
  unfold starts_with in *. unfold stem.
  rewrite Hsplit in Hpre. apply prefix_of_app in Hpre; [exact Hpre|].
  simpl. assert (Hsub : ∀ n s, (n ≤ String.length s)%nat →
                               String.length (String.substring 0 n s) = n).
  { clear. intros n. induction n as [|n IH]; intros [|c s] H; simpl in *; try lia.
    rewrite IH; lia. }
  rewrite Hsub; lia.
Qed.

(* ===================================================================== *)
(** ** Listings                                                           *)
(* ===================================================================== *)

Lemma filter_In_iff {A : Type} (f : A → bool) (x : A) (l : list A) :
  In x (List.filter f l) ↔ In x l ∧ f x = true.
Proof. apply List.filter_In. Qed.

(** X2. [_list_activity_yaml] returns nothing when the episode has no
    [activities] entry; otherwise exactly the regular files of that
    directory whose name matches [a_*.yaml], in ascending order of name. *)
Theorem activity_listing_is_sorted_and_exact :
  (∀ ep_dir, child "activities" ep_dir = None → _list_activity_yaml ep_dir = []) ∧
  (∀ ep_dir act_dir, child "activities" ep_dir = Some act_dir →
     Sorted (@key_le fsnode) (_list_activity_yaml ep_dir) ∧
     ∀ p, In p (_list_activity_yaml ep_dir) ↔
          In p (entries_of act_dir) ∧ matches_activity (fst p) = true ∧ is_file (snd p) = true).
Proof.
  split.
  - intros ep_dir H. unfold _list_activity_yaml. rewrite H. reflexivity.
  - intros ep_dir act_dir H. unfold _list_activity_yaml. rewrite H. split.
    + apply sort_by_key_sorted.
    + intros p. split.
      * intros Hin. apply (Permutation_in _ (sort_by_key_perm _)) in Hin.
        apply filter_In_iff in Hin as [Hin Hf]. apply andb_true_iff in Hf. tauto.
      * intros (Hin & Hm & Hf).
        apply (Permutation_in _ (Permutation_sym (sort_by_key_perm _))).
        apply filter_In_iff. split; [exact Hin|]. rewrite Hm, Hf. reflexivity.
Qed.

Lemma child_In (name : string) (es : dirlist) (x : fsnode) :
  NoDup (map fst es) → In (name, x) es → child name es = Some x.
Proof.
  induction es as [|[n y] es IH]; intros Hnd Hin; simpl in *; [destruct Hin|].
  apply NoDup_cons in Hnd as [Hn Hnd].
  destruct Hin as [[= -> ->]|Hin].
  - rewrite String.eqb_refl. reflexivity.
  - destruct (String.eqb_spec name n) as [->|Hne]; [|apply IH; assumption].
    exfalso. apply Hn. apply list_elem_of_In. apply (in_map fst _ _ Hin).
Qed.

Lemma child_Some_In (name : string) (es : dirlist) (x : fsnode) :
  child name es = Some x → In (name, x) es.
Proof.
  induction es as [|[n y] es IH]; simpl; [discriminate|].
  destruct (String.eqb_spec name n) as [->|Hne].
  - intros [= ->]. left. reflexivity.
  - intros H. right. apply IH, H.
Qed.

(** With distinct names, what lies under a name does not depend on the
    order of the entries. *)
Lemma child_order_free (name : string) (es es' : dirlist) :
  NoDup (map fst es) → Permutation es es' → child name es = child name es'.
Proof.
  intros Hnd Hperm.
  assert (Hnd' : NoDup (map fst es')).
  { apply NoDup_ListNoDup. eapply Permutation_NoDup; [apply Permutation_map, Hperm|].
    apply NoDup_ListNoDup, Hnd. }
  destruct (child name es) as [x|] eqn:Hx.
  - symmetry. apply child_In; [exact Hnd'|].
    apply (Permutation_in _ Hperm), child_Some_In, Hx.
  - destruct (child name es') as [y|] eqn:Hy; [|reflexivity].
    apply child_Some_In in Hy. apply (Permutation_in _ (Permutation_sym Hperm)) in Hy.
    rewrite (child_In _ _ _ Hnd Hy) in Hx. discriminate.
Qed.

Lemma filter_perm {A : Type} (f : A → bool) (l l' : list A) :
  Permutation l l' → Permutation (List.filter f l) (List.filter f l').
Proof.
  induction 1 as [|x l l' Hp IH|x y l|l1 l2 l3 H1 IH1 H2 IH2]; simpl.
  - constructor.
  - destruct (f x); [constructor|]; exact IH.
  - destruct (f x), (f y); try reflexivity. apply perm_swap.
  - etransitivity; eassumption.
Qed.

Lemma filter_keys_nodup {A : Type} (f : string * A → bool) (l : list (string * A)) :
  NoDup (map fst l) → NoDup (map fst (List.filter f l)).
Proof.
  induction l as [|x l IH]; simpl; intros Hnd; [constructor|].
  apply NoDup_cons in Hnd as [Hx Hnd]. destruct (f x); simpl; [|apply IH, Hnd].
  apply NoDup_cons. split; [|apply IH, Hnd].
  intros Hin. apply Hx. apply list_elem_of_In in Hin. apply list_elem_of_In.
  apply in_map_iff in Hin as (y & Hy & Hin). apply filter_In_iff in Hin as [Hin _].
  rewrite <- Hy. apply in_map, Hin.
Qed.

Lemma sorted_filter_order_free {A : Type} (f : string * A → bool) (l l' : list (string * A)) :
  NoDup (map fst l) → Permutation l l' →
  sort_by_key (List.filter f l) = sort_by_key (List.filter f l').
Proof.
  intros Hnd Hperm. apply sort_by_key_order_free.
  - apply filter_keys_nodup, Hnd.
  - apply filter_perm, Hperm.
Qed.

Lemma for_each_ext {A : Type} (l : list A) (body1 body2 : A → M unit) (w : world) :
  (∀ x w0, body1 x w0 = body2 x w0) → for_each l body1 w = for_each l body2 w.
Proof.
  intros Hb. revert w. induction l as [|x l IH]; intros w; simpl; [reflexivity|].
  rewrite !bind_run, Hb. destruct (body2 x w) as [[[[]|c|y] w1] ev1]; try reflexivity.
  rewrite IH. reflexivity.
Qed.

Lemma discover_unit_order_free (root root' : dirlist) (name : string) (dir : dirlist) :
  NoDup (map fst root) → Permutation root root' →
  _discover_unit_yaml root name dir = _discover_unit_yaml root' name dir.
Proof.
  intros Hnd Hperm. unfold _discover_unit_yaml.
  rewrite (child_order_free _ _ _ Hnd Hperm). reflexivity.
Qed.

(** X3. The order in which a directory lists its entries, their names
    being distinct, changes nothing: not the sorted unit or episode
    directories, not the activity files of an episode, not a run of
    [_publish] over the root. *)
Theorem listing_order_does_not_matter :
  (∀ (pre : string) (es es' : dirlist),
     NoDup (map fst es) → Permutation es es' →
     sorted_subdirs pre es = sorted_subdirs pre es') ∧
  (∀ (es es' rest : dirlist),
     NoDup (map fst es) → Permutation es es' →
     _list_activity_yaml (("activities", FDir es) :: rest)
     = _list_activity_yaml (("activities", FDir es') :: rest)) ∧
  (∀ (e : env) (bucket s3_prefix : string) (dry : bool) (root_path : string)
     (es es' : dirlist) (w : world),
     NoDup (map fst es) → Permutation es es' →
     _publish e bucket s3_prefix dry root_path (Some (FDir es)) w
     = _publish e bucket s3_prefix dry root_path (Some (FDir es')) w).
Proof.
  split; [|split].
  - intros pre es es' Hnd Hperm. apply sorted_filter_order_free; assumption.
  - intros es es' rest Hnd Hperm. unfold _list_activity_yaml. simpl.
    apply sorted_filter_order_free; assumption.
  - intros e bucket s3_prefix dry root_path es es' w Hnd Hperm.
    unfold _publish. simpl. rewrite !bind_ret_l, !bind_run.
    unfold sorted_subdirs. rewrite (sorted_filter_order_free _ es es' Hnd Hperm).
    rewrite (for_each_ext _ (publish_unit e bucket s3_prefix dry root_path es)
               (publish_unit e bucket s3_prefix dry root_path es')); [reflexivity|].
    intros u w0. unfold publish_unit.
    rewrite (discover_unit_order_free es es' _ _ Hnd Hperm). reflexivity.
Qed.

(* ===================================================================== *)
(** ** Single writes                                                      *)
(* ===================================================================== *)

Lemma s3_put_real_run (e : env) (bucket key : string) (obj : pyval) (w : world) :
  fault e (ticks w) = None →
  _s3_put_json e bucket key obj false w
  = (Ret tt,
     {| ddb := ddb w; s3 := <[(bucket, key) := json_object obj]> (s3 w);
        ticks := S (ticks w) |},
     [CallPutObject bucket key (json_object obj);
      Stdout ("[OK ] S3 PUT s3://" ++ bucket ++ "/" ++ key)]).
Proof.
  intros Hf. unfold _s3_put_json, bind, put_object, print. rewrite Hf. reflexivity.
Qed.

Lemma s3_put_real_fail (e : env) (bucket key : string) (obj : pyval) (w : world) (x : exn) :
  fault e (ticks w) = Some x →
  _s3_put_json e bucket key obj false w
  = (Raise x, tick w, [CallPutObject bucket key (json_object obj)]).
Proof.
  intros Hf. unfold _s3_put_json, bind, put_object, print. rewrite Hf. reflexivity.
Qed.

(** X4. A real [_s3_put_json] whose store call does not fail stores the
    JSON text with its content type and cache control under (bucket, key),
    leaves every other object and the table alone, and doing it again with
    the same arguments leaves the bucket as it is; when the store call
    fails, the exception goes up, the bucket is unchanged and no OK line is
    printed. *)
Theorem s3_put_stores_object
    (e : env) (bucket key : string) (obj : pyval) (w : world) :
  let run := _s3_put_json e bucket key obj false w in
  (fault e (ticks w) = None →
     run = (Ret tt,
            {| ddb := ddb w; s3 := <[(bucket, key) := json_object obj]> (s3 w);
               ticks := S (ticks w) |},
            [CallPutObject bucket key (json_object obj);
             Stdout ("[OK ] S3 PUT s3://" ++ bucket ++ "/" ++ key)]) ∧
     s3 (world_of run) !! (bucket, key) = Some (json_object obj) ∧
     (∀ k', k' ≠ (bucket, key) → s3 (world_of run) !! k' = s3 w !! k') ∧
     (∀ e', fault e' (ticks (world_of run)) = None →
            s3 (world_of (_s3_put_json e' bucket key obj false (world_of run)))
            = s3 (world_of run))) ∧
  (∀ x, fault e (ticks w) = Some x →
        run = (Raise x, tick w, [CallPutObject bucket key (json_object obj)])).
Proof.
  intros run. split.
  - intros Hf.
    assert (Hrun : run = (Ret tt,
              {| ddb := ddb w; s3 := <[(bucket, key) := json_object obj]> (s3 w);
                 ticks := S (ticks w) |},
              [CallPutObject bucket key (json_object obj);
               Stdout ("[OK ] S3 PUT s3://" ++ bucket ++ "/" ++ key)])).
    { apply s3_put_real_run, Hf. }
    split; [exact Hrun|]. rewrite Hrun. unfold world_of. simpl.
    split; [apply lookup_insert_eq|]. split.
    + intros k' Hne. apply lookup_insert_ne. congruence.
    + intros e' Hf'. unfold _s3_put_json, bind, put_object, print. simpl in *.
      rewrite Hf'. simpl. apply insert_insert_eq.
  - intros x Hf. apply s3_put_real_fail, Hf.
Qed.

(** X5. Without the guard, or with the guard asked for an item that has no
    [version], [_ddb_put_live] replaces whatever lies under the key of the
    item, also a record of a higher version, and sends no condition. *)
Theorem put_without_version_guard_overwrites
    (e : env) (item : pydict) (guard_version : bool) (k : string * string) (w : world) :
  fault e (ticks w) = None →
  item_key item = Some k →
  guard_version = false ∨ dict_lookup "version" item = None →
  let run := _ddb_put_live e item guard_version false w in
  result_of run = Ret tt ∧
  ddb (world_of run) = <[k := item]> (ddb w) ∧
  put_calls (events_of run) = [{| Item := item; Newv := None |}].
Proof.
  intros Hf Hk Hg run. destruct k as [pk sk].
  destruct (item_key_lookups _ _ _ Hk) as [Hpk Hsk].
  assert (Hnewv : (if guard_version then dict_lookup "version" item else None) = None).
  { destruct Hg as [->| ->]; [reflexivity | destruct guard_version; reflexivity]. }
  unfold run, _ddb_put_live, try_client_error, bind, put_item, getitem, print, ret,
    result_of, world_of, events_of. simpl.
  rewrite Hnewv, Hf. simpl. rewrite Hk, Hpk, Hsk. simpl. auto.
Qed.

(* ===================================================================== *)
(** ** What a run leaves alone                                            *)
(* ===================================================================== *)

Lemma starts_with_app (p s : string) : starts_with p (p ++ s) = true.
Proof.
  unfold starts_with. induction p as [|c p IH]; simpl.
  - destruct s; reflexivity.
  - destruct (ascii_dec c c); [exact IH | contradiction].
Qed.

(** What [_s3_put_json] does to the stores, in all cases. *)
Lemma s3_put_outcome (e : env) (bucket key : string) (obj : pyval) (dry : bool) (w : world) :
  let run := _s3_put_json e bucket key obj dry w in
  ddb (world_of run) = ddb w ∧
  (s3 (world_of run) = s3 w ∧ (dry = true ∨ ∃ x, result_of run = Raise x) ∨
   dry = false ∧ result_of run = Ret tt ∧
   s3 (world_of run) = <[(bucket, key) := json_object obj]> (s3 w)).
Proof.
  unfold _s3_put_json, bind, put_object, print, world_of, result_of.
  destruct dry; simpl; [auto|].
  destruct (fault e (ticks w)); simpl; eauto 7.
Qed.

Lemma only_adds_refl (bucket : string) (w : world) : only_adds bucket w w.
Proof. repeat split; auto. Qed.

Lemma only_adds_trans (bucket : string) (w1 w2 w3 : world) :
  only_adds bucket w1 w2 → only_adds bucket w2 w3 → only_adds bucket w1 w3.
Proof.
  intros (Hd1 & Hs1 & Hl1 & Hb1) (Hd2 & Hs2 & Hl2 & Hb2). repeat split.
  - intros k H. auto.
  - intros k H. auto.
  - intros k H. rewrite Hl2, Hl1; auto.
  - intros b key H. rewrite Hb2, Hb1; auto.
Qed.

Lemma only_adds_same (bucket : string) (w w' : world) :
  ddb w' = ddb w → s3 w' = s3 w → only_adds bucket w w'.
Proof. intros Hd Hs. unfold only_adds. rewrite Hd, Hs. repeat split; auto. Qed.

Lemma only_adds_put_live (e : env) (bucket : string) (item : pydict) (g dry : bool)
    (k : string * string) (w : world) :
  item_key item = Some k → is_live_key k = true →
  only_adds bucket w (world_of (_ddb_put_live e item g dry w)).
Proof.
  intros Hk Hlive.
  destruct (put_live_effect e item g dry w) as [Hs3 [Hsame | (_ & k' & Hk' & Hins & _)]].
  - apply only_adds_same; assumption.
  - rewrite Hk in Hk'. injection Hk' as <-. unfold only_adds. rewrite Hs3, Hins.
    repeat split; auto.
    + intros k0 H. destruct (decide (k = k0)) as [->|Hne].
      * rewrite lookup_insert_eq. eauto.
      * rewrite lookup_insert_ne by exact Hne. exact H.
    + intros k0 H. apply lookup_insert_ne. intros ->. congruence.
Qed.

(** X6. A run of [_publish] removes nothing from the table or the bucket,
    changes no record of the table outside the keys with sort key [LIVE]
    and a partition key that begins with [UNIT#], [EPISODE#] or
    [ACTIVITY#], and no object of another bucket. *)
Theorem publish_only_adds
    (e : env) (bucket s3_prefix : string) (dry : bool) (root_path : string)
    (root : option fsnode) (w : world) :
  only_adds bucket w (world_of (_publish e bucket s3_prefix dry root_path root w)).
Proof.
  assert (Hev : ∀ l : list event, Forall (fun _ => True) l).
  { intros l. apply Forall_forall. auto. }
  apply (@inv_publish (only_adds bucket) (fun _ => True)).
  - apply only_adds_refl.
  - apply only_adds_trans.
  - intros w0. apply only_adds_same; reflexivity.
  - intros; exact I.
  - intros; exact I.
  - intros key obj w0. split; [|apply Hev].
    destruct (s3_put_outcome e bucket key obj dry w0) as [Hd [[Hs _] | (_ & _ & Hs)]].
    + apply only_adds_same; assumption.
    + unfold only_adds. rewrite Hd, Hs. repeat split; auto.
      * intros k0 H. destruct (decide ((bucket, key) = k0)) as [<-|Hne].
        -- rewrite lookup_insert_eq. eauto.
        -- rewrite lookup_insert_ne by exact Hne. exact H.
      * intros b key' Hb. apply lookup_insert_ne. congruence.
  - intros unit_id title content names t w0. split; [|apply Hev].
    eapply only_adds_put_live; [reflexivity|].
    unfold is_live_key. simpl. rewrite starts_with_app. reflexivity.
  - intros unit_id episode_id title stems t w0. split; [|apply Hev].
    eapply only_adds_put_live; [reflexivity|].
    unfold is_live_key. simpl. rewrite starts_with_app. simpl. rewrite ?orb_true_r. reflexivity.
  - intros key unit_id episode_id activity_id title locale total version t w0.
    split; [|apply Hev].
    eapply only_adds_put_live; [reflexivity|].
    unfold is_live_key. simpl. rewrite starts_with_app. simpl. rewrite ?orb_true_r. reflexivity.
Qed.

(* ===================================================================== *)
(** ** The activity step                                                  *)
(* ===================================================================== *)

Lemma bind_pure_run {A B : Type} (m : M A) (f : A → M B) (a : A) (w : world) :
  (∀ w0, m w0 = (Ret a, w0, [])) → bind m f w = f a w.
Proof.
  intros Hm. unfold bind. rewrite Hm. destruct (f a w) as [[r w2] ev2]. reflexivity.
Qed.

Lemma build_manifest_run (unit_id episode_id : pyval) (a_yaml : pydict) (version total : Z)
    (w : world) :
  py_int (dict_get a_yaml "version" (PInt 1)) = inr version →
  py_len (dict_get a_yaml "questions" (PList [])) = inr total →
  _build_manifest unit_id episode_id a_yaml w
  = (Ret (manifest_for unit_id episode_id a_yaml version total), w, []).
Proof. intros Hv Ht. unfold _build_manifest. rewrite Hv, Ht. reflexivity. Qed.

(** The activity step of a document that is a mapping with a version that
    is an integer and questions that have a length: the manifest goes to
    the bucket, then the live record to the table. *)
Lemma publish_activity_run
    (e : env) (bucket s3_prefix : string) (dry : bool) (unit_id episode_id : pyval)
    (file : string) (v : pyval) (a_yaml : pydict) (version total : Z) (w : world) :
  py_or v (PDict []) = PDict a_yaml →
  py_int (dict_get a_yaml "version" (PInt 1)) = inr version →
  py_len (dict_get a_yaml "questions" (PList [])) = inr total →
  let activity_id := activity_id_of file a_yaml in
  let manifest := manifest_for unit_id episode_id a_yaml version total in
  let key := manifest_key s3_prefix unit_id episode_id activity_id version manifest in
  publish_activity e bucket s3_prefix dry unit_id episode_id (file, FFile v) w
  = (_s3_put_json e bucket key (PDict manifest) dry ;;;
     updated_at <- time_now e ;;
     _ddb_put_live e
       (activity_live_item bucket key unit_id episode_id activity_id
          (dict_get a_yaml "title" activity_id) (dict_get a_yaml "locale" (PStr "en-US"))
          (PInt total) version updated_at)
       true dry) w.
Proof.
  intros Hmap Hv Ht activity_id manifest key.
  unfold publish_activity. cbn [fst snd _load_yaml]. rewrite Hmap, bind_ret_l.
  rewrite Hv. cbn [lift]. rewrite bind_ret_l.
  rewrite (bind_pure_run _ _ manifest); [|intros w0; apply build_manifest_run; assumption].
  change (getitem manifest "version") with (ret (A := pyval) (PInt version)).
  rewrite bind_ret_l.
  rewrite !bind_run. destruct (_s3_put_json _ _ _ _ _ _) as [[[[]|c|x] w1] ev1]; try reflexivity.
  change (getitem manifest "total") with (ret (A := pyval) (PInt total)).
  rewrite bind_ret_l. reflexivity.
Qed.

(** X7. In a real run, the step for an activity whose document is a
    mapping with a version that is an integer and questions that have a
    length first puts the manifest, as JSON, under the key made of the
    prefix, the three ids, the version and the content hash; if that call
    fails nothing else is done for the activity; if not, it then asks the
    table, under the version guard, for the live record that names this
    very object in [manifestS3Key] and carries the manifest's version and
    question count, and makes no further store call. *)
Theorem activity_step_stores_manifest_then_pointer
    (e : env) (bucket s3_prefix : string) (unit_id episode_id : pyval)
    (file : string) (v : pyval) (a_yaml : pydict) (version total : Z) (w : world) :
  py_or v (PDict []) = PDict a_yaml →
  py_int (dict_get a_yaml "version" (PInt 1)) = inr version →
  py_len (dict_get a_yaml "questions" (PList [])) = inr total →
  let activity_id := activity_id_of file a_yaml in
  let manifest := manifest_for unit_id episode_id a_yaml version total in
  let key := manifest_key s3_prefix unit_id episode_id activity_id version manifest in
  let item :=
    activity_live_item bucket key unit_id episode_id activity_id
      (dict_get a_yaml "title" activity_id) (dict_get a_yaml "locale" (PStr "en-US"))
      (PInt total) version (now e (S (ticks w))) in
  let run := publish_activity e bucket s3_prefix false unit_id episode_id (file, FFile v) w in
  (∀ x, fault e (ticks w) = Some x →
        run = (Raise x, tick w, [CallPutObject bucket key (json_object (PDict manifest))])) ∧
  (fault e (ticks w) = None →
     ∃ r w' tail,
       run = (r, w',
              CallPutObject bucket key (json_object (PDict manifest))
              :: Stdout ("[OK ] S3 PUT s3://" ++ bucket ++ "/" ++ key)
              :: CallPutItem {| Item := item; Newv := Some (PInt version) |}
              :: tail) ∧
       s3 w' = <[(bucket, key) := json_object (PDict manifest)]> (s3 w) ∧
       Forall (fun ev => is_store_call ev = false) tail) ∧
  dict_lookup "manifestS3Key" item = Some (PStr ("s3://" ++ bucket ++ "/" ++ key)) ∧
  dict_lookup "version" item = dict_lookup "version" manifest ∧
  dict_lookup "totalQuestions" item = dict_lookup "total" manifest.
Proof.
  intros Hmap Hv Ht activity_id manifest key item run.
  pose proof (publish_activity_run e bucket s3_prefix false unit_id episode_id file v a_yaml
                version total w Hmap Hv Ht) as Hrun.
  cbv zeta in Hrun. fold activity_id manifest key in Hrun. fold run in Hrun.
  split; [|split; [|repeat split]].
  - intros x Hf. rewrite Hrun. apply bind_raise_run. apply s3_put_real_fail, Hf.
  - intros Hf. rewrite Hrun.
    pose proof (s3_put_real_run e bucket key (PDict manifest) w Hf) as Hs3.
    rewrite (bind_ret_run _ _ _ _ _ _ Hs3), bind_time_run.
    set (w2 := tick _).
    pose proof (put_live_effect e item true false w2) as [Hkeep _].
    pose proof (put_live_events e item true false w2) as Hevs.
    destruct (put_live_first_event e item true w2) as (r & w' & ev & Hput).
    change (now e (ticks {| ddb := ddb w;
                            s3 := <[(bucket, key):=json_object (PDict manifest)]> (s3 w);
                            ticks := S (ticks w) |})) with (now e (S (ticks w))).
    fold item. rewrite Hput in *. unfold result_of, world_of, events_of in *. simpl in *.
    exists r, w', ev. split; [reflexivity|]. split; [exact Hkeep|].
    apply Forall_cons in Hevs as [_ Hevs].
    pose proof (put_live_calls e item true false w2) as Hcalls.
    rewrite Hput in Hcalls. unfold events_of in Hcalls. simpl in Hcalls.
    injection Hcalls as Hcalls.
    clear - Hcalls Hevs. revert Hcalls Hevs.
    induction ev as [|x ev IH]; intros Hcalls Hevs; [constructor|].
    apply Forall_cons in Hevs as [Hx Hevs].
    destruct x as [line|line|kw|b k o]; simpl in *; try discriminate; try contradiction;
      (constructor; [reflexivity | apply IH; assumption]).
Qed.

(* ===================================================================== *)
(** ** Live records point at stored manifests                             *)
(* ===================================================================== *)

Lemma bind_keeps {A B : Type} (P Pmid Pend : world → Prop) (m : M A) (f : A → M B) :
  (∀ w, P w →
        match result_of (m w) with
        | Ret _ => Pmid (world_of (m w))
        | _ => Pend (world_of (m w))
        end) →
  (∀ a w1, Pmid w1 → Pend (world_of (f a w1))) →
  ∀ w, P w → Pend (world_of (bind m f w)).
Proof.
  intros Hm Hf w HP. specialize (Hm w HP). rewrite bind_run.
  unfold result_of, world_of in *.
  destruct (m w) as [[[a|c|x] w1] ev1]; simpl in *; try exact Hm.
  apply Hf, Hm.
Qed.

Lemma pointers_resolve_same (bucket : string) (w w' : world) :
  ddb w' = ddb w → s3 w' = s3 w → pointers_resolve bucket w → pointers_resolve bucket w'.
Proof. intros Hd Hs H. unfold pointers_resolve. rewrite Hd, Hs. exact H. Qed.

Lemma pointers_resolve_other_entity (e : env) (bucket : string) (item : pydict) (g dry : bool)
    (w : world) :
  dict_lookup "entityType" item ≠ Some (PStr "ACTIVITY_LIVE") →
  pointers_resolve bucket w →
  pointers_resolve bucket (world_of (_ddb_put_live e item g dry w)).
Proof.
  intros Hty HI.
  destruct (put_live_effect e item g dry w) as [Hs3 [Hsame | (_ & k' & _ & Hins & _)]].
  - apply (pointers_resolve_same _ w); assumption.
  - intros k it Hk Hent. rewrite Hs3. rewrite Hins in Hk.
    destruct (decide (k' = k)) as [->|Hne].
    + rewrite lookup_insert_eq in Hk. injection Hk as <-. contradiction.
    + rewrite lookup_insert_ne in Hk by exact Hne. eauto.
Qed.

Lemma pointers_resolve_activity_step (e : env) (bucket s3_prefix : string) (dry : bool)
    (unit_id episode_id : pyval) (a_path : string * fsnode) (w : world) :
  pointers_resolve bucket w →
  pointers_resolve bucket
    (world_of (publish_activity e bucket s3_prefix dry unit_id episode_id a_path w)).
Proof.
  set (P := pointers_resolve bucket).
  assert (Hsteady : ∀ (A : Type) (m : M A), steady m →
             ∀ w0, P w0 → match result_of (m w0) with
                          | Ret _ => P (world_of (m w0))
                          | _ => P (world_of (m w0))
                          end).
  { intros A m (r & ev & _ & Hm) w0 HP. rewrite Hm. unfold result_of, world_of. simpl.
    destruct r; exact HP. }
  revert w. unfold publish_activity.
  apply (bind_keeps P P P); [apply Hsteady, steady_load_yaml | intros a_yaml].
  apply (bind_keeps P P P); [apply Hsteady, steady_lift | intros version].
  apply (bind_keeps P P P); [apply Hsteady, steady_build_manifest | intros manifest].
  apply (bind_keeps P P P); [apply Hsteady, steady_getitem | intros mversion].
  set (key := s3_prefix ++ _).
  set (Pmid := fun w1 => P w1 ∧ (dry = true ∨ is_Some (s3 w1 !! (bucket, key)))).
  apply (bind_keeps P Pmid P).
  { intros w0 HP.
    destruct (s3_put_outcome e bucket key (PDict manifest) dry w0)
      as [Hd [[Hs [Hdry | [x Hx]]] | (Hdry & Hret & Hs)]].
    - assert (HP' : P (world_of (_s3_put_json e bucket key (PDict manifest) dry w0))).
      { apply (pointers_resolve_same _ w0); assumption. }
      destruct (result_of _); [split; [exact HP' | left; exact Hdry] | exact HP' | exact HP'].
    - rewrite Hx. apply (pointers_resolve_same _ w0); assumption.
    - rewrite Hret. split.
      + intros k it Hk Hent. rewrite Hd in Hk. destruct (HP k it Hk Hent) as (key' & Hkey & Hsome).
        exists key'. split; [exact Hkey|]. rewrite Hs.
        destruct (decide ((bucket, key) = (bucket, key'))) as [->|Hne].
        * rewrite lookup_insert_eq. eauto.
        * rewrite lookup_insert_ne by exact Hne. exact Hsome.
      + right. rewrite Hs, lookup_insert_eq. eauto. }
  intros _.
  assert (Hfin : ∀ (A : Type) (m : M A), steady m →
             ∀ w0, Pmid w0 → match result_of (m w0) with
                             | Ret _ => Pmid (world_of (m w0))
                             | _ => P (world_of (m w0))
                             end).
  { intros A m (r & ev & _ & Hm) w0 HP. rewrite Hm. unfold result_of, world_of. simpl.
    destruct r; [exact HP | apply HP | apply HP]. }
  apply (bind_keeps Pmid Pmid P); [apply Hfin, steady_getitem | intros total].
  apply (bind_keeps Pmid Pmid P).
  { intros w0 HP. unfold time_now, result_of, world_of. simpl. exact HP. }
  intros t w1 [HP Hobj].
  set (item := activity_live_item _ _ _ _ _ _ _ _ _ _).
  destruct (put_live_effect e item true dry w1) as [Hs3 [Hsame | (Hdry & k' & _ & Hins & _)]].
  - apply (pointers_resolve_same _ w1); assumption.
  - intros k it Hk Hent. rewrite Hs3. rewrite Hins in Hk.
    destruct (decide (k' = k)) as [->|Hne].
    + rewrite lookup_insert_eq in Hk. injection Hk as <-.
      exists key. split; [reflexivity|]. destruct Hobj as [Hd|Hobj]; [congruence | exact Hobj].
    + rewrite lookup_insert_ne in Hk by exact Hne. eauto.
Qed.

(** X8. If every Activity live record of the table names an object held by
    the bucket, the same holds after a run of [_publish] with that bucket,
    whatever fails during the run: the manifest is stored before the record
    that points to it is written, and nothing is removed. *)
Theorem publish_keeps_pointers_resolved
    (e : env) (bucket s3_prefix : string) (dry : bool) (root_path : string)
    (root : option fsnode) (w : world) :
  pointers_resolve bucket w →
  pointers_resolve bucket (world_of (_publish e bucket s3_prefix dry root_path root w)).
Proof.
  apply (@spec_publish_tree
           (fun w _ w' _ => pointers_resolve bucket w → pointers_resolve bucket w')).
  - auto.
  - auto.
  - intros w1 w2 w3 ev1 ev2 k H1 H2 H. auto.
  - intros w0 H. exact H.
  - auto.
  - auto.
  - intros unit_id title content names t w0.
    apply pointers_resolve_other_entity. discriminate.
  - intros unit_id episode_id title stems t w0.
    apply pointers_resolve_other_entity. discriminate.
  - intros unit_id episode_id a_path w0. apply pointers_resolve_activity_step.
Qed.

(* ===================================================================== *)
(** ** Documents that cannot be published                                 *)
(* ===================================================================== *)

Lemma for_each_raises {A : Type} (body : A → M unit) (pre post : list A) (x : A)
    (w w1 w2 : world) (ev1 ev2 : list event) (err : exn) :
  for_each pre body w = (Ret tt, w1, ev1) →
  body x w1 = (Raise err, w2, ev2) →
  for_each (pre ++ x :: post) body w = (Raise err, w2, (ev1 ++ ev2)%list).
Proof.
  intros Hpre Hx. rewrite (for_each_app_run _ _ _ _ _ _ Hpre). simpl.
  rewrite (bind_raise_run _ _ _ _ _ _ Hx). reflexivity.
Qed.

(** X9. An activity document whose version cannot be made an integer, or
    whose questions have no length, stops the run with the exception before
    any store call is made for that activity, in a dry run as in a real
    one; the activities that follow it are not processed. A [version] or
    [questions] key that is present with the value [None] is such a case:
    the default is taken only when the key is absent. *)
Theorem malformed_activity_stops_before_any_store_call
    (e : env) (bucket s3_prefix : string) (dry : bool) (unit_id episode_id : pyval)
    (file : string) (v : pyval) (a_yaml : pydict) :
  py_or v (PDict []) = PDict a_yaml →
  (∀ x w, py_int (dict_get a_yaml "version" (PInt 1)) = inl x →
          publish_activity e bucket s3_prefix dry unit_id episode_id (file, FFile v) w
          = (Raise x, w, [])) ∧
  (∀ version x w,
     py_int (dict_get a_yaml "version" (PInt 1)) = inr version →
     py_len (dict_get a_yaml "questions" (PList [])) = inl x →
     publish_activity e bucket s3_prefix dry unit_id episode_id (file, FFile v) w
     = (Raise x, w, [])) ∧
  (∀ x w pre post w1 ev1,
     publish_activity e bucket s3_prefix dry unit_id episode_id (file, FFile v) w1
     = (Raise x, w1, []) →
     for_each pre (publish_activity e bucket s3_prefix dry unit_id episode_id) w
     = (Ret tt, w1, ev1) →
     for_each (pre ++ (file, FFile v) :: post)
              (publish_activity e bucket s3_prefix dry unit_id episode_id) w
     = (Raise x, w1, ev1)) ∧
  (dict_lookup "version" a_yaml = Some PNone →
   py_int (dict_get a_yaml "version" (PInt 1)) = inl (PyError "TypeError")) ∧
  (dict_lookup "questions" a_yaml = Some PNone →
   py_len (dict_get a_yaml "questions" (PList [])) = inl (PyError "TypeError")).
Proof.
  intros Hmap. split; [|split; [|split; [|split]]].
  - intros x w Hv. unfold publish_activity. cbn [fst snd _load_yaml].
    rewrite Hmap, bind_ret_l, Hv. reflexivity.
  - intros version x w Hv Ht. unfold publish_activity. cbn [fst snd _load_yaml].
    rewrite Hmap, bind_ret_l, Hv. cbn [lift]. rewrite bind_ret_l.
    apply bind_raise_run. unfold _build_manifest. rewrite Hv, Ht. reflexivity.
  - intros x w pre post w1 ev1 Hx Hpre.
    rewrite (for_each_raises _ pre post _ w w1 w1 ev1 [] x Hpre Hx).
    rewrite app_nil_r. reflexivity.
  - intros H. unfold dict_get. rewrite H. reflexivity.
  - intros H. unfold dict_get. rewrite H. reflexivity.
Qed.

(* ===================================================================== *)
(** ** Activity ids listed by the episode and the key of the activity     *)
(* ===================================================================== *)



(* ===================================================================== *)
(** ** The last line of a run                                             *)
(* ===================================================================== *)

Lemma not_done (p s : string) :
  starts_with p "[DONE] publish complete." = false → Stdout (p ++ s) ≠ done_line.
Proof.
  intros H [= Heq]. rewrite <- Heq, starts_with_app in H. discriminate.
Qed.

Lemma quiet_ret {A : Type} (a : A) : quiet (ret a).
Proof. intros w. constructor. Qed.

Lemma quiet_raise {A : Type} (x : exn) : quiet (@raise A x).
Proof. intros w. constructor. Qed.

Lemma quiet_lift {A : Type} (r : exn + A) : quiet (lift r).
Proof. destruct r; [apply quiet_raise | apply quiet_ret]. Qed.

Lemma quiet_die {A : Type} (msg : string) : quiet (@_die A msg).
Proof. intros w. repeat constructor. discriminate. Qed.

Lemma quiet_bind {A B : Type} (m : M A) (f : A → M B) :
  quiet m → (∀ a, quiet (f a)) → quiet (bind m f).
Proof.
  intros Hm Hf w. specialize (Hm w). rewrite bind_run. unfold events_of in *.
  destruct (m w) as [[[a|c|x] w1] ev1]; simpl in *; try assumption.
  apply Forall_app. split; [exact Hm | apply Hf].
Qed.

Lemma quiet_for_each {A : Type} (l : list A) (body : A → M unit) :
  (∀ x, quiet (body x)) → quiet (for_each l body).
Proof.
  intros Hb. induction l as [|x l IH]; simpl.
  - apply quiet_ret.
  - apply quiet_bind; [apply Hb | intros _; exact IH].
Qed.

Lemma quiet_getitem (d : pydict) (k : string) : quiet (getitem d k).
Proof. unfold getitem. destruct (dict_lookup k d); [apply quiet_ret | apply quiet_raise]. Qed.

Lemma quiet_load_yaml (f : fsnode) : quiet (_load_yaml f).
Proof.
  destruct f as [v|es]; simpl; [|apply quiet_raise].
  destruct (py_or v (PDict [])); first [apply quiet_raise | apply quiet_ret].
Qed.

Lemma quiet_iterdir (x : fsnode) : quiet (iterdir x).
Proof. destruct x; [apply quiet_raise | apply quiet_ret]. Qed.

Lemma quiet_s3_put (e : env) (bucket key : string) (obj : pyval) (dry : bool) :
  quiet (_s3_put_json e bucket key obj dry).
Proof.
  intros w. unfold _s3_put_json, bind, put_object, print, events_of.
  repeat (case_match; simpl in *; simplify_eq);
    repeat (apply List.Forall_cons || apply List.Forall_nil);
    try discriminate; apply not_done; reflexivity.
Qed.

Lemma quiet_put_live (e : env) (item : pydict) (guard_version dry : bool) :
  quiet (_ddb_put_live e item guard_version dry).
Proof.
  intros w.
  unfold _ddb_put_live, try_client_error, bind, put_item, getitem, print, ret, raise, events_of.
  repeat (case_match; simpl in *; simplify_eq);
    repeat (apply List.Forall_cons || apply List.Forall_nil);
    try discriminate; apply not_done; reflexivity.
Qed.

Lemma quiet_publish_activity (e : env) (bucket s3_prefix : string) (dry : bool)
    (unit_id episode_id : pyval) (a_path : string * fsnode) :
  quiet (publish_activity e bucket s3_prefix dry unit_id episode_id a_path).
Proof.
  unfold publish_activity.
  apply quiet_bind; [apply quiet_load_yaml | intros a_yaml].
  apply quiet_bind; [apply quiet_lift | intros version].
  apply quiet_bind; [|intros manifest].
  { unfold _build_manifest.
    apply quiet_bind; [apply quiet_lift | intros v].
    apply quiet_bind; [apply quiet_lift | intros t]. apply quiet_ret. }
  apply quiet_bind; [apply quiet_getitem | intros mversion].
  apply quiet_bind; [apply quiet_s3_put | intros _].
  apply quiet_bind; [apply quiet_getitem | intros total].
  apply quiet_bind; [intros w; constructor | intros t].
  apply quiet_put_live.
Qed.

Lemma quiet_publish_unit (e : env) (bucket s3_prefix : string) (dry : bool)
    (root_path : string) (root : dirlist) (unit_dir : string * fsnode) :
  quiet (publish_unit e bucket s3_prefix dry root_path root unit_dir).
Proof.
  unfold publish_unit.
  apply quiet_bind; [|intros doc].
  { unfold _discover_unit_yaml.
    destruct (child _ _); [apply quiet_ret|].
    destruct (child _ _); [apply quiet_ret | apply quiet_die]. }
  apply quiet_bind; [apply quiet_load_yaml | intros unit_yaml].
  apply quiet_bind.
  { destruct (child "episodes" (entries_of unit_dir.2)); [|apply quiet_ret].
    apply quiet_bind; [apply quiet_iterdir | intros es; apply quiet_ret]. }
  intros ep_dirs.
  apply quiet_bind; [intros w; constructor | intros t].
  apply quiet_bind; [apply quiet_put_live | intros _].
  destruct (child "episodes" (entries_of unit_dir.2)).
  - apply quiet_bind; [apply quiet_iterdir | intros es].
    apply quiet_for_each. intros ep. unfold publish_episode.
    apply quiet_bind; [|intros doc'].
    { unfold _discover_episode_yaml.
      destruct (child _ _); [apply quiet_ret | apply quiet_die]. }
    apply quiet_bind; [apply quiet_load_yaml | intros ep_yaml].
    apply quiet_bind; [intros w; constructor | intros t'].
    apply quiet_bind; [apply quiet_put_live | intros _].
    apply quiet_for_each. intros a. apply quiet_publish_activity.
  - intros w. repeat constructor. apply not_done. reflexivity.
Qed.

(** X11. The line [[DONE] publish complete.] is printed exactly by the runs
    of [_publish] that end normally: such a run prints it once, as the last
    thing it does, and a run that ends by [sys.exit] or by an exception
    does not print it at all. *)
Theorem done_line_marks_normal_end
    (e : env) (bucket s3_prefix : string) (dry : bool) (root_path : string)
    (root : option fsnode) (w : world) :
  let run := _publish e bucket s3_prefix dry root_path root w in
  (result_of run = Ret tt →
     ∃ ev, events_of run = (ev ++ [done_line])%list ∧ ¬ In done_line ev) ∧
  (result_of run ≠ Ret tt → ¬ In done_line (events_of run)).
Proof.
  intros run. unfold run, _publish.
  destruct root as [[v|es]|]; simpl.
  - split; [discriminate | intros _ []].
  - rewrite bind_ret_l, bind_run.
    pose proof (quiet_for_each (sorted_subdirs "u_" es)
                  (publish_unit e bucket s3_prefix dry root_path es)
                  (fun u => quiet_publish_unit e bucket s3_prefix dry root_path es u) w) as Hq.
    unfold events_of in Hq.
    destruct (for_each _ _ w) as [[[[]|c|x] w1] ev1]; simpl in *.
    + split; [|intros H; exfalso; apply H; reflexivity]. intros _. exists ev1. split; [reflexivity|].
      intros Hin. rewrite List.Forall_forall in Hq. exact (Hq _ Hin eq_refl).
    + split; [discriminate|]. intros _ Hin.
      rewrite List.Forall_forall in Hq. exact (Hq _ Hin eq_refl).
    + split; [discriminate|]. intros _ Hin.
      rewrite List.Forall_forall in Hq. exact (Hq _ Hin eq_refl).
  - split; [discriminate|]. intros _ [H|[]]. discriminate.
Qed.

(* ===================================================================== *)
(** ** The entry point                                                    *)
(* ===================================================================== *)

(** X13. [main] stops with [[ERROR] Set CONTENT_TABLE] or
    [[ERROR] Set CONTENT_BUCKET], exit status 1 and no store call, when the
    variable is set to the empty text, the table being looked at first; a
    variable that is not set stands for its default and the run goes on.
    The region never stops a run, since an unset or empty [AWS_REGION] and
    [AWS_DEFAULT_REGION] give [us-west-1]: in every other case [main] is
    the run of [_publish] on the bucket, the prefix without the slashes
    around it, and the root path. *)
Theorem main_checks_configuration
    (e : env) (environ : gmap string string) (args : cli_args) (root : option fsnode)
    (w : world) :
  let bucket := environ_get_or environ "CONTENT_BUCKET" "liwanag-content-bucket" in
  (environ !! "CONTENT_TABLE" = Some EmptyString →
     main e environ args root w = (Exit 1, w, [Stderr "[ERROR] Set CONTENT_TABLE"])) ∧
  (environ !! "CONTENT_TABLE" ≠ Some EmptyString →
   environ !! "CONTENT_BUCKET" = Some EmptyString →
     main e environ args root w = (Exit 1, w, [Stderr "[ERROR] Set CONTENT_BUCKET"])) ∧
  (environ !! "CONTENT_TABLE" ≠ Some EmptyString →
   environ !! "CONTENT_BUCKET" ≠ Some EmptyString →
     main e environ args root w
     = _publish e bucket (strip_char slash (args_prefix args)) (args_dry_run args)
                (path_str (args_root args)) root w) ∧
  (environ !! "CONTENT_BUCKET" = None → bucket = "liwanag-content-bucket").
Proof.
  intros bucket.
  assert (Hregion : truthy (py_or (py_or (environ_get environ "AWS_REGION")
                                         (environ_get environ "AWS_DEFAULT_REGION"))
                                  (PStr "us-west-1")) = true).
  { unfold py_or.
    destruct (truthy (environ_get environ "AWS_REGION")) eqn:H1;
      [rewrite H1; exact H1|].
    destruct (truthy (environ_get environ "AWS_DEFAULT_REGION")) eqn:H2;
      rewrite ?H2; reflexivity. }
  assert (Hnonempty : ∀ k dflt, dflt ≠ EmptyString → environ !! k ≠ Some EmptyString →
                                truthy (PStr (environ_get_or environ k dflt)) = true).
  { intros k dflt Hd Hk. unfold environ_get_or. simpl.
    destruct (environ !! k) as [v|]; apply negb_true_iff, String.eqb_neq; congruence. }
  unfold main, require. rewrite Hregion, bind_ret_l.
  split; [|split; [|split]].
  - intros Ht. unfold environ_get_or at 1. rewrite Ht. reflexivity.
  - intros Ht Hb. rewrite (Hnonempty "CONTENT_TABLE" "ContentTable" ltac:(discriminate) Ht).
    rewrite bind_ret_l. unfold environ_get_or at 1. rewrite Hb. reflexivity.
  - intros Ht Hb. rewrite (Hnonempty "CONTENT_TABLE" "ContentTable" ltac:(discriminate) Ht).
    rewrite bind_ret_l.
    rewrite (Hnonempty "CONTENT_BUCKET" "liwanag-content-bucket" ltac:(discriminate) Hb).
    rewrite bind_ret_l. reflexivity.
  - intros Hb. unfold bucket, environ_get_or. rewrite Hb. reflexivity.
Qed.

Lemma list_of_append (a b : string) :
  list_ascii_of_string (a ++ b) = (list_ascii_of_string a ++ list_ascii_of_string b)%list.
Proof. induction a as [|c a IH]; [reflexivity|]. cbn. rewrite <- IH. reflexivity. Qed.

Lemma string_of_app (l1 l2 : list ascii) :
  string_of_list_ascii (l1 ++ l2)%list = string_of_list_ascii l1 ++ string_of_list_ascii l2.
Proof. induction l1 as [|c l1 IH]; [reflexivity|]. cbn. rewrite IH. reflexivity. Qed.

Lemma list_of_lstrip (c : ascii) (s : string) :
  list_ascii_of_string (lstrip_char c s) = drop_leading c (list_ascii_of_string s).
Proof.
  induction s as [|x s IH]; [reflexivity|]. simpl.
  destruct (Ascii.eqb c x); [exact IH | reflexivity].
Qed.

Lemma list_of_strip (c : ascii) (s : string) :
  list_ascii_of_string (strip_char c s)
  = rev (drop_leading c (rev (drop_leading c (list_ascii_of_string s)))).
Proof.
  unfold strip_char, string_rev.
  rewrite !list_ascii_of_string_of_list_ascii, list_of_lstrip,
    list_ascii_of_string_of_list_ascii, list_of_lstrip. reflexivity.
Qed.

Lemma drop_leading_split (c : ascii) (l : list ascii) :
  (∃ n, l = (repeat c n ++ drop_leading c l)%list) ∧ ∀ t, drop_leading c l ≠ c :: t.
Proof.
  induction l as [|x l [[n IHn] IH]]; simpl.
  - split; [exists 0%nat; reflexivity | discriminate].
  - destruct (Ascii.eqb c x) eqn:Hx.
    + apply Ascii.eqb_eq in Hx. subst x. split; [|exact IH].
      exists (S n). simpl. rewrite <- IHn. reflexivity.
    + split; [exists 0%nat; reflexivity|]. intros t [= -> _].
      rewrite Ascii.eqb_refl in Hx. discriminate.
Qed.

Lemma drop_leading_repeat (c : ascii) (n : nat) (l : list ascii) :
  drop_leading c (repeat c n ++ l)%list = drop_leading c l.
Proof. induction n as [|n IH]; [reflexivity|]. simpl. rewrite Ascii.eqb_refl. exact IH. Qed.

Lemma drop_leading_none (c : ascii) (l : list ascii) :
  (∀ t, l ≠ c :: t) → drop_leading c l = l.
Proof.
  intros H. destruct l as [|x l]; [reflexivity|]. simpl.
  destruct (Ascii.eqb c x) eqn:Hx; [|reflexivity].
  apply Ascii.eqb_eq in Hx. subst x. destruct (H l eq_refl).
Qed.

Lemma rev_repeat_same {A : Type} (x : A) (n : nat) : rev (repeat x n) = repeat x n.
Proof.
  induction n as [|n IH]; [reflexivity|]. simpl. rewrite IH.
  clear IH. induction n as [|n IH]; [reflexivity|]. simpl. rewrite IH. reflexivity.
Qed.

(** The characters of [strip_char c s]: those of [s] between the leading
    and the trailing [c]s. *)
Lemma strip_split (c : ascii) (l : list ascii) :
  let r := rev (drop_leading c (rev (drop_leading c l))) in
  (∃ n m, l = (repeat c n ++ r ++ repeat c m)%list) ∧
  (∀ t, r ≠ c :: t) ∧ (∀ t, r ≠ (t ++ [c])%list).
Proof.
  intros r.
  destruct (drop_leading_split c l) as [[n Hn] Hhead].
  destruct (drop_leading_split c (rev (drop_leading c l))) as [[m Hm] Hlast].
  assert (Hmid : drop_leading c l = (r ++ repeat c m)%list).
  { rewrite <- (rev_involutive (drop_leading c l)), Hm at 1.
    rewrite rev_app_distr, rev_repeat_same. reflexivity. }
  split; [|split].
  - exists n, m. rewrite <- Hmid. exact Hn.
  - intros t Hr. rewrite Hr in Hmid. exact (Hhead _ Hmid).
  - intros t Hr. apply (Hlast (rev t)).
    rewrite <- (rev_involutive (drop_leading c (rev (drop_leading c l)))).
    fold r. rewrite Hr, rev_app_distr. reflexivity.
Qed.

Lemma strip_of_padded (c : ascii) (n m : nat) (q : list ascii) :
  (∀ t, q ≠ c :: t) → (∀ t, q ≠ (t ++ [c])%list) →
  rev (drop_leading c (rev (drop_leading c (repeat c n ++ q ++ repeat c m)%list))) = q.
Proof.
  intros Hhead Hlast. rewrite drop_leading_repeat.
  destruct q as [|x q].
  - simpl. rewrite <- (app_nil_r (repeat c m)), drop_leading_repeat. simpl.
    reflexivity.
  - rewrite (drop_leading_none c ((x :: q) ++ repeat c m)%list).
    + rewrite rev_app_distr, rev_repeat_same, drop_leading_repeat.
      rewrite drop_leading_none; [apply rev_involutive|].
      intros t Ht. apply (Hlast (rev t)).
      rewrite <- (rev_involutive (x :: q)), Ht. reflexivity.
    + intros t [= -> _]. exact (Hhead q eq_refl).
Qed.


Lemma strip_char_of_padded (n m : nat) (q : string) :
  (∀ t, q ≠ String slash t) → (∀ t, q ≠ t ++ "/") →
  strip_char slash (slashes n ++ q ++ slashes m) = q.
Proof.
  intros Hhead Hlast.
  rewrite <- (string_of_list_ascii_of_string (strip_char _ _)), list_of_strip.
  unfold slashes. rewrite !list_of_append, !list_ascii_of_string_of_list_ascii.
  rewrite strip_of_padded; [apply string_of_list_ascii_of_string | |].
  - intros t Ht. apply (Hhead (string_of_list_ascii t)).
    rewrite <- (string_of_list_ascii_of_string q), Ht. reflexivity.
  - intros t Ht. apply (Hlast (string_of_list_ascii t)).
    rewrite <- (string_of_list_ascii_of_string q), Ht, string_of_app. reflexivity.
Qed.

Lemma append_empty_r (s : string) : s ++ EmptyString = s.
Proof. induction s as [|c s IH]; [reflexivity | exact (f_equal (String c) IH)]. Qed.

Lemma strip_char_of_slashes (n : nat) : strip_char slash (slashes n) = EmptyString.
Proof.
  rewrite <- (append_empty_r (slashes n)) at 1.
  change (slashes n ++ EmptyString) with (slashes n ++ EmptyString ++ slashes 0).
  apply strip_char_of_padded; [discriminate|]. intros [|c t]; discriminate.
Qed.

(** X14. The prefix [main] hands to [_publish] is the text of [--prefix]
    between its leading and its trailing slashes: it neither begins nor
    ends with a slash, and a prefix written with any number of slashes
    around it gives the same run as the prefix alone. A prefix made of
    slashes only gives the empty prefix, under which the keys of the
    manifests begin with a slash. *)
Theorem slashes_around_prefix_do_not_matter :
  (∀ s : string,
     let p := strip_char slash s in
     (∃ n m, s = slashes n ++ p ++ slashes m) ∧
     (∀ t, p ≠ String slash t) ∧ (∀ t, p ≠ t ++ "/")) ∧
  (∀ (n m : nat) (q : string),
     (∀ t, q ≠ String slash t) → (∀ t, q ≠ t ++ "/") →
     strip_char slash (slashes n ++ q ++ slashes m) = q ∧
     ∀ (e : env) (environ : gmap string string) (args : cli_args) (root : option fsnode),
       main e environ (with_prefix args (slashes n ++ q ++ slashes m)) root
       = main e environ (with_prefix args q) root) ∧
  (∀ (n : nat) (unit_id episode_id activity_id : pyval) (version : Z) (manifest : pydict),
     strip_char slash (slashes n) = EmptyString ∧
     starts_with "/" (manifest_key (strip_char slash (slashes n)) unit_id episode_id
                        activity_id version manifest) = true).
Proof.
  split; [|split].
  - intros s p.
    destruct (strip_split slash (list_ascii_of_string s)) as ((n & m & Hs) & Hhead & Hlast).
    rewrite <- list_of_strip in Hs, Hhead, Hlast. fold p in Hs, Hhead, Hlast.
    split; [|split].
    + exists n, m. rewrite <- (string_of_list_ascii_of_string s), Hs.
      rewrite !string_of_app, string_of_list_ascii_of_string. reflexivity.
    + intros t Hp. apply (Hhead (list_ascii_of_string t)). rewrite Hp. reflexivity.
    + intros t Hp. apply (Hlast (list_ascii_of_string t)).
      rewrite Hp, list_of_append. reflexivity.
  - intros n m q Hhead Hlast.
    pose proof (strip_char_of_padded n m q Hhead Hlast) as Hpad.
    split; [exact Hpad|].
    assert (Hq : strip_char slash q = q).
    { pose proof (strip_char_of_padded 0 0 q Hhead Hlast) as H0.
      change (slashes 0 ++ q ++ slashes 0) with (q ++ EmptyString) in H0.
      rewrite append_empty_r in H0. exact H0. }
    intros e environ args root. unfold main, with_prefix.
    cbn [args_prefix args_root args_dry_run args_profile].
    rewrite Hpad, Hq. reflexivity.
  - intros n unit_id episode_id activity_id version manifest.
    split; [apply strip_char_of_slashes|].
    rewrite strip_char_of_slashes. unfold manifest_key.
    match goal with
    | |- starts_with _ (EmptyString ++ ?x) = true => change (EmptyString ++ x) with x
    end.
    apply starts_with_app.
Qed.

(* ===================================================================== *)
(** ** A live record is written before its children are read              *)
(* ===================================================================== *)

Lemma put_live_unguarded (e : env) (item : pydict) (k : string * string) (w : world) :
  fault e (ticks w) = None → item_key item = Some k →
  result_of (_ddb_put_live e item false false w) = Ret tt ∧
  ddb (world_of (_ddb_put_live e item false false w)) = <[k := item]> (ddb w).
Proof.
  intros Hf Hk. destruct k as [pk sk].
  destruct (item_key_lookups _ _ _ Hk) as [Hpk Hsk].
  unfold _ddb_put_live, try_client_error, bind, put_item, getitem, print, ret,
    result_of, world_of. simpl.
  rewrite Hf. simpl. rewrite Hk, Hpk, Hsk. simpl. auto.
Qed.

Lemma keeps_put_live (e : env) (item : pydict) (g dry : bool) (k k' : string * string)
    (w : world) :
  item_key item = Some k' → k' ≠ k →
  keeps_key k w (world_of (_ddb_put_live e item g dry w)).
Proof.
  intros Hk Hne. unfold keeps_key.
  destruct (put_live_effect e item g dry w) as [_ [Hsame | (_ & k0 & Hk0 & Hins & _)]].
  - rewrite Hsame. reflexivity.
  - rewrite Hk in Hk0. injection Hk0 as <-. rewrite Hins.
    apply lookup_insert_ne. exact Hne.
Qed.

Lemma prefixed_key_differs (p x : string) (k : string * string) :
  starts_with p (fst k) = false → (p ++ x, "LIVE") ≠ k.
Proof. intros H <-. simpl in H. rewrite starts_with_app in H. discriminate. Qed.

Lemma keeps_activity_step (e : env) (bucket s3_prefix : string) (dry : bool)
    (k : string * string) (unit_id episode_id : pyval) (a_path : string * fsnode) :
  starts_with "ACTIVITY#" (fst k) = false →
  run_spec (fun w _ w' _ => keeps_key k w w')
           (publish_activity e bucket s3_prefix dry unit_id episode_id a_path).
Proof.
  intros Hk. apply (@spec_publish_activity (fun w _ w' _ => keeps_key k w w'));
    unfold keeps_key; try reflexivity.
  - intros w1 w2 w3 _ _ _ H1 H2. congruence.
  - intros key obj w. destruct (s3_put_effect e bucket key obj dry w) as [Hd _].
    unfold keeps_key. rewrite Hd. reflexivity.
  - intros key u ep a title locale total version t w.
    eapply keeps_put_live; [reflexivity|]. apply prefixed_key_differs, Hk.
Qed.

Lemma keeps_episode_step (e : env) (bucket s3_prefix : string) (dry : bool)
    (k : string * string) (path : string) (unit_id : pyval) (ep_dir : string * fsnode) :
  starts_with "ACTIVITY#" (fst k) = false →
  starts_with "EPISODE#" (fst k) = false →
  run_spec (fun w _ w' _ => keeps_key k w w')
           (publish_episode e bucket s3_prefix dry path unit_id ep_dir).
Proof.
  intros Ha He.
  set (Q := fun (w : world) (_ : ending) (w' : world) (_ : list event) => keeps_key k w w').
  assert (Q_ret : ∀ w, Q w Returned w []) by reflexivity.
  assert (Q_raise : ∀ w x, Q w (Raised x) w []) by reflexivity.
  assert (Q_seq : ∀ w1 w2 w3 ev1 ev2 k0,
             Q w1 Returned w2 ev1 → Q w2 k0 w3 ev2 → Q w1 k0 w3 (ev1 ++ ev2)%list).
  { unfold Q, keeps_key. intros w1 w2 w3 _ _ _ H1 H2. congruence. }
  assert (Q_tick : ∀ w, Q w Returned (tick w) []) by reflexivity.
  assert (Q_die : ∀ w msg, Q w (Exited 1) w [Stderr ("[ERROR] " ++ msg)]) by reflexivity.
  unfold publish_episode.
  apply (spec_bind Q_seq); [apply (spec_discover_episode Q_ret Q_die) | intros doc].
  apply (spec_bind Q_seq); [apply (spec_load_yaml Q_ret Q_raise) | intros ep_yaml].
  apply (spec_bind Q_seq); [apply (spec_time Q_tick) | intros t].
  apply (spec_bind Q_seq); [|intros _].
  - intros w. eapply keeps_put_live; [reflexivity|]. apply prefixed_key_differs, He.
  - apply (spec_for_each Q_ret Q_seq). intros a. apply keeps_activity_step, Ha.
Qed.

Lemma for_each_ret_all {A : Type} (body : A → M unit) (l : list A) (w : world) :
  result_of (for_each l body w) = Ret tt →
  ∀ x, In x l → ∃ w0, result_of (body x w0) = Ret tt.
Proof.
  revert w. induction l as [|y l IH]; intros w Hret x Hin; [destruct Hin|].
  simpl in Hret. rewrite bind_run in Hret.
  destruct (body y w) as [[[[]|c|z] w1] ev1] eqn:Hy; unfold result_of in Hret;
    simpl in Hret; try discriminate.
  destruct Hin as [<-|Hin].
  - exists w. rewrite Hy. reflexivity.
  - apply (IH w1); [|exact Hin]. unfold result_of.
    destruct (for_each l body w1) as [[r w2] ev2]. exact Hret.
Qed.

(** X15. In a real run, the Unit live record is written before any episode
    of the unit is looked at: if the write itself does not fail, the record,
    which lists every episode directory by name, is in the table at the end
    of the step for the unit, whatever happens to the episodes and the
    activities after it. So when the document of a listed episode is
    missing the step does not end normally, and the record that lists this
    episode stays. *)
Theorem unit_record_stays_when_episodes_fail
    (e : env) (bucket s3_prefix root_path : string) (root : dirlist)
    (name : string) (dir es : dirlist) (v : pyval) (unit_yaml : pydict) (w : world) :
  _discover_unit_yaml root name dir = ret (FFile v) →
  py_or v (PDict []) = PDict unit_yaml →
  child "episodes" dir = Some (FDir es) →
  fault e (S (ticks w)) = None →
  let unit_id := py_or (dict_get unit_yaml "id" PNone) (PStr name) in
  let names := map fst (sorted_subdirs "e_" es) in
  let item :=
    unit_live_item unit_id (dict_get unit_yaml "title" unit_id)
      (dict_get unit_yaml "content" (PStr EmptyString)) names (now e (ticks w)) in
  let run := publish_unit e bucket s3_prefix false root_path root (name, FDir dir) w in
  ddb (world_of run) !! ("UNIT#" ++ py_str unit_id, "LIVE") = Some item ∧
  dict_lookup "episodeIds" item = Some (PList (map PStr names)) ∧
  (∀ ep, In ep (sorted_subdirs "e_" es) →
         child (fst ep ++ ".yaml") (entries_of (snd ep)) = None →
         result_of run ≠ Ret tt ∧ In (fst ep) names).
Proof.
  intros Hdoc Hmap Hep Hf unit_id names item run.
  set (k := ("UNIT#" ++ py_str unit_id, "LIVE")).
  set (rest := for_each (sorted_subdirs "e_" es)
                 (publish_episode e bucket s3_prefix false
                    (path_child (path_child root_path name) "episodes") unit_id)).
  assert (Hrun : run = (_ddb_put_live e item false false ;;; rest) (tick w)).
  { unfold run, publish_unit. cbn [fst snd entries_of].
    rewrite Hdoc, bind_ret_l. cbn [_load_yaml]. rewrite Hmap, bind_ret_l.
    rewrite Hep. cbn [iterdir].
    rewrite (bind_pure_run _ _ (sorted_subdirs "e_" es)) by (intros w0; reflexivity).
    rewrite bind_time_run.
    fold unit_id. rewrite bind_run.
    rewrite (bind_run (_ddb_put_live e item false false) (fun _ => rest)).
    destruct (_ddb_put_live _ _ _ _ _) as [[[[]|c|x] w1] ev1]; try reflexivity.
    rewrite bind_ret_l. reflexivity. }
  destruct (put_live_unguarded e item k (tick w) Hf eq_refl) as [Hret Hins].
  rewrite Hrun, bind_run. unfold result_of, world_of in *.
  destruct (_ddb_put_live e item false false (tick w)) as [[r1 w1] ev1].
  simpl in Hret, Hins. subst r1. simpl.
  split; [|split].
  - pose proof (@spec_for_each (fun w _ w' _ => keeps_key k w w')
                  ltac:(reflexivity)
                  ltac:(unfold keeps_key; intros; congruence)
                  _ (sorted_subdirs "e_" es)
                  (publish_episode e bucket s3_prefix false
                     (path_child (path_child root_path name) "episodes") unit_id)
                  (fun ep => keeps_episode_step e bucket s3_prefix false k _ unit_id ep
                               ltac:(reflexivity) ltac:(reflexivity)) w1) as Hkeep.
    unfold keeps_key, world_of in Hkeep. fold rest in Hkeep. rewrite Hkeep, Hins.
    apply lookup_insert_eq.
  - reflexivity.
  - intros ep Hin Hmissing. split; [|apply in_map, Hin].
    intros Hok.
    assert (Hrest : result_of (rest w1) = Ret tt).
    { unfold result_of. destruct (rest w1) as [[r w2] ev2]. exact Hok. }
    destruct (for_each_ret_all _ _ _ Hrest ep Hin) as [w0 Hep0].
    unfold publish_episode, _discover_episode_yaml in Hep0. rewrite Hmissing in Hep0.
    discriminate Hep0.
Qed.

Lemma malformed_activity_raises
    (e : env) (bucket s3_prefix : string) (dry : bool) (unit_id episode_id : pyval)
    (file : string) (doc : pyval) (a_yaml : pydict) (x : exn) (w : world) :
  py_or doc (PDict []) = PDict a_yaml →
  py_int (dict_get a_yaml "version" (PInt 1)) = inl x ∨
  py_len (dict_get a_yaml "questions" (PList [])) = inl x →
  ∃ y, publish_activity e bucket s3_prefix dry unit_id episode_id (file, FFile doc) w
       = (Raise y, w, []).
Proof.
  intros Hmap Hbad. unfold publish_activity. cbn [fst snd _load_yaml].
  rewrite Hmap, bind_ret_l.
  destruct (py_int (dict_get a_yaml "version" (PInt 1))) as [y|version] eqn:Hv.
  - exists y. reflexivity.
  - destruct Hbad as [Hbad|Ht]; [discriminate|].
    exists x. cbn [lift]. rewrite bind_ret_l.
    apply bind_raise_run. unfold _build_manifest. rewrite Hv, Ht. reflexivity.
Qed.

(** X16. In a real run, the Episode live record is written before any
    activity of the episode is read: if the write itself does not fail, the
    record, which lists every activity file by its stem, is in the table at
    the end of the step for the episode, whatever happens to the activities
    after it. So when a listed activity has a version that cannot be made
    an integer, or questions without a length, the step does not end
    normally, and the record that lists this activity stays. *)
Theorem episode_record_stays_when_activities_fail
    (e : env) (bucket s3_prefix path : string) (unit_id : pyval)
    (name : string) (dir : dirlist) (v : pyval) (ep_yaml : pydict) (w : world) :
  child (name ++ ".yaml") dir = Some (FFile v) →
  py_or v (PDict []) = PDict ep_yaml →
  fault e (S (ticks w)) = None →
  let episode_id := py_or (dict_get ep_yaml "id" PNone) (PStr name) in
  let acts := _list_activity_yaml dir in
  let stems := map (fun p => stem (fst p)) acts in
  let item :=
    episode_live_item unit_id episode_id (dict_get ep_yaml "title" episode_id) stems
      (now e (ticks w)) in
  let run := publish_episode e bucket s3_prefix false path unit_id (name, FDir dir) w in
  ddb (world_of run) !! ("EPISODE#" ++ py_str unit_id ++ "#" ++ py_str episode_id, "LIVE")
  = Some item ∧
  dict_lookup "activityIds" item = Some (PList (map PStr stems)) ∧
  (∀ file doc a_yaml x,
     In (file, FFile doc) acts →
     py_or doc (PDict []) = PDict a_yaml →
     py_int (dict_get a_yaml "version" (PInt 1)) = inl x ∨
     py_len (dict_get a_yaml "questions" (PList [])) = inl x →
     result_of run ≠ Ret tt ∧ In (stem file) stems).
Proof.
  intros Hdoc Hmap Hf episode_id acts stems item run.
  set (k := ("EPISODE#" ++ py_str unit_id ++ "#" ++ py_str episode_id, "LIVE")).
  set (rest := for_each acts (publish_activity e bucket s3_prefix false unit_id episode_id)).
  assert (Hrun : run = (_ddb_put_live e item false false ;;; rest) (tick w)).
  { unfold run, publish_episode, _discover_episode_yaml. cbn [fst snd entries_of].
    rewrite Hdoc, bind_ret_l. cbn [_load_yaml]. rewrite Hmap, bind_ret_l, bind_time_run.
    reflexivity. }
  destruct (put_live_unguarded e item k (tick w) Hf eq_refl) as [Hret Hins].
  rewrite Hrun, bind_run. unfold result_of, world_of in *.
  destruct (_ddb_put_live e item false false (tick w)) as [[r1 w1] ev1].
  simpl in Hret, Hins. subst r1. simpl.
  split; [|split].
  - pose proof (@spec_for_each (fun w _ w' _ => keeps_key k w w')
                  ltac:(reflexivity)
                  ltac:(unfold keeps_key; intros; congruence)
                  _ acts
                  (publish_activity e bucket s3_prefix false unit_id episode_id)
                  (fun a => keeps_activity_step e bucket s3_prefix false k unit_id
                              episode_id a ltac:(reflexivity)) w1) as Hkeep.
    unfold keeps_key, world_of in Hkeep. fold rest in Hkeep. rewrite Hkeep, Hins.
    apply lookup_insert_eq.
  - reflexivity.
  - intros file doc a_yaml x Hin Hamap Hbad. split.
    + intros Hok.
      assert (Hrest : result_of (rest w1) = Ret tt).
      { unfold result_of. destruct (rest w1) as [[r w2] ev2]. exact Hok. }
      destruct (for_each_ret_all _ _ _ Hrest _ Hin) as [w0 Ha0].
      destruct (malformed_activity_raises e bucket s3_prefix false unit_id episode_id
                  file doc a_yaml x w0 Hamap Hbad) as [y Hy].
      rewrite Hy in Ha0. discriminate Ha0.
    + apply (in_map (fun p => stem (fst p)) acts (file, FFile doc)), Hin.
Qed.

(* ===================================================================== *)
(** ** Which directories are published                                    *)
(* ===================================================================== *)

Lemma sorted_subdirs_exact (pre : string) (es : dirlist) (x : string * fsnode) :
  In x (sorted_subdirs pre es) ↔
  In x es ∧ is_dir (snd x) = true ∧ starts_with pre (fst x) = true.
Proof.
  unfold sorted_subdirs. split.
  - intros Hin. apply (Permutation_in _ (sort_by_key_perm _)) in Hin.
    apply filter_In_iff in Hin as [Hin Hf]. apply andb_true_iff in Hf. tauto.
  - intros (Hin & Hd & Hp).
    apply (Permutation_in _ (Permutation_sym (sort_by_key_perm _))).
    apply filter_In_iff. split; [exact Hin|]. rewrite Hd, Hp. reflexivity.
Qed.

(** X17. The units of a root and the episodes of a unit are taken in
    ascending order of name, and are exactly the entries that are
    directories with a name that begins with [u_], or [e_]; anything else
    is passed over in silence, and where no entry is such a directory the
    loop runs no step. A run over a root directory without unit
    directories therefore stores nothing, writes no error and does not
    exit: it prints nothing but the closing line. A run over a root that
    is not a directory ends with an exception, nothing printed, nothing
    stored. *)
Theorem only_prefixed_directories_are_published :
  (∀ (pre : string) (es : dirlist),
     Sorted (@key_le fsnode) (sorted_subdirs pre es) ∧
     ∀ x, In x (sorted_subdirs pre es) ↔
          In x es ∧ is_dir (snd x) = true ∧ starts_with pre (fst x) = true) ∧
  (∀ (pre : string) (es : dirlist) (body : string * fsnode → M unit) (w : world),
     (∀ x, In x es → is_dir (snd x) = false ∨ starts_with pre (fst x) = false) →
     sorted_subdirs pre es = [] ∧
     for_each (sorted_subdirs pre es) body w = (Ret tt, w, [])) ∧
  (∀ (e : env) (bucket s3_prefix : string) (dry : bool) (root_path : string)
     (es : dirlist) (w : world),
     (∀ x, In x es → is_dir (snd x) = false ∨ starts_with "u_" (fst x) = false) →
     let run := _publish e bucket s3_prefix dry root_path (Some (FDir es)) w in
     world_of run = w ∧
     Forall (fun ev => ev = done_line) (events_of run) ∧
     ∀ c, result_of run ≠ Exit c) ∧
  (∀ (e : env) (bucket s3_prefix : string) (dry : bool) (root_path : string)
     (v : pyval) (w : world),
     ∃ x, _publish e bucket s3_prefix dry root_path (Some (FFile v)) w = (Raise x, w, [])).
Proof.
  assert (Hempty : ∀ (pre : string) (es : dirlist),
             (∀ x, In x es → is_dir (snd x) = false ∨ starts_with pre (fst x) = false) →
             sorted_subdirs pre es = []).
  { intros pre es Hnone.
    destruct (sorted_subdirs pre es) as [|x l] eqn:Hs; [reflexivity|].
    assert (Hin : In x (sorted_subdirs pre es)) by (rewrite Hs; left; reflexivity).
    apply sorted_subdirs_exact in Hin as (Hin & Hd & Hp).
    destruct (Hnone x Hin); congruence. }
  split; [|split; [|split]].
  - intros pre es. split; [apply sort_by_key_sorted | apply sorted_subdirs_exact].
  - intros pre es body w Hnone. rewrite (Hempty pre es Hnone). split; reflexivity.
  - intros e bucket s3_prefix dry root_path es w Hnone run.
    assert (Hrun : run = (Ret tt, w, [done_line])).
    { unfold run, _publish. cbn [iterdir]. rewrite bind_ret_l, (Hempty "u_" es Hnone).
      reflexivity. }
    rewrite Hrun. split; [reflexivity|]. split; [repeat constructor | discriminate].
  - intros. eexists. reflexivity.
Qed.

(* ===================================================================== *)
(** ** Documents that are empty, or not a mapping                         *)
(* ===================================================================== *)

Lemma load_empty (v : pyval) (w : world) :
  truthy v = false → _load_yaml (FFile v) w = (Ret [], w, []).
Proof. intros H. unfold _load_yaml, py_or. rewrite H. reflexivity. Qed.

Lemma load_not_a_mapping (v : pyval) (w : world) :
  truthy v = true → (∀ d, v ≠ PDict d) →
  _load_yaml (FFile v) w = (Raise (PyError "AttributeError"), w, []).
Proof.
  intros H Hd. unfold _load_yaml, py_or. rewrite H.
  destruct v; try reflexivity. destruct (Hd _ eq_refl).
Qed.

(** X18. A unit or episode document that is empty (or holds any other
    falsy value) is read as an empty mapping: the live record is written
    under the name of the directory, which is its title too, a unit with
    the empty text as content. A document that holds something else than a
    mapping stops the run with [AttributeError] before any store call, for
    a unit, an episode and an activity alike. *)
Theorem empty_and_non_mapping_documents :
  (∀ (e : env) (bucket s3_prefix root_path : string) (root : dirlist) (name : string)
     (dir es : dirlist) (v : pyval) (w : world),
     _discover_unit_yaml root name dir = ret (FFile v) →
     truthy v = false →
     child "episodes" dir = Some (FDir es) →
     ∃ r w' ev,
       publish_unit e bucket s3_prefix false root_path root (name, FDir dir) w
       = (r, w',
          CallPutItem
            {| Item := unit_live_item (PStr name) (PStr name) (PStr EmptyString)
                         (map fst (sorted_subdirs "e_" es)) (now e (ticks w));
               Newv := None |} :: ev)) ∧
  (∀ (e : env) (bucket s3_prefix path : string) (unit_id : pyval) (name : string)
     (dir : dirlist) (v : pyval) (w : world),
     child (name ++ ".yaml") dir = Some (FFile v) →
     truthy v = false →
     ∃ r w' ev,
       publish_episode e bucket s3_prefix false path unit_id (name, FDir dir) w
       = (r, w',
          CallPutItem
            {| Item := episode_live_item unit_id (PStr name) (PStr name)
                         (map (fun p => stem (fst p)) (_list_activity_yaml dir))
                         (now e (ticks w));
               Newv := None |} :: ev)) ∧
  (∀ (e : env) (bucket s3_prefix root_path path : string) (dry : bool) (root : dirlist)
     (unit_id episode_id : pyval) (name : string) (dir : dirlist) (v : pyval) (w : world),
     truthy v = true → (∀ d, v ≠ PDict d) →
     let stopped := (Raise (PyError "AttributeError"), w, []) in
     (_discover_unit_yaml root name dir = ret (FFile v) →
        publish_unit e bucket s3_prefix dry root_path root (name, FDir dir) w = stopped) ∧
     (child (name ++ ".yaml") dir = Some (FFile v) →
        publish_episode e bucket s3_prefix dry path unit_id (name, FDir dir) w = stopped) ∧
     publish_activity e bucket s3_prefix dry unit_id episode_id (name, FFile v) w = stopped).
Proof.
  split; [|split].
  - intros e bucket s3_prefix root_path root name dir es v w Hdoc Hv Hep.
    unfold publish_unit. cbn [fst snd entries_of].
    rewrite Hdoc, bind_ret_l, (bind_pure_run _ _ []) by (intros w0; apply load_empty, Hv).
    rewrite Hep. cbn [iterdir].
    rewrite (bind_pure_run _ _ (sorted_subdirs "e_" es)) by (intros w0; reflexivity).
    rewrite bind_time_run. apply put_live_then_first_event.
  - intros e bucket s3_prefix path unit_id name dir v w Hdoc Hv.
    unfold publish_episode, _discover_episode_yaml. cbn [fst snd entries_of].
    rewrite Hdoc, bind_ret_l, (bind_pure_run _ _ []) by (intros w0; apply load_empty, Hv).
    rewrite bind_time_run. apply put_live_then_first_event.
  - intros e bucket s3_prefix root_path path dry root unit_id episode_id name dir v w
      Hv Hd stopped.
    split; [|split].
    + intros Hdoc. unfold publish_unit. cbn [fst snd entries_of].
      rewrite Hdoc, bind_ret_l. apply bind_raise_run, load_not_a_mapping; assumption.
    + intros Hdoc. unfold publish_episode, _discover_episode_yaml. cbn [fst snd entries_of].
      rewrite Hdoc, bind_ret_l. apply bind_raise_run, load_not_a_mapping; assumption.
    + unfold publish_activity. cbn [fst snd].
      apply bind_raise_run, load_not_a_mapping; assumption.
Qed.

(* ===================================================================== *)
(** ** The further properties at sample inputs                            *)
(* ===================================================================== *)

Lemma activity_file_name_and_stem_witness :
  matches_activity "a_1.yaml" = true ∧
  "a_1.yaml" = stem "a_1.yaml" ++ ".yaml" ∧ starts_with "a_" (stem "a_1.yaml") = true.
Proof.
  split; [reflexivity|].
  apply (proj1 activity_file_name_and_stem "a_1.yaml"). reflexivity.
Defined.

Lemma activity_listing_is_sorted_and_exact_witness :
  child "activities" episode_with_null_version
  = Some (FDir [("a_1.yaml", FFile (PDict null_version_doc))]) ∧
  Sorted (@key_le fsnode) (_list_activity_yaml episode_with_null_version) ∧
  ∀ p, In p (_list_activity_yaml episode_with_null_version) ↔
       In p [("a_1.yaml", FFile (PDict null_version_doc))] ∧
       matches_activity (fst p) = true ∧ is_file (snd p) = true.
Proof.
  split; [reflexivity|].
  apply (proj2 activity_listing_is_sorted_and_exact episode_with_null_version
           (FDir [("a_1.yaml", FFile (PDict null_version_doc))])).
  reflexivity.
Defined.

Lemma listing_order_does_not_matter_witness :
  NoDup (map fst two_units) ∧ Permutation two_units (rev two_units) ∧
  sorted_subdirs "u_" two_units = sorted_subdirs "u_" (rev two_units).
Proof.
  assert (Hnodup : NoDup (map fst two_units)).
  { apply NoDup_ListNoDup. vm_compute.
    repeat (constructor; [simpl; intuition discriminate|]). constructor. }
  split; [exact Hnodup|]. split; [apply Permutation_rev|].
  apply (proj1 listing_order_does_not_matter "u_" two_units (rev two_units) Hnodup).
  apply Permutation_rev.
Defined.

Lemma s3_put_stores_object_witness :
  fault (calm 0) (ticks world0) = None ∧
  s3 (world_of (_s3_put_json (calm 0) "liwanag-content-bucket" "activities/m.json"
                  (PDict greetings_doc) false world0))
     !! ("liwanag-content-bucket", "activities/m.json")
  = Some (json_object (PDict greetings_doc)).
Proof.
  split; [reflexivity|].
  apply (proj1 (s3_put_stores_object (calm 0) "liwanag-content-bucket" "activities/m.json"
                  (PDict greetings_doc) world0)).
  reflexivity.
Defined.

Lemma put_without_version_guard_overwrites_witness :
  fault (calm 0) (ticks sample_world) = None ∧
  item_key (sample_record 1 2000) = Some sample_key ∧
  live_version (ddb sample_world) sample_key = Some (PInt 2) ∧
  ddb (world_of (_ddb_put_live (calm 0) (sample_record 1 2000) false false sample_world))
  = <[sample_key := sample_record 1 2000]> (ddb sample_world).
Proof.
  split; [reflexivity|]. split; [reflexivity|]. split; [reflexivity|].
  apply (put_without_version_guard_overwrites (calm 0) (sample_record 1 2000) false
           sample_key sample_world eq_refl eq_refl (or_introl eq_refl)).
Defined.

Lemma activity_step_stores_manifest_then_pointer_witness :
  py_or (PDict greetings_doc) (PDict []) = PDict greetings_doc ∧
  py_int (dict_get greetings_doc "version" (PInt 1)) = inr 1 ∧
  py_len (dict_get greetings_doc "questions" (PList [])) = inr 1 ∧
  fault (calm 0) (ticks world0) = None ∧
  ∃ r w' key obj line kw tail,
    publish_activity (calm 0) "liwanag-content-bucket" "activities" false
      (PStr "u_1") (PStr "e_1") ("a_1.yaml", FFile (PDict greetings_doc)) world0
    = (r, w',
       CallPutObject "liwanag-content-bucket" key obj :: Stdout line :: CallPutItem kw :: tail)
    ∧ s3 w' !! ("liwanag-content-bucket", key) = Some obj.
Proof.
  split; [reflexivity|]. split; [reflexivity|]. split; [reflexivity|].
  split; [reflexivity|].
  destruct (activity_step_stores_manifest_then_pointer (calm 0) "liwanag-content-bucket"
              "activities" (PStr "u_1") (PStr "e_1") "a_1.yaml" (PDict greetings_doc)
              greetings_doc 1 1 world0 eq_refl eq_refl eq_refl) as (_ & Hok & _).
  destruct (Hok eq_refl) as (r & w' & tail & Hrun & Hs3 & _).
  do 7 eexists. split; [exact Hrun|]. rewrite Hs3. apply lookup_insert_eq.
Defined.

Lemma publish_keeps_pointers_resolved_witness :
  pointers_resolve "liwanag-content-bucket" world0 ∧
  pointers_resolve "liwanag-content-bucket" (world_of first_run).
Proof.
  assert (H0 : pointers_resolve "liwanag-content-bucket" world0).
  { intros k item Hk. unfold world0 in Hk. cbn [ddb] in Hk.
    rewrite lookup_empty in Hk. discriminate Hk. }
  split; [exact H0|].
  apply (publish_keeps_pointers_resolved (calm 1000) "liwanag-content-bucket" "activities"
           false "../content/units"
           (Some (one_activity_tree "a_1.yaml" (PDict [("version", PInt 1)]))) world0 H0).
Defined.

Lemma malformed_activity_stops_before_any_store_call_witness :
  py_or (PDict null_version_doc) (PDict []) = PDict null_version_doc ∧
  py_int (dict_get null_version_doc "version" (PInt 1)) = inl (PyError "TypeError") ∧
  publish_activity (calm 0) "liwanag-content-bucket" "activities" false
    (PStr "u_1") (PStr "e_1") ("a_1.yaml", FFile (PDict null_version_doc)) sample_world
  = (Raise (PyError "TypeError"), sample_world, []).
Proof.
  split; [reflexivity|]. split; [reflexivity|].
  apply (proj1 (malformed_activity_stops_before_any_store_call (calm 0)
                  "liwanag-content-bucket" "activities" false (PStr "u_1") (PStr "e_1")
                  "a_1.yaml" (PDict null_version_doc) null_version_doc eq_refl)).
  reflexivity.
Defined.


Lemma done_line_marks_normal_end_witness :
  let run := _publish (calm 0) "liwanag-content-bucket" "activities" false
               "../content/units" (Some (FDir [("u_9", FDir lone_unit)])) world0 in
  result_of run = Ret tt ∧
  ∃ ev, events_of run = (ev ++ [done_line])%list ∧ ¬ In done_line ev.
Proof.
  intros run.
  assert (Hret : result_of run = Ret tt) by (vm_compute; reflexivity).
  split; [exact Hret|].
  apply (proj1 (done_line_marks_normal_end (calm 0) "liwanag-content-bucket" "activities"
                  false "../content/units" (Some (FDir [("u_9", FDir lone_unit)])) world0)).
  exact Hret.
Defined.

Lemma main_checks_configuration_witness :
  empty_table_environ !! "CONTENT_TABLE" = Some EmptyString ∧
  main (calm 0) empty_table_environ default_args None world0
  = (Exit 1, world0, [Stderr "[ERROR] Set CONTENT_TABLE"]).
Proof.
  assert (Hset : empty_table_environ !! "CONTENT_TABLE" = Some EmptyString).
  { apply lookup_singleton_eq. }
  split; [exact Hset|].
  apply (proj1 (main_checks_configuration (calm 0) empty_table_environ default_args None
                  world0) Hset).
Defined.

Lemma slashes_around_prefix_do_not_matter_witness :
  (∀ t, "a" ≠ String slash t) ∧ (∀ t, "a" ≠ t ++ "/") ∧
  strip_char slash (slashes 1 ++ "a" ++ slashes 2) = "a".
Proof.
  assert (Hhead : ∀ t, "a" ≠ String slash t).
  { intros t H. discriminate H. }
  assert (Hlast : ∀ t, "a" ≠ t ++ "/").
  { intros [|c [|c' t]] H; cbv in H; discriminate H. }
  split; [exact Hhead|]. split; [exact Hlast|].
  apply (proj1 (proj2 slashes_around_prefix_do_not_matter) 1%nat 2%nat "a" Hhead Hlast).
Defined.

Lemma unit_record_stays_when_episodes_fail_witness :
  let root := [("u_1", FDir unit_with_missing_episode)] in
  let run := publish_unit (calm 0) "liwanag-content-bucket" "activities" false
               "../content/units" root ("u_1", FDir unit_with_missing_episode) world0 in
  _discover_unit_yaml root "u_1" unit_with_missing_episode
  = ret (FFile (PDict [("title", PStr "Intro")])) ∧
  child "episodes" unit_with_missing_episode = Some (FDir [("e_1", FDir [])]) ∧
  fault (calm 0) (S (ticks world0)) = None ∧
  child ("e_1" ++ ".yaml") [] = None ∧
  result_of run ≠ Ret tt ∧
  ddb (world_of run) !! ("UNIT#u_1", "LIVE")
  = Some (unit_live_item (PStr "u_1") (PStr "Intro") (PStr EmptyString) ["e_1"] 0).
Proof.
  intros root run.
  split; [reflexivity|]. split; [reflexivity|]. split; [reflexivity|].
  split; [reflexivity|].
  destruct (unit_record_stays_when_episodes_fail (calm 0) "liwanag-content-bucket"
              "activities" "../content/units" root "u_1" unit_with_missing_episode
              [("e_1", FDir [])] (PDict [("title", PStr "Intro")]) [("title", PStr "Intro")]
              world0 eq_refl eq_refl eq_refl eq_refl) as (Hrec & _ & Hfail).
  split; [|exact Hrec].
  apply (Hfail ("e_1", FDir [])); [left; reflexivity | reflexivity].
Defined.

Lemma episode_record_stays_when_activities_fail_witness :
  let run := publish_episode (calm 0) "liwanag-content-bucket" "activities" false
               "../content/units/u_1/episodes" (PStr "u_1")
               ("e_1", FDir episode_with_null_version) world0 in
  child ("e_1" ++ ".yaml") episode_with_null_version
  = Some (FFile (PDict [("title", PStr "Basics")])) ∧
  fault (calm 0) (S (ticks world0)) = None ∧
  In ("a_1.yaml", FFile (PDict null_version_doc))
     (_list_activity_yaml episode_with_null_version) ∧
  py_int (dict_get null_version_doc "version" (PInt 1)) = inl (PyError "TypeError") ∧
  result_of run ≠ Ret tt ∧
  ddb (world_of run) !! ("EPISODE#u_1#e_1", "LIVE")
  = Some (episode_live_item (PStr "u_1") (PStr "e_1") (PStr "Basics") ["a_1"] 0).
Proof.
  intros run.
  assert (Hin : In ("a_1.yaml", FFile (PDict null_version_doc))
                   (_list_activity_yaml episode_with_null_version)).
  { left. reflexivity. }
  split; [reflexivity|]. split; [reflexivity|]. split; [exact Hin|].
  split; [reflexivity|].
  destruct (episode_record_stays_when_activities_fail (calm 0) "liwanag-content-bucket"
              "activities" "../content/units/u_1/episodes" (PStr "u_1") "e_1"
              episode_with_null_version (PDict [("title", PStr "Basics")])
              [("title", PStr "Basics")] world0 eq_refl eq_refl eq_refl)
    as (Hrec & _ & Hfail).
  split; [|exact Hrec].
  apply (Hfail "a_1.yaml" (PDict null_version_doc) null_version_doc (PyError "TypeError")
           Hin eq_refl (or_introl eq_refl)).
Defined.

Lemma only_prefixed_directories_are_published_witness :
  (∀ x, In x root_without_units →
        is_dir (snd x) = false ∨ starts_with "u_" (fst x) = false) ∧
  let run := _publish (calm 0) "liwanag-content-bucket" "activities" false
               "../content/units" (Some (FDir root_without_units)) sample_world in
  world_of run = sample_world ∧
  Forall (fun ev => ev = done_line) (events_of run) ∧
  ∀ c, result_of run ≠ Exit c.
Proof.
  assert (Hnone : ∀ x, In x root_without_units →
                       is_dir (snd x) = false ∨ starts_with "u_" (fst x) = false).
  { intros x [<-|[<-|[]]]; [left | right]; reflexivity. }
  split; [exact Hnone|].
  apply (proj1 (proj2 (proj2 only_prefixed_directories_are_published)) (calm 0)
           "liwanag-content-bucket" "activities" false "../content/units"
           root_without_units sample_world Hnone).
Defined.

Lemma empty_and_non_mapping_documents_witness :
  let root := [("u_1", FDir unit_with_empty_document)] in
  _discover_unit_yaml root "u_1" unit_with_empty_document = ret (FFile PNone) ∧
  truthy PNone = false ∧
  child "episodes" unit_with_empty_document = Some (FDir []) ∧
  ∃ r w' ev,
    publish_unit (calm 0) "liwanag-content-bucket" "activities" false "../content/units"
                 root ("u_1", FDir unit_with_empty_document) world0
    = (r, w',
       CallPutItem
         {| Item := unit_live_item (PStr "u_1") (PStr "u_1") (PStr EmptyString) [] 0;
            Newv := None |} :: ev).
Proof.
  intros root.
  split; [reflexivity|]. split; [reflexivity|]. split; [reflexivity|].
  apply (proj1 empty_and_non_mapping_documents (calm 0) "liwanag-content-bucket"
           "activities" "../content/units" root "u_1" unit_with_empty_document [] PNone
           world0 eq_refl eq_refl eq_refl).
Defined.
